(** * AXL_test: Dockerfile generation and artifact clean-up

    A shallow embedding of

    - [app/services/dockerfile_creation.py]: the instruction and stage
      classes, [generate_dockerfile], [parse_key_value_pairs] and
      [load_configs_from_excel];
    - [app/routers/files.py]: [get_directory_size], the three clean-up
      endpoints, [preview_cleanup] and [get_storage_summary];

    followed by the properties of the specification that concern them.

    Conventions.  Python [str] values are [string]s of ASCII characters.
    A function that can raise returns an [option] or a [result]; the
    statements of a loop body are kept in source order.  Python [dict]s
    that are iterated ([label_pairs], [args], [env_vars], the loader's
    result) are association lists in insertion order; the spreadsheet row
    and the output directory, which are only looked up by key, are
    [gmap]s.  The endpoints take the local time [now] and the state of the
    output directory as arguments and return the new state with their
    response; reading and removing never fail for lack of permission. *)

From Stdlib Require Import ZArith String Ascii List Bool Lia Sorted.
From stdpp Require Import base option list gmap strings pretty.

Import ListNotations.
Set Warnings "-register-all".
Local Open Scope string_scope.
Local Open Scope Z_scope.

(** ** Python string primitives *)

Module Py.

(** [str.isspace] on one ASCII character: TAB, LF, VT, FF, CR, the four
    separators FS, GS, RS, US and the space. *)
Definition is_space (c : ascii) : bool :=
  let n := nat_of_ascii c in
  ((9 <=? n) && (n <=? 13) || (28 <=? n) && (n <=? 32))%nat.

Fixpoint lstrip (s : string) : string :=
  match s with
  | String c s' => if is_space c then lstrip s' else s
  | EmptyString => EmptyString
  end.

(** [rstrip] keeps a character when it is not a space or when something
    survives to its right. *)
Fixpoint rstrip (s : string) : string :=
  match s with
  | String c s' =>
      match rstrip s' with
      | EmptyString => if is_space c then EmptyString else String c EmptyString
      | r => String c r
      end
  | EmptyString => EmptyString
  end.

(** [s.strip()] *)
Definition strip (s : string) : string := rstrip (lstrip s).

(** [s.split(sep)] for a one-character separator: never empty, and the
    empty string gives one empty field. *)
Fixpoint split (sep : ascii) (s : string) : list string :=
  match s with
  | EmptyString => [EmptyString]
  | String c s' =>
      if Ascii.eqb c sep then EmptyString :: split sep s'
      else match split sep s' with
           | w :: ws => String c w :: ws
           | [] => [String c EmptyString]
           end
  end.

(** [s.split()]: the maximal runs of non-space characters.  [cur] is the
    run being read, reversed into place by [String.append]. *)
Fixpoint split_ws_go (cur : string) (s : string) : list string :=
  match s with
  | EmptyString => if String.eqb cur "" then [] else [cur]
  | String c s' =>
      if is_space c
      then (if String.eqb cur "" then split_ws_go "" s'
            else cur :: split_ws_go "" s')
      else split_ws_go (cur ++ String c EmptyString) s'
  end.

Definition split_ws (s : string) : list string := split_ws_go "" s.

(** [s.split(sep, 1)] when [sep in s]: the text before and after the
    first separator; [None] when there is no separator. *)
Fixpoint split_first (sep : ascii) (s : string) : option (string * string) :=
  match s with
  | EmptyString => None
  | String c s' =>
      if Ascii.eqb c sep then Some (EmptyString, s')
      else match split_first sep s' with
           | Some (k, v) => Some (String c k, v)
           | None => None
           end
  end.

(** [sub in s] *)
Fixpoint contains (sub s : string) : bool :=
  String.prefix sub s ||
  match s with
  | EmptyString => false
  | String _ s' => contains sub s'
  end.

Definition upper_char (c : ascii) : ascii :=
  let n := nat_of_ascii c in
  if ((97 <=? n) && (n <=? 122))%nat then ascii_of_nat (n - 32) else c.

(** [s.upper()] *)
Fixpoint upper (s : string) : string :=
  match s with
  | EmptyString => EmptyString
  | String c s' => String (upper_char c) (upper s')
  end.

(** [s.replace(a, b)] for one-character [a] and [b]. *)
Fixpoint replace (a b : ascii) (s : string) : string :=
  match s with
  | EmptyString => EmptyString
  | String c s' => String (if Ascii.eqb c a then b else c) (replace a b s')
  end.

(** [sep.join(l)] *)
Definition join (sep : string) (l : list string) : string := String.concat sep l.

(** [s.startswith(p)] *)
Definition startswith (p s : string) : bool := String.prefix p s.

(** Truth value of a [str]. *)
Definition nonempty (s : string) : bool := negb (String.eqb s "").

(** Truth value of an [Optional[str]]. *)
Definition truthy (o : option string) : bool :=
  match o with Some s => nonempty s | None => false end.

(** [str(n)] for an [int]. *)
Definition str_int (n : Z) : string := pretty n.

End Py.

(** ** Python values decoded from JSON

    [json.loads] returns untyped values, and the loader stores them in the
    instruction objects and in [DockerfileStage.shell] as they come.  A
    [float] is represented by its [repr] text. *)

Inductive pyval : Type :=
| PNone
| PBool (b : bool)
| PInt (n : Z)
| PFloat (repr : string)
| PStr (s : string)
| PList (l : list pyval)
| PDict (d : list (string * pyval)).

Module PyVal.

Definition dquote : string := String "034"%char EmptyString.
Definition squote : string := String "039"%char EmptyString.

Definition hex_digit (n : nat) : ascii :=
  ascii_of_nat (if (n <? 10)%nat then 48 + n else 87 + n).

(** One character of [repr(s)], for the chosen quote character. *)
Definition repr_char (quote : ascii) (c : ascii) : string :=
  let n := nat_of_ascii c in
  if Ascii.eqb c quote || Ascii.eqb c "092"%char
  then String "092"%char (String c EmptyString)
  else if Ascii.eqb c "009"%char then String "092"%char "t"
  else if Ascii.eqb c "010"%char then String "092"%char "n"
  else if Ascii.eqb c "013"%char then String "092"%char "r"
  else if ((n <? 32) || (n =? 127))%nat
  then String "092"%char
         (String "x" (String (hex_digit (n / 16)) (String (hex_digit (n mod 16)) EmptyString)))
  else String c EmptyString.

Fixpoint repr_chars (quote : ascii) (s : string) : string :=
  match s with
  | EmptyString => EmptyString
  | String c s' => repr_char quote c ++ repr_chars quote s'
  end.

(** [repr(s)] of a [str]: single quotes, unless the text has a single
    quote and no double quote. *)
Definition repr_str (s : string) : string :=
  let quote :=
    if Py.contains squote s && negb (Py.contains dquote s)
    then "034"%char else "039"%char in
  String quote (repr_chars quote s ++ String quote EmptyString).

(** [repr(v)] *)
Fixpoint repr (v : pyval) : string :=
  match v with
  | PNone => "None"
  | PBool true => "True"
  | PBool false => "False"
  | PInt n => Py.str_int n
  | PFloat r => r
  | PStr s => repr_str s
  | PList l => "[" ++ Py.join ", " (map repr l) ++ "]"
  | PDict d =>
      "{" ++ Py.join ", " (map (fun kv => let '(k, x) := kv in
                                          repr_str k ++ ": " ++ repr x) d) ++ "}"
  end.

(** [str(v)], the text an f-string inserts for [{v}]. *)
Definition str (v : pyval) : string :=
  match v with
  | PStr s => s
  | _ => repr v
  end.

(** Truth value, as tested by [if v:]. *)
Definition truthy (v : pyval) : bool :=
  match v with
  | PNone => false
  | PBool b => b
  | PInt n => negb (n =? 0)
  | PFloat r => negb (String.eqb r "0.0" || String.eqb r "-0.0")
  | PStr s => Py.nonempty s
  | PList l => match l with [] => false | _ => true end
  | PDict d => match d with [] => false | _ => true end
  end.

Fixpoint chars (s : string) : list pyval :=
  match s with
  | EmptyString => []
  | String c s' => PStr (String c EmptyString) :: chars s'
  end.

(** [iter(v)]: the items a [for] loop or a generator visits; [None]
    stands for the [TypeError] of a value that is not iterable. *)
Definition iter (v : pyval) : option (list pyval) :=
  match v with
  | PList l => Some l
  | PStr s => Some (chars s)
  | PDict d => Some (map (fun kv => PStr (fst kv)) d)
  | _ => None
  end.

(** Lookup in the insertion-ordered key list of a decoded object. *)
Fixpoint assoc (k : string) (d : list (string * pyval)) : option pyval :=
  match d with
  | [] => None
  | (k', x) :: d' => if String.eqb k k' then Some x else assoc k d'
  end.

(** [v[k]] for a string key: [None] stands for the [KeyError] of a
    missing key and for the [TypeError] of a value that is not a dict. *)
Definition getitem (v : pyval) (k : string) : option pyval :=
  match v with
  | PDict d => assoc k d
  | _ => None
  end.

(** [v.get(k)]: [None] stands for the [AttributeError] of a value
    without a [get] method. *)
Definition get (v : pyval) (k : string) : option pyval :=
  match v with
  | PDict d => Some (default PNone (assoc k d))
  | _ => None
  end.

End PyVal.

(** ** Instruction and stage model *)

Module CopyInstruction.

Record t : Type := Build { src : pyval; dest : pyval; from_stage : pyval }.

Definition to_docker (self : t) : string :=
  if PyVal.truthy (from_stage self)
  then "COPY --from=" ++ PyVal.str (from_stage self) ++ " "
         ++ PyVal.str (src self) ++ " " ++ PyVal.str (dest self)
  else "COPY " ++ PyVal.str (src self) ++ " " ++ PyVal.str (dest self).

End CopyInstruction.

Module AddInstruction.

Record t : Type := Build { src : pyval; dest : pyval; chown : pyval }.

Definition to_docker (self : t) : string :=
  if PyVal.truthy (chown self)
  then "ADD --chown=" ++ PyVal.str (chown self) ++ " "
         ++ PyVal.str (src self) ++ " " ++ PyVal.str (dest self)
  else "ADD " ++ PyVal.str (src self) ++ " " ++ PyVal.str (dest self).

End AddInstruction.

(** The attributes of [DockerfileStage] after [__init__]: the collection
    attributes have had [or []] and [or {}] applied, so an absent collection
    is the empty one.  [shell] holds what the caller passed, which for the
    loader is the value [json.loads] returned. *)
Record DockerfileStage : Type := {
  name : option string;
  base_image : string;
  workdir : option string;
  add : list AddInstruction.t;
  copy : list CopyInstruction.t;
  run_commands : list string;
  env_vars : list (string * string);
  args : list (string * string);
  expose_ports : list Z;
  entrypoint : option (list string);
  cmd : option (list string);
  label_pairs : list (string * string);
  maintainer : option string;
  onbuild_cmd : option string;
  shell : pyval;
  stopsignal : option string;
  user : option string;
  volume_dirs : list string;
  healthcheck : option string
}.

(** ** The Dockerfile compiler *)

(** [l.append(x)] *)
Definition append {A : Type} (l : list A) (x : A) : list A := l ++ [x].

(** [",".join(f'"{e}"' for e in items)] over strings. *)
Definition quoted_list (items : list string) : string :=
  Py.join "," (map (fun e => PyVal.dquote ++ e ++ PyVal.dquote) items).

(** Truth value of an [Optional[List[str]]]. *)
Definition truthy_list (o : option (list string)) : bool :=
  match o with
  | Some (_ :: _) => true
  | _ => false
  end.

(** The body of the [for stage in stages] loop of [generate_dockerfile]:
    the directives of one stage appended to [lines], in source order.  The
    only statement that can raise is the generator over [stage.shell]. *)
Definition render_stage (lines : list string) (stage : DockerfileStage)
  : option (list string) :=
  (* FROM *)
  let lines :=
    if Py.truthy (name stage)
    then append lines ("FROM " ++ base_image stage ++ " AS " ++ default "" (name stage))
    else append lines ("FROM " ++ base_image stage) in
  (* MAINTAINER *)
  let lines :=
    if Py.truthy (maintainer stage)
    then append lines ("MAINTAINER " ++ default "" (maintainer stage))
    else lines in
  (* LABEL *)
  let lines :=
    fold_left (fun lines kv =>
                 append lines ("LABEL " ++ fst kv ++ "=" ++ PyVal.dquote ++ snd kv ++ PyVal.dquote))
      (label_pairs stage) lines in
  (* ARG *)
  let lines :=
    fold_left (fun lines kv => append lines ("ARG " ++ fst kv ++ "=" ++ snd kv))
      (args stage) lines in
  (* ENV *)
  let lines :=
    fold_left (fun lines kv => append lines ("ENV " ++ fst kv ++ "=" ++ snd kv))
      (env_vars stage) lines in
  (* WORKDIR *)
  let lines :=
    if Py.truthy (workdir stage)
    then append lines ("WORKDIR " ++ default "" (workdir stage))
    else lines in
  (* ADD *)
  let lines :=
    fold_left (fun lines add_inst => append lines (AddInstruction.to_docker add_inst))
      (add stage) lines in
  (* COPY *)
  let lines :=
    fold_left (fun lines copy_inst => append lines (CopyInstruction.to_docker copy_inst))
      (copy stage) lines in
  (* RUN *)
  let lines :=
    fold_left (fun lines c => append lines ("RUN " ++ c)) (run_commands stage) lines in
  (* ONBUILD *)
  let lines :=
    if Py.truthy (onbuild_cmd stage)
    then append lines ("ONBUILD " ++ default "" (onbuild_cmd stage))
    else lines in
  (* SHELL *)
  lines ←
    (if PyVal.truthy (shell stage)
     then items ← PyVal.iter (shell stage);
          Some (append lines ("SHELL [" ++ quoted_list (map PyVal.str items) ++ "]"))
     else Some lines);
  (* STOPSIGNAL *)
  let lines :=
    if Py.truthy (stopsignal stage)
    then append lines ("STOPSIGNAL " ++ default "" (stopsignal stage))
    else lines in
  (* USER *)
  let lines :=
    if Py.truthy (user stage)
    then append lines ("USER " ++ default "" (user stage))
    else lines in
  (* VOLUME *)
  let lines :=
    fold_left (fun lines v =>
                 append lines ("VOLUME [" ++ PyVal.dquote ++ v ++ PyVal.dquote ++ "]"))
      (volume_dirs stage) lines in
  (* EXPOSE *)
  let lines :=
    fold_left (fun lines port => append lines ("EXPOSE " ++ Py.str_int port))
      (expose_ports stage) lines in
  (* HEALTHCHECK *)
  let lines :=
    if Py.truthy (healthcheck stage)
    then append lines ("HEALTHCHECK " ++ default "" (healthcheck stage))
    else lines in
  (* ENTRYPOINT *)
  let lines :=
    if truthy_list (entrypoint stage)
    then append lines ("ENTRYPOINT [" ++ quoted_list (default [] (entrypoint stage)) ++ "]")
    else lines in
  (* CMD *)
  let lines :=
    if truthy_list (cmd stage)
    then append lines ("CMD [" ++ quoted_list (default [] (cmd stage)) ++ "]")
    else lines in
  (* spacing between stages *)
  Some (append lines "").

(** The [for] loop over the stages, threading [lines]. *)
Fixpoint render_stages (lines : list string) (stages : list DockerfileStage)
  : option (list string) :=
  match stages with
  | [] => Some lines
  | stage :: rest => lines ← render_stage lines stage; render_stages lines rest
  end.

Definition newline : string := String "010"%char EmptyString.

(** [generate_dockerfile]; [None] stands for the [TypeError] raised when a
    stage's [shell] is true but not iterable. *)
Definition generate_dockerfile (stages : list DockerfileStage) : option string :=
  lines ← render_stages [] stages;
  Some (Py.strip (Py.join newline lines)).

(** ** Exceptions and fallible results *)

Inductive exn : Type :=
| KeyError (key : string)
| ValueError
| OverflowError.

Inductive result (A : Type) : Type :=
| Ok (a : A)
| Raise (e : exn).

Arguments Ok {A} a.
Arguments Raise {A} e.

Global Instance result_bind : MBind result := fun A B f m =>
  match m with
  | Ok a => f a
  | Raise e => Raise e
  end.

Definition is_ok {A : Type} (r : result A) : bool :=
  match r with Ok _ => true | Raise _ => false end.

(** ** [int(float(s))]

    [float] reads an optional sign and then [inf], [infinity], [nan] or a
    decimal number with an optional exponent, digits possibly grouped by
    single underscores, and rounds it to the nearest binary64 value, ties
    to even.  [int] truncates toward zero and raises on an infinity or a
    NaN.  Only the integer that comes out is needed, so the binary64 value
    is computed as an exact rational. *)

Module IntFloat.

Definition digit (c : ascii) : option Z :=
  let n := nat_of_ascii c in
  if ((48 <=? n) && (n <=? 57))%nat then Some (Z.of_nat n - 48) else None.

(** The rest of a digit part after its first digit: more digits, each
    possibly preceded by one underscore.  Returns the value, the number
    of digits read and the unread text. *)
Fixpoint digits_go (acc : Z) (count : Z) (s : string) : Z * Z * string :=
  match s with
  | String c s' =>
      match digit c with
      | Some d => digits_go (10 * acc + d) (count + 1) s'
      | None =>
          if Ascii.eqb c "_"
          then match s' with
               | String c' s'' =>
                   match digit c' with
                   | Some d => digits_go (10 * acc + d) (count + 1) s''
                   | None => (acc, count, s)
                   end
               | EmptyString => (acc, count, s)
               end
          else (acc, count, s)
      end
  | EmptyString => (acc, count, s)
  end.

(** A digit part starts with a digit. *)
Definition digitpart (s : string) : option (Z * Z * string) :=
  match s with
  | String c s' =>
      match digit c with
      | Some d => Some (digits_go d 1 s')
      | None => None
      end
  | EmptyString => None
  end.

Definition sign (s : string) : bool * string :=
  match s with
  | String "-" s' => (true, s')
  | String "+" s' => (false, s')
  | _ => (false, s)
  end.

(** [e] or [E], an optional sign and a digit part; nothing may follow. *)
Definition exponent (s : string) : option Z :=
  match s with
  | EmptyString => Some 0
  | String c s' =>
      if Ascii.eqb c "e" || Ascii.eqb c "E"
      then let '(neg, s'') := sign s' in
           match digitpart s'' with
           | Some (e, _, EmptyString) => Some (if neg then - e else e)
           | _ => None
           end
      else None
  end.

(** An unsigned decimal literal as [(m, e)], standing for [m * 10^e]. *)
Definition decimal (s : string) : option (Z * Z) :=
  match s with
  | String "." s' =>
      '(f, nf, rest) ← digitpart s';
      e ← exponent rest;
      Some (f, e - nf)
  | _ =>
      '(i, _, rest) ← digitpart s;
      match rest with
      | String "." rest' =>
          match digitpart rest' with
          | Some (f, nf, rest'') =>
              e ← exponent rest'';
              Some (i * 10 ^ nf + f, e - nf)
          | None => e ← exponent rest'; Some (i, e)
          end
      | _ => e ← exponent rest; Some (i, e)
      end
  end.

(** Nearest integer to [num / den], ties to even ([den > 0]). *)
Definition round_half_even (num den : Z) : Z :=
  let q := num / den in
  let r := num mod den in
  if 2 * r <? den then q
  else if den <? 2 * r then q + 1
  else if Z.even q then q else q + 1.

(** [int(x)] for the binary64 value [x] nearest to [n / d], with
    [n, d > 0]. *)
Definition trunc_binary64 (n d : Z) : result Z :=
  if 2 * n <? d then Ok 0
  else
    let l0 := Z.log2 n - Z.log2 d in
    let l := if d * 2 ^ Z.max l0 0 <=? n * 2 ^ Z.max (- l0) 0 then l0 else l0 - 1 in
    let e2 := l - 52 in
    let m := round_half_even (n * 2 ^ Z.max (- e2) 0) (d * 2 ^ Z.max e2 0) in
    if 2 ^ 1024 <=? m * 2 ^ Z.max e2 0
    then Raise OverflowError
    else Ok (m * 2 ^ Z.max e2 0 / 2 ^ Z.max (- e2) 0).

Definition lower_char (c : ascii) : ascii :=
  let n := nat_of_ascii c in
  if ((65 <=? n) && (n <=? 90))%nat then ascii_of_nat (n + 32) else c.

Fixpoint lower (s : string) : string :=
  match s with
  | EmptyString => EmptyString
  | String c s' => String (lower_char c) (lower s')
  end.

Definition int_float (s : string) : result Z :=
  let '(neg, body) := sign (Py.strip s) in
  let word := lower body in
  if String.eqb word "inf" || String.eqb word "infinity" then Raise OverflowError
  else if String.eqb word "nan" then Raise ValueError
  else
    match decimal body with
    | None => Raise ValueError
    | Some (m, e) =>
        if m =? 0 then Ok 0
        else
          v ← trunc_binary64 (m * 10 ^ Z.max e 0) (10 ^ Z.max (- e) 0);
          Ok (if neg then - v else v)
    end.

End IntFloat.

(** ** The configuration loader *)

(** [result[key] = value] on an insertion-ordered [dict]: an existing key
    keeps its position and takes the new value, a new key goes last. *)
Fixpoint dict_set {V : Type} (d : list (string * V)) (k : string) (v : V)
  : list (string * V) :=
  match d with
  | [] => [(k, v)]
  | (k', v') :: d' =>
      if String.eqb k k' then (k', v) :: d' else (k', v') :: dict_set d' k v
  end.

(** [d.get(key)] on such a [dict]. *)
Fixpoint dict_get {V : Type} (d : list (string * V)) (k : string) : option V :=
  match d with
  | [] => None
  | (k', v') :: d' => if String.eqb k k' then Some v' else dict_get d' k
  end.

(** The body of the loop of [parse_key_value_pairs]: a token with an
    equals sign is split at the first one and stored, trimmed. *)
Definition parse_step (result : list (string * string)) (kv : string)
  : list (string * string) :=
  match Py.split_first "=" kv with
  | Some (k, v) => dict_set result (Py.strip k) (Py.strip v)
  | None => result
  end.

(** [parse_key_value_pairs(cell, sep=";")]; the loop over the tokens
    threads [result]. *)
Definition parse_key_value_pairs (cell : string) : list (string * string) :=
  if negb (Py.nonempty cell) || String.eqb (Py.strip cell) ""
  then []
  else fold_left parse_step (Py.split ";" cell) [].

(** One spreadsheet row after [fillna('')]: column name to cell text.  A
    column that the sheet does not have is an absent key. *)
Abbreviation Row := (gmap string string).

(** [row[key]] *)
Definition row_item (row : Row) (key : string) : result string :=
  match row !! key with
  | Some cell => Ok cell
  | None => Raise (KeyError key)
  end.

(** [str(row.get(key, ""))] *)
Definition row_get (row : Row) (key : string) : string := default "" (row !! key).

(** [row.get(key, "")] is not blank. *)
Definition filled (row : Row) (key : string) : bool :=
  negb (String.eqb (Py.strip (row_get row key)) "").

(** [[int(float(p.strip())) for p in tokens if p.strip()]], left to right;
    the first token that does not convert raises. *)
Fixpoint ports_of_tokens (tokens : list string) : result (list Z) :=
  match tokens with
  | [] => Ok []
  | p :: rest =>
      if Py.nonempty (Py.strip p)
      then n ← IntFloat.int_float (Py.strip p);
           ns ← ports_of_tokens rest;
           Ok (n :: ns)
      else ports_of_tokens rest
  end.

(** [[t.strip() for t in tokens if t.strip()]] *)
Definition stripped_tokens (tokens : list string) : list string :=
  map Py.strip (filter (fun t => Py.nonempty (Py.strip t) = true) tokens).

Section Loader.

(** [json.loads], from the Python standard library: [None] when it
    raises. *)
Variable json_loads : string → option pyval.

(** The body of [for a in add_list], inside the [try]: an element that
    lacks ["src"] or ["dest"], or is not a dict, raises, and the
    [except] keeps the instructions appended so far. *)
Fixpoint add_loop (add_instructions : list AddInstruction.t) (items : list pyval)
  : list AddInstruction.t :=
  match items with
  | [] => add_instructions
  | a :: rest =>
      match (src ← PyVal.getitem a "src";
             dest ← PyVal.getitem a "dest";
             chown ← PyVal.get a "chown";
             Some (AddInstruction.Build src dest chown)) with
      | Some inst => add_loop (append add_instructions inst) rest
      | None => add_instructions
      end
  end.

Definition load_add (row : Row) : list AddInstruction.t :=
  if filled row "add_files"
  then match json_loads (row_get row "add_files") with
       | Some add_list =>
           match PyVal.iter add_list with
           | Some items => add_loop [] items
           | None => []
           end
       | None => []
       end
  else [].

Fixpoint copy_loop (copy_instructions : list CopyInstruction.t) (items : list pyval)
  : list CopyInstruction.t :=
  match items with
  | [] => copy_instructions
  | c :: rest =>
      match (src ← PyVal.getitem c "src";
             dest ← PyVal.getitem c "dest";
             from_stage ← PyVal.get c "from";
             Some (CopyInstruction.Build src dest from_stage)) with
      | Some inst => copy_loop (append copy_instructions inst) rest
      | None => copy_instructions
      end
  end.

Definition load_copy (row : Row) : list CopyInstruction.t :=
  if filled row "copy_pairs"
  then match json_loads (row_get row "copy_pairs") with
       | Some copy_list =>
           match PyVal.iter copy_list with
           | Some items => copy_loop [] items
           | None => []
           end
       | None => []
       end
  else [].

Definition load_run (row : Row) : list string :=
  if filled row "run_commands"
  then stripped_tokens (Py.split ";" (row_get row "run_commands"))
  else [].

Definition load_ports (row : Row) : result (list Z) :=
  if filled row "expose_ports"
  then ports_of_tokens (Py.split ";" (Py.replace "," ";" (row_get row "expose_ports")))
  else Ok [].

Definition load_words (row : Row) (key : string) : option (list string) :=
  if filled row key then Some (Py.split_ws (row_get row key)) else None.

(** The [except] branch of the shell field splits the cell on
    whitespace. *)
Definition load_shell (row : Row) : pyval :=
  if filled row "shell"
  then match json_loads (row_get row "shell") with
       | Some v => v
       | None => PList (map PStr (Py.split_ws (row_get row "shell")))
       end
  else PNone.

Definition load_volumes (row : Row) : list string :=
  if filled row "volume_dirs"
  then stripped_tokens (Py.split ";" (Py.replace "," ";" (row_get row "volume_dirs")))
  else [].

(** The body of [for _, row in df.iterrows()] up to the construction of
    the stage, in source order: [row["app_name"]] is read first, the
    port list is the only decoding that can raise, and
    [row["base_image"]] is read last. *)
Definition load_row (row : Row) : result (string * DockerfileStage) :=
  app_name ← row_item row "app_name";
  let stage_name := row !! "stage_name" in
  let add_instructions := load_add row in
  let copy_instructions := load_copy row in
  let run_cmds := load_run row in
  let env_vars := parse_key_value_pairs (row_get row "env_vars") in
  let args := parse_key_value_pairs (row_get row "args") in
  let label_pairs := parse_key_value_pairs (row_get row "label_pairs") in
  expose_ports ← load_ports row;
  let entrypoint := load_words row "entrypoint" in
  let cmd := load_words row "cmd" in
  let shell := load_shell row in
  let volume_dirs := load_volumes row in
  base_image ← row_item row "base_image";
  Ok (app_name,
      {| name := stage_name;
         base_image := base_image;
         workdir := row !! "workdir";
         add := add_instructions;
         copy := copy_instructions;
         run_commands := run_cmds;
         env_vars := env_vars;
         args := args;
         expose_ports := expose_ports;
         entrypoint := entrypoint;
         cmd := cmd;
         label_pairs := label_pairs;
         maintainer := row !! "maintainer";
         onbuild_cmd := row !! "onbuild_cmd";
         shell := shell;
         stopsignal := row !! "stopsignal";
         user := row !! "user";
         volume_dirs := volume_dirs;
         healthcheck := row !! "healthcheck" |}).

(** [if app_name not in app_configs: app_configs[app_name] = []] and
    [app_configs[app_name].append(stage)]. *)
Definition add_stage (app_configs : list (string * list DockerfileStage))
    (app_name : string) (stage : DockerfileStage)
  : list (string * list DockerfileStage) :=
  dict_set app_configs app_name
    (append (default [] (dict_get app_configs app_name)) stage).

(** The loop over the rows; an exception in one row leaves the loop and
    the function. *)
Fixpoint load_rows (app_configs : list (string * list DockerfileStage))
    (rows : list Row) : result (list (string * list DockerfileStage)) :=
  match rows with
  | [] => Ok app_configs
  | row :: rest =>
      '(app_name, stage) ← load_row row;
      load_rows (add_stage app_configs app_name stage) rest
  end.

(** [load_configs_from_excel], from the rows that [pd.read_excel] and
    [fillna('')] give. *)
Definition load_configs_from_excel (rows : list Row)
  : result (list (string * list DockerfileStage)) :=
  load_rows [] rows.

End Loader.

(** ** The output directory

    A directory maps entry names to nodes.  Only what the router reads is
    kept: the text of a file (its size is its length) and the
    modification time of a directory, as the naive local [datetime] that
    [datetime.fromtimestamp(os.path.getmtime(path))] gives, counted in
    microseconds since 0001-01-01 00:00.  There are no symbolic links and
    no permission errors. *)

Inductive node : Type :=
| File (content : string)
| Dir (mtime : Z) (entries : gmap string node).

Abbreviation Directory := (gmap string node).

(** [os.listdir(path)], in the arbitrary order of the file system. *)
Definition listdir (d : Directory) : list string := (map_to_list d).*1.

(** [get_directory_size]: [os.walk] visits every directory below [path]
    and the sizes of the files in each are added up. *)
Fixpoint get_directory_size (n : node) : Z :=
  match n with
  | File content => Z.of_nat (String.length content)
  | Dir _ entries =>
      map_fold (fun _ child total_size => total_size + get_directory_size child) 0 entries
  end.

(** [open(path, 'r').read()]; [None] stands for the [IsADirectoryError]. *)
Definition read_text (n : node) : option string :=
  match n with
  | File content => Some content
  | Dir _ _ => None
  end.

(** [[f for f in os.listdir(item_path) if not f.startswith('.')]] *)
Definition visible_contents (entries : Directory) : list string :=
  filter (fun f => Py.startswith "." f = false) (listdir entries).

(** *** Dates *)

Definition microseconds_per_day : Z := 86400000000.

(** [datetime.max], 9999-12-31 23:59:59.999999, the last of 3652059 days. *)
Definition datetime_max : Z := 3652059 * microseconds_per_day - 1.

(** [timedelta(days=days)] raises outside a billion days either way. *)
Definition timedelta_days (days : Z) : result Z :=
  if (-999999999 <=? days) && (days <=? 999999999)
  then Ok (days * microseconds_per_day)
  else Raise OverflowError.

(** [now - delta] raises when the result is not a [datetime]. *)
Definition datetime_sub (now delta : Z) : result Z :=
  let t := now - delta in
  if (0 <=? t) && (t <=? datetime_max) then Ok t else Raise OverflowError.

(** [round(size / (1024 * 1024), 2)], as a number of hundredths.  The
    quotient by a power of two is exact below 2^53 bytes, and [round]
    takes the nearest two-decimal value of it, ties to even. *)
Definition size_mb (size : Z) : Z := IntFloat.round_half_even (100 * size) (1024 * 1024).

(** *** Responses *)

(** What an endpoint gives back: the value it returns, or the
    [HTTPException] with status 500 of its [except Exception] clause. *)
Inductive response (A : Type) : Type :=
| Returned (a : A)
| HTTP500.

Arguments Returned {A} a.
Arguments HTTP500 {A}.

(** The reason strings of the clean-up endpoints. *)
Inductive reason : Type :=
| OlderThan (days : Z)
| EmptyDirectory
| NoDockerfileFound
| EmptyDockerfile
| NoFromInstruction
| ErrorReadingDockerfile.

(** *** [cleanup_old_files] *)

Record deleted_old : Type := {
  old_name : string;
  old_last_modified : Z;
  old_size_mb : Z
}.

Record old_report : Type := {
  old_deleted_apps : list deleted_old;
  old_total_size_freed_mb : Z
}.

(** One turn of [for item in os.listdir(OUTPUT_DIR)]; the state is the
    directory on disk, [deleted_apps] and [total_size_freed]. *)
Definition cleanup_old_step (cutoff_time : Z)
    (st : Directory * list deleted_old * Z) (item : string)
  : Directory * list deleted_old * Z :=
  let '(output, deleted_apps, total_size_freed) := st in
  match output !! item with
  | Some (Dir mod_time entries) =>
      if negb (Py.startswith "." item)
      then if mod_time <? cutoff_time
           then let size := get_directory_size (Dir mod_time entries) in
                (delete item output,
                 append deleted_apps {| old_name := item;
                                        old_last_modified := mod_time;
                                        old_size_mb := size_mb size |},
                 total_size_freed + size)
           else st
      else st
  | _ => st
  end.

(** [cleanup_old_files(days)] at local time [now]: the directory left on
    disk and the response.  [None] is an output directory that does not
    exist; the response is then a message with an empty [deleted_apps]. *)
Definition cleanup_old_files (now days : Z) (output : option Directory)
  : option Directory * response old_report :=
  match output with
  | None => (None, Returned {| old_deleted_apps := []; old_total_size_freed_mb := 0 |})
  | Some out =>
      match (delta ← timedelta_days days; datetime_sub now delta) with
      | Raise _ => (Some out, HTTP500)
      | Ok cutoff_time =>
          let '(out', deleted_apps, total_size_freed) :=
            fold_left (cleanup_old_step cutoff_time) (listdir out) (out, [], 0) in
          (Some out',
           Returned {| old_deleted_apps := deleted_apps;
                       old_total_size_freed_mb := size_mb total_size_freed |})
      end
  end.

(** *** [cleanup_empty_directories] *)

Definition cleanup_empty_step (st : Directory * list string) (item : string)
  : Directory * list string :=
  let '(output, deleted_apps) := st in
  match output !! item with
  | Some (Dir _ entries) =>
      if negb (Py.startswith "." item)
      then let contents := visible_contents entries in
           if (length contents =? 0)%nat
           then (delete item output, append deleted_apps item)
           else st
      else st
  | _ => st
  end.

Definition cleanup_empty_directories (output : option Directory)
  : option Directory * response (list string) :=
  match output with
  | None => (None, Returned [])
  | Some out =>
      let '(out', deleted_apps) :=
        fold_left cleanup_empty_step (listdir out) (out, []) in
      (Some out', Returned deleted_apps)
  end.

(** *** [cleanup_invalid_apps] *)

(** The [is_invalid] and [reason] variables after the checks, which are
    set together: [Some reason] when [is_invalid] is true. *)
Definition check_invalid (entries : Directory) : option reason :=
  match entries !! "Dockerfile" with
  | None => Some NoDockerfileFound
  | Some dockerfile =>
      match read_text dockerfile with
      | Some text =>
          let content := Py.strip text in
          if negb (Py.nonempty content) then Some EmptyDockerfile
          else if negb (Py.contains "FROM " (Py.upper content))
               then Some NoFromInstruction
               else None
      | None => Some ErrorReadingDockerfile
      end
  end.

Definition cleanup_invalid_step (st : Directory * list (string * reason)) (item : string)
  : Directory * list (string * reason) :=
  let '(output, deleted_apps) := st in
  match output !! item with
  | Some (Dir _ entries) =>
      if negb (Py.startswith "." item)
      then match check_invalid entries with
           | Some r => (delete item output, append deleted_apps (item, r))
           | None => st
           end
      else st
  | _ => st
  end.

Definition cleanup_invalid_apps (output : option Directory)
  : option Directory * response (list (string * reason)) :=
  match output with
  | None => (None, Returned [])
  | Some out =>
      let '(out', deleted_apps) :=
        fold_left cleanup_invalid_step (listdir out) (out, []) in
      (Some out', Returned deleted_apps)
  end.

(** *** [preview_cleanup] *)

Record app_info : Type := {
  info_name : string;
  info_last_modified : Z;
  info_size_mb : Z;
  will_be_deleted : bool;
  reasons : list reason
}.

Record preview_report : Type := {
  preview_total_apps : nat;
  apps_to_delete : nat;
  total_size_to_free_mb : Z;
  preview_apps : list app_info
}.

(** The age check of one directory: the flag and reasons after it. *)
Definition preview_age (now : Z) (days : option Z) (mod_time : Z)
    (flag : bool) (rs : list reason) : result (bool * list reason) :=
  match days with
  | Some d =>
      delta ← timedelta_days d;
      cutoff_time ← datetime_sub now delta;
      if mod_time <? cutoff_time
      then Ok (true, append rs (OlderThan d))
      else Ok (flag, rs)
  | None => Ok (flag, rs)
  end.

Definition preview_empty (show_empty : bool) (entries : Directory)
    (flag : bool) (rs : list reason) : bool * list reason :=
  if show_empty
  then let contents := visible_contents entries in
       if (length contents =? 0)%nat
       then (true, append rs EmptyDirectory)
       else (flag, rs)
  else (flag, rs).

Definition preview_invalid (show_invalid : bool) (entries : Directory)
    (flag : bool) (rs : list reason) : bool * list reason :=
  if show_invalid
  then match entries !! "Dockerfile" with
       | None => (true, append rs NoDockerfileFound)
       | Some dockerfile =>
           match read_text dockerfile with
           | Some text =>
               let content := Py.strip text in
               if negb (Py.nonempty content)
               then (true, append rs EmptyDockerfile)
               else if negb (Py.contains "FROM " (Py.upper content))
                    then (true, append rs NoFromInstruction)
                    else (flag, rs)
           | None => (true, append rs ErrorReadingDockerfile)
           end
       end
  else (flag, rs).

(** One turn of the loop of [preview_cleanup]; the state is
    [preview_apps] and [total_size], and nothing on disk changes. *)
Definition preview_step (now : Z) (days : option Z) (show_empty show_invalid : bool)
    (output : Directory) (st : list app_info * Z) (item : string)
  : result (list app_info * Z) :=
  let '(apps, total_size) := st in
  match output !! item with
  | Some (Dir mod_time entries) =>
      if negb (Py.startswith "." item)
      then
        let size := get_directory_size (Dir mod_time entries) in
        '(flag, rs) ← preview_age now days mod_time false [];
        let '(flag, rs) := preview_empty show_empty entries flag rs in
        let '(flag, rs) := preview_invalid show_invalid entries flag rs in
        let total_size := if flag then total_size + size else total_size in
        Ok (append apps {| info_name := item;
                           info_last_modified := mod_time;
                           info_size_mb := size_mb size;
                           will_be_deleted := flag;
                           reasons := rs |},
            total_size)
      else Ok st
  | _ => Ok st
  end.

Fixpoint preview_loop (now : Z) (days : option Z) (show_empty show_invalid : bool)
    (output : Directory) (st : list app_info * Z) (items : list string)
  : result (list app_info * Z) :=
  match items with
  | [] => Ok st
  | item :: rest =>
      st' ← preview_step now days show_empty show_invalid output st item;
      preview_loop now days show_empty show_invalid output st' rest
  end.

(** [preview_cleanup(days, show_empty, show_invalid)] at local time [now].
    Without an output directory the response is a message with an empty
    [apps]. *)
Definition preview_cleanup (now : Z) (days : option Z) (show_empty show_invalid : bool)
    (output : option Directory) : response preview_report :=
  match output with
  | None => Returned {| preview_total_apps := 0; apps_to_delete := 0;
                        total_size_to_free_mb := 0; preview_apps := [] |}
  | Some out =>
      match preview_loop now days show_empty show_invalid out ([], 0) (listdir out) with
      | Raise _ => HTTP500
      | Ok (apps, total_size) =>
          let to_delete := filter (fun app => will_be_deleted app = true) apps in
          Returned {| preview_total_apps := length apps;
                      apps_to_delete := length to_delete;
                      total_size_to_free_mb := size_mb total_size;
                      preview_apps := apps |}
      end
  end.

(** *** [get_storage_summary] *)

Record app_summary : Type := {
  sum_name : string;
  sum_size_mb : Z;
  has_dockerfile : bool;
  is_empty : bool;
  is_invalid : bool;
  sum_last_modified : Z;
  file_count : nat
}.

Record storage_summary : Type := {
  output_directory_exists : bool;
  total_apps : nat;
  valid_apps : nat;
  empty_directories : nat;
  invalid_apps : nat;
  total_size_mb : Z;
  apps : list app_summary
}.

(** The [is_invalid] flag as [get_storage_summary] computes it. *)
Definition summary_invalid (entries : Directory) (has_dockerfile : bool) : bool :=
  if negb has_dockerfile then true
  else
    match entries !! "Dockerfile" with
    | Some dockerfile =>
        match read_text dockerfile with
        | Some text =>
            let content := Py.strip text in
            if negb (Py.nonempty content) || negb (Py.contains "FROM " (Py.upper content))
            then true else false
        | None => true
        end
    | None => true
    end.

Record summary_state : Type := {
  st_apps : list app_summary;
  st_total_size : Z;
  st_dockerfile_count : nat;
  st_empty_dirs : nat;
  st_invalid_apps : nat
}.

(** One turn of the loop of [get_storage_summary]. *)
Definition summary_step (output : Directory) (st : summary_state) (item : string)
  : summary_state :=
  match output !! item with
  | Some (Dir mod_time entries) =>
      if negb (Py.startswith "." item)
      then
        let app_size := get_directory_size (Dir mod_time entries) in
        let has_dockerfile := bool_decide (is_Some (entries !! "Dockerfile")) in
        let contents := visible_contents entries in
        let is_empty := (length contents =? 0)%nat in
        let is_invalid := summary_invalid entries has_dockerfile in
        {| st_apps := append (st_apps st)
                        {| sum_name := item;
                           sum_size_mb := size_mb app_size;
                           has_dockerfile := has_dockerfile;
                           is_empty := is_empty;
                           is_invalid := is_invalid;
                           sum_last_modified := mod_time;
                           file_count := length contents |};
           st_total_size := st_total_size st + app_size;
           st_dockerfile_count :=
             if has_dockerfile && negb is_invalid
             then S (st_dockerfile_count st) else st_dockerfile_count st;
           st_empty_dirs := if is_empty then S (st_empty_dirs st) else st_empty_dirs st;
           st_invalid_apps :=
             if is_invalid then S (st_invalid_apps st) else st_invalid_apps st |}
      else st
  | _ => st
  end.

(** [sorted(apps, key=lambda x: x["last_modified"], reverse=True)]: a
    stable sort, latest first.  The key is the ISO text of the date, which
    orders as the date does. *)
Fixpoint insert_latest_first (x : app_summary) (l : list app_summary) : list app_summary :=
  match l with
  | [] => [x]
  | y :: l' =>
      if sum_last_modified x <? sum_last_modified y
      then y :: insert_latest_first x l'
      else x :: l
  end.

Definition sort_latest_first (l : list app_summary) : list app_summary :=
  foldr insert_latest_first [] l.

Definition get_storage_summary (output : option Directory) : response storage_summary :=
  match output with
  | None =>
      Returned {| output_directory_exists := false; total_apps := 0; valid_apps := 0;
                  empty_directories := 0; invalid_apps := 0; total_size_mb := 0;
                  apps := [] |}
  | Some out =>
      let st := fold_left (summary_step out) (listdir out)
                  {| st_apps := []; st_total_size := 0; st_dockerfile_count := 0;
                     st_empty_dirs := 0; st_invalid_apps := 0 |} in
      Returned {| output_directory_exists := true;
                  total_apps := length (st_apps st);
                  valid_apps := st_dockerfile_count st;
                  empty_directories := st_empty_dirs st;
                  invalid_apps := st_invalid_apps st;
                  total_size_mb := size_mb (st_total_size st);
                  apps := sort_latest_first (st_apps st) |}
  end.

(** ** The directive order of the specification *)

Inductive directive : Type :=
| FROM | MAINTAINER | LABEL | ARG | ENV | WORKDIR | ADD | COPY | RUN | ONBUILD
| SHELL | STOPSIGNAL | USER | VOLUME | EXPOSE | HEALTHCHECK | ENTRYPOINT | CMD.

Global Instance directive_eq_dec : EqDecision directive.
Proof. solve_decision. Defined.

(** The fixed sequence of section 4.2. *)
Definition directive_order : list directive :=
  [FROM; MAINTAINER; LABEL; ARG; ENV; WORKDIR; ADD; COPY; RUN; ONBUILD;
   SHELL; STOPSIGNAL; USER; VOLUME; EXPOSE; HEALTHCHECK; ENTRYPOINT; CMD].

Definition keyword (d : directive) : string :=
  match d with
  | FROM => "FROM" | MAINTAINER => "MAINTAINER" | LABEL => "LABEL" | ARG => "ARG"
  | ENV => "ENV" | WORKDIR => "WORKDIR" | ADD => "ADD" | COPY => "COPY"
  | RUN => "RUN" | ONBUILD => "ONBUILD" | SHELL => "SHELL"
  | STOPSIGNAL => "STOPSIGNAL" | USER => "USER" | VOLUME => "VOLUME"
  | EXPOSE => "EXPOSE" | HEALTHCHECK => "HEALTHCHECK"
  | ENTRYPOINT => "ENTRYPOINT" | CMD => "CMD"
  end.

(** The directive a line of Dockerfile text carries: the one whose
    keyword, followed by a space, starts the line. *)
Definition directive_of (line : string) : option directive :=
  List.find (fun d => String.prefix (keyword d ++ " ") line) directive_order.

(** The line of an optional string field: none when the field is [None]
    or empty. *)
Definition optional_line (d : directive) (field : option string) : list string :=
  if Py.truthy field then [keyword d ++ " " ++ default "" field] else [].

Definition vector_line (d : directive) (field : option (list string)) : list string :=
  if truthy_list field then [keyword d ++ " [" ++ quoted_list (default [] field) ++ "]"] else [].

(** The shell line: none when [shell] is false, and none when it is true
    but cannot be iterated, where the compiler raises. *)
Definition shell_line (v : pyval) : list string :=
  if PyVal.truthy v
  then match PyVal.iter v with
       | Some items => ["SHELL [" ++ quoted_list (map PyVal.str items) ++ "]"]
       | None => []
       end
  else [].

(** The lines that one stage contributes for one directive. *)
Definition directive_lines (d : directive) (s : DockerfileStage) : list string :=
  match d with
  | FROM =>
      [if Py.truthy (name s)
       then "FROM " ++ base_image s ++ " AS " ++ default "" (name s)
       else "FROM " ++ base_image s]
  | MAINTAINER => optional_line MAINTAINER (maintainer s)
  | LABEL =>
      map (fun kv => "LABEL " ++ fst kv ++ "=" ++ PyVal.dquote ++ snd kv ++ PyVal.dquote)
        (label_pairs s)
  | ARG => map (fun kv => "ARG " ++ fst kv ++ "=" ++ snd kv) (args s)
  | ENV => map (fun kv => "ENV " ++ fst kv ++ "=" ++ snd kv) (env_vars s)
  | WORKDIR => optional_line WORKDIR (workdir s)
  | ADD => map AddInstruction.to_docker (add s)
  | COPY => map CopyInstruction.to_docker (copy s)
  | RUN => map (fun c => "RUN " ++ c) (run_commands s)
  | ONBUILD => optional_line ONBUILD (onbuild_cmd s)
  | SHELL => shell_line (shell s)
  | STOPSIGNAL => optional_line STOPSIGNAL (stopsignal s)
  | USER => optional_line USER (user s)
  | VOLUME =>
      map (fun v => "VOLUME [" ++ PyVal.dquote ++ v ++ PyVal.dquote ++ "]") (volume_dirs s)
  | EXPOSE => map (fun port => "EXPOSE " ++ Py.str_int port) (expose_ports s)
  | HEALTHCHECK => optional_line HEALTHCHECK (healthcheck s)
  | ENTRYPOINT => vector_line ENTRYPOINT (entrypoint s)
  | CMD => vector_line CMD (cmd s)
  end.



(** The block of one stage: its lines, directive by directive in the fixed
    order. *)
Definition stage_block (s : DockerfileStage) : list string :=
  concat (map (fun d => directive_lines d s) directive_order).


(** A stage the compiler can render: [shell] is false or can be
    iterated, as every [Optional[List[str]]] is. *)
Definition renderable (s : DockerfileStage) : bool :=
  negb (PyVal.truthy (shell s)) || bool_decide (is_Some (PyVal.iter (shell s))).





(** The lines of a block that carry directive [d]. *)
Definition count_directive (d : directive) (lines : list string) : nat :=
  length (filter (fun line => directive_of line = Some d) lines).



(** ** Map-valued cells, in the words of the specification *)

(** The tokens of a cell that contain an equals sign. *)
Definition kv_tokens (cell : string) : list string :=
  filter (fun t => Py.contains "=" t = true) (Py.split ";" cell).

(** The key of such a token: the text before its first equals sign,
    trimmed. *)
Definition token_key (t : string) : string :=
  match Py.split_first "=" t with
  | Some (k, _) => Py.strip k
  | None => ""
  end.

Definition kv_keys (cell : string) : list string := map token_key (kv_tokens cell).

(** ** Loaded configurations *)

(** All the stages of a loaded configuration. *)
Definition all_stages (app_configs : list (string * list DockerfileStage))
  : list DockerfileStage :=
  concat (map snd app_configs).

Definition stage_count (app_configs : list (string * list DockerfileStage)) : nat :=
  length (all_stages app_configs).

(** ** Dockerfile validity, in the words of the specification *)

(** A line is a FROM instruction when its first word is FROM, in any
    letter case. *)
Definition from_instruction_line (line : string) : bool :=
  match Py.split_ws line with
  | word :: _ => String.eqb (Py.upper word) "FROM"
  | [] => false
  end.

Definition has_from_instruction (text : string) : bool :=
  existsb from_instruction_line (Py.split "010" text).

(** [sub] occurs in [text] up to letter case. *)
Definition occurs_ignoring_case (sub text : string) : Prop :=
  ∃ pre w post, text = pre ++ w ++ post ∧ Py.upper w = sub.

(** ** What the clean-up endpoints name *)

(** The application directories of the output directory: the entries that
    are directories and are not hidden, in listing order. *)
Definition app_dir (output : Directory) (item : string) : option (string * Z * Directory) :=
  match output !! item with
  | Some (Dir mod_time entries) =>
      if negb (Py.startswith "." item) then Some (item, mod_time, entries) else None
  | _ => None
  end.

Definition app_dirs (output : Directory) : list (string * Z * Directory) :=
  omap (app_dir output) (listdir output).

(** The names a preview marks [will_be_deleted]. *)
Definition marked (r : response preview_report) : list string :=
  match r with
  | Returned rep => map info_name (filter (fun a => will_be_deleted a = true) (preview_apps rep))
  | HTTP500 => []
  end.

(** The names each clean-up reports as deleted. *)
Definition deleted_old_names (r : response old_report) : list string :=
  match r with
  | Returned rep => map old_name (old_deleted_apps rep)
  | HTTP500 => []
  end.

Definition deleted_empty_names (r : response (list string)) : list string :=
  match r with
  | Returned names => names
  | HTTP500 => []
  end.

Definition deleted_invalid_names (r : response (list (string * reason))) : list string :=
  match r with
  | Returned l => map fst l
  | HTTP500 => []
  end.

(** [shutil.rmtree] of each of [names]. *)
Definition remove_all (names : list string) (output : Directory) : Directory :=
  fold_left (fun out item => delete item out) names output.

(** The three criteria, as predicates on an application directory. *)
Definition older_than (cutoff_time : Z) (d : string * Z * Directory) : bool :=
  d.1.2 <? cutoff_time.

Definition empty_dir (d : string * Z * Directory) : bool :=
  (length (visible_contents d.2) =? 0)%nat.

Definition invalid_dir (d : string * Z * Directory) : bool :=
  bool_decide (is_Some (check_invalid d.2)).

(** [datetime.now() - timedelta(days=days)] *)
Definition cutoff (now days : Z) : result Z :=
  delta ← timedelta_days days; datetime_sub now delta.

(** [json.loads] on a text that is not JSON: it raises.  The examples use
    this decoder only on such texts, or on rows whose JSON cells are
    blank, where the loader does not call it. *)
Definition json_rejects : string → option pyval := fun _ => None.

(** ** Example stages *)


(** A named build stage, for a two-stage Dockerfile. *)
Definition builder_stage : DockerfileStage :=
  {| name := Some "build"; base_image := "golang:1.22"; workdir := Some "/src";
     add := []; copy := [CopyInstruction.Build (PStr ".") (PStr ".") PNone];
     run_commands := ["go build -o /out/app"];
     env_vars := [("CGO_ENABLED", "0")]; args := [("VERSION", "dev")]; expose_ports := [];
     entrypoint := None; cmd := None;
     label_pairs := []; maintainer := None; onbuild_cmd := None; shell := PNone;
     stopsignal := None; user := None; volume_dirs := []; healthcheck := None |}.

(** The final stage, copying from the build stage. *)
Definition runtime_stage : DockerfileStage :=
  {| name := None; base_image := "alpine:3.19"; workdir := None;
     add := [];
     copy := [CopyInstruction.Build (PStr "/out/app") (PStr "/usr/bin/app") (PStr "build")];
     run_commands := [];
     env_vars := []; args := []; expose_ports := [8080];
     entrypoint := Some ["/usr/bin/app"]; cmd := None;
     label_pairs := []; maintainer := None; onbuild_cmd := None;
     shell := PList [PStr "/bin/sh"; PStr "-c"];
     stopsignal := None; user := Some "nobody"; volume_dirs := ["/data"];
     healthcheck := None |}.

(** ** Auxiliary definitions for the proofs and examples *)

(** A text of white space only. *)
Fixpoint all_space (s : string) : bool :=
  match s with
  | EmptyString => true
  | String c s' => Py.is_space c && all_space s'
  end.

(** Example rows. *)
Definition good_row : Row :=
  list_to_map [("app_name", "svc1"); ("base_image", "python:3.11-slim");
               ("workdir", "/app"); ("expose_ports", "8000"); ("cmd", "python app.py")].

Definition bad_port_row : Row :=
  list_to_map [("app_name", "svc2"); ("base_image", "nginx:1.25");
               ("expose_ports", "80;http")].

Definition broken_json_row : Row :=
  list_to_map [("app_name", "svc1"); ("base_image", "alpine:3.19");
               ("add_files", "not valid json"); ("copy_pairs", "not valid json");
               ("shell", "/bin/sh -c")].

Definition env_row : Row :=
  list_to_map [("app_name", "svc1"); ("base_image", "alpine:3.19");
               ("env_vars", "DEBUG=1; PORT = 8000;;note")].

Definition duplicate_key_row : Row :=
  list_to_map [("app_name", "svc1"); ("base_image", "alpine:3.19");
               ("env_vars", "A=1; A =2;B;C=3")].



(** The shape the three clean-up loops share: an application directory
    that [sel] selects is removed from disk and reported. *)
Definition select_step {R : Type} (sel : string * Z * Directory → option R)
    (st : Directory * list R) (item : string) : Directory * list R :=
  match app_dir st.1 item with
  | Some d =>
      match sel d with
      | Some r => (delete item st.1, append st.2 r)
      | None => st
      end
  | None => st
  end.

(** The report entries of a selection, over the listing of a directory. *)
Definition selected {R : Type} (sel : string * Z * Directory → option R)
    (output : Directory) : list R :=
  omap sel (app_dirs output).

Definition selected_names {R : Type} (sel : string * Z * Directory → option R)
    (output : Directory) : list string :=
  map (fun d => d.1.1) (filter (fun d => is_Some (sel d)) (app_dirs output)).

(** The selections of the three clean-up loops. *)
Definition select_empty (d : string * Z * Directory) : option string :=
  if empty_dir d then Some d.1.1 else None.

Definition select_invalid (d : string * Z * Directory) : option (string * reason) :=
  r ← check_invalid d.2; Some (d.1.1, r).

Definition select_old (cutoff_time : Z) (d : string * Z * Directory)
  : option (deleted_old * Z) :=
  if older_than cutoff_time d
  then let size := get_directory_size (Dir d.1.2 d.2) in
       Some ({| old_name := d.1.1; old_last_modified := d.1.2; old_size_mb := size_mb size |},
             size)
  else None.

(** The sum that [total_size_freed] accumulates. *)
Definition sum_sizes (l : list Z) : Z := foldr Z.add 0 l.

(** The state of the loop of [cleanup_old_files], from the state of a
    selection that keeps the byte size next to each report entry. *)
Definition old_state (st : Directory * list (deleted_old * Z)) (base : Z)
  : Directory * list deleted_old * Z :=
  (st.1, map fst st.2, base + sum_sizes (map snd st.2)).

(** The name of an application directory, and the names of those that
    meet a criterion, in listing order. *)
Definition dir_name (d : string * Z * Directory) : string := d.1.1.

Definition names_where (p : string * Z * Directory → bool) (output : Directory) : list string :=
  map dir_name (filter (fun d => p d = true) (app_dirs output)).

(** The report entry of a directory removed for its age, and its size. *)
Definition old_entry (d : string * Z * Directory) : deleted_old :=
  {| old_name := d.1.1; old_last_modified := d.1.2;
     old_size_mb := size_mb (get_directory_size (Dir d.1.2 d.2)) |}.

Definition dir_size (d : string * Z * Directory) : Z := get_directory_size (Dir d.1.2 d.2).

(** The cutoff of a preview: none without [days]. *)
Definition preview_cutoff (now : Z) (days : option Z) : result (option Z) :=
  match days with
  | Some d => c ← cutoff now d; Ok (Some c)
  | None => Ok None
  end.

(** The criteria a preview applies to one application directory. *)
Definition criteria (c : option Z) (show_empty show_invalid : bool)
    (d : string * Z * Directory) : bool :=
  match c with Some c => older_than c d | None => false end
  || show_empty && empty_dir d
  || show_invalid && invalid_dir d.

(** The name and the deletion mark of a preview entry. *)
Definition name_flag (a : app_info) : string * bool := (info_name a, will_be_deleted a).

(** Two application directories: one whose Dockerfile has a single RUN
    instruction that mentions the word from, and one whose Dockerfile has
    a FROM instruction with a tab after the keyword. *)
Definition run_only : Directory :=
  {["Dockerfile" := File "RUN echo copied from here"]}.

Definition tab_separated : Directory :=
  {["Dockerfile" := File ("FROM" ++ String "009"%char "ubuntu:22.04")]}.

(** An output directory that holds the two, as the applications [runner]
    and [tabbed]. *)
Definition from_examples : Directory :=
  list_to_map [("runner", Dir 0 run_only); ("tabbed", Dir 0 tab_separated)].

(** The invariant of the loop of [get_storage_summary]. *)
Definition summary_consistent (st : summary_state) : Prop :=
  st_invalid_apps st = length (filter (fun a => is_invalid a = true) (st_apps st))
  ∧ st_dockerfile_count st = length (filter (fun a => is_invalid a = false) (st_apps st))
  ∧ Forall (fun a => is_invalid a = false → has_dockerfile a = true) (st_apps st).

(** An output directory at day 738000 of the calendar: an application
    last touched ten days ago, one touched three days ago whose
    Dockerfile is a zero-byte file, an empty one, a hidden directory and a
    stray file. *)
Definition now_example : Z := 738000 * microseconds_per_day.

Definition old_app : node :=
  Dir (now_example - 10 * microseconds_per_day) {["Dockerfile" := File "FROM alpine:3.19"]}.

Definition new_app : node :=
  Dir (now_example - 3 * microseconds_per_day) {["Dockerfile" := File ""]}.

Definition example_output : Directory :=
  list_to_map [("old-app", old_app); ("new-app", new_app);
               ("scratch", Dir (now_example - microseconds_per_day) ∅);
               (".cache", Dir 0 ∅); ("notes.txt", File "x")].


(** * Further code and definitions

    The rest of the embedding, for the properties that follow the
    specification's: from [app/routers/files.py] the endpoints
    [get_dockerfile], [delete_app] and [list_all_apps]; from
    [app/services/dockerfile_creation.py] the writer
    [create_dockerfiles_for_all_apps]; from [backend/app/routers/build.py]
    the listing [list_apps] and the repository name of the build and push
    endpoints; and the definitions in which their properties are
    stated. *)

(** The entry of the storage summary for one application directory. *)
Definition summary_of (d : string * Z * Directory) : app_summary :=
  let has := bool_decide (is_Some (d.2 !! "Dockerfile")) in
  {| sum_name := d.1.1;
     sum_size_mb := size_mb (get_directory_size (Dir d.1.2 d.2));
     has_dockerfile := has;
     is_empty := (length (visible_contents d.2) =? 0)%nat;
     is_invalid := summary_invalid d.2 has;
     sum_last_modified := d.1.2;
     file_count := length (visible_contents d.2) |}.

(** The order of the [apps] of a storage summary: latest first. *)
Definition latest_first (a b : app_summary) : Prop :=
  sum_last_modified b <= sum_last_modified a.

(** What a preview entry and a report entry of the clean-up by age have in
    common: name, date, rounded size. *)
Definition info_entry (a : app_info) : string * Z * Z :=
  (info_name a, info_last_modified a, info_size_mb a).

Definition old_entry_fields (e : deleted_old) : string * Z * Z :=
  (old_name e, old_last_modified e, old_size_mb e).

Definition dir_entry (d : string * Z * Directory) : string * Z * Z :=
  (dir_name d, d.1.2, size_mb (dir_size d)).

(** A text without white space. *)
Fixpoint no_space (s : string) : bool :=
  match s with
  | EmptyString => true
  | String c s' => negb (Py.is_space c) && no_space s'
  end.

(** A text that [strip] leaves as it is and that is not empty. *)
Definition trimmed (s : string) : Prop := s ≠ "" ∧ Py.strip s = s.

(** The value of a token with an equals sign: the text after the first
    one, trimmed. *)
Definition token_value (t : string) : string :=
  match Py.split_first "=" t with
  | Some (_, v) => Py.strip v
  | None => ""
  end.

(** The value that a cell gives a key: that of the last token with this
    key. *)
Definition cell_value (cell key : string) : option string :=
  token_value <$> List.find (fun t => String.eqb (token_key t) key) (rev (kv_tokens cell)).

(** The elements of a list in the order of their first occurrence;
    [seen] are those met before. *)
Fixpoint first_occurrences (seen l : list string) : list string :=
  match l with
  | [] => []
  | x :: l' =>
      if decide (x ∈ seen) then first_occurrences seen l'
      else x :: first_occurrences (x :: seen) l'
  end.

(** The stages loaded for one application, in row order. *)
Definition stages_of (app_name : string) (loaded : list (string * DockerfileStage))
  : list DockerfileStage :=
  map snd (filter (fun p => p.1 = app_name) loaded).

(** A row with blank tokens and padded words. *)
Definition padded_row : Row :=
  list_to_map [("app_name", "svc1"); ("base_image", "alpine:3.19");
               ("run_commands", " apk update ;; apk add curl ; ");
               ("volume_dirs", "/data , /logs,");
               ("entrypoint", "  /bin/sh   -c  ")].

(** Three rows of two applications, interleaved. *)
Definition interleaved_rows : list Row :=
  [list_to_map [("app_name", "web"); ("base_image", "node:20"); ("stage_name", "build")];
   list_to_map [("app_name", "api"); ("base_image", "python:3.11")];
   list_to_map [("app_name", "web"); ("base_image", "nginx:1.25")]].

(** A text of decimal digits, and the number it denotes after [acc]. *)
Fixpoint digit_string (s : string) : bool :=
  match s with
  | EmptyString => true
  | String c s' =>
      match IntFloat.digit c with
      | Some _ => digit_string s'
      | None => false
      end
  end.

Fixpoint digits_value (acc : Z) (s : string) : Z :=
  match s with
  | EmptyString => acc
  | String c s' =>
      match IntFloat.digit c with
      | Some d => digits_value (10 * acc + d) s'
      | None => acc
      end
  end.

(** The port numbers that binary64 holds exactly. *)
Definition exact_port (p : Z) : Prop := - 2 ^ 53 < p < 2 ^ 53.

(** The cell that lists [ports] in decimal, separated by semicolons. *)
Definition ports_cell (ports : list Z) : string := Py.join ";" (map Py.str_int ports).

(** A row that exposes the ports 80 and 8443. *)
Definition two_ports_row : Row :=
  list_to_map [("app_name", "web"); ("base_image", "nginx:1.25");
               ("expose_ports", ports_cell [80; 8443])].

(** ** [backend/app/routers/build.py]: the repository name

    [build_app], [push_app] and [build_all_apps] derive the name of the
    image repository from the application name by the same statements:
    [app_name.lower().replace('_', '-')], then a prefix when the name has
    fewer than two characters or starts with neither ["k8s-"] nor
    ["app-"]. *)
Definition repo_name (app_name : string) : string :=
  let repo_name := Py.replace "_" "-" (IntFloat.lower app_name) in
  if (String.length repo_name <? 2)%nat then "k8s-app-" ++ repo_name
  else if negb (Py.startswith "k8s-" repo_name || Py.startswith "app-" repo_name)
       then "k8s-" ++ repo_name
       else repo_name.

(** ** [files.py]: the endpoints on one application and the listing

    The [app_name] of a route is one component of a path: it is not empty
    and has no slash.  Two such names, [.] and [..], are not entries of
    the output directory: joined to it they denote the directory itself
    and its parent, which the state of the model does not hold.  The
    endpoints that take a name are modelled for the other names, the
    [plain_name]s, and every statement about them assumes one. *)
Definition plain_name (name : string) : bool :=
  Py.nonempty name && negb (Py.contains "/" name)
  && negb (String.eqb name ".") && negb (String.eqb name "..").

(** What the body of an endpoint's [try] raises: an [HTTPException] of its
    own, or an [OSError] of the file system. *)
Inductive raised : Type :=
| HTTPException (status_code : Z)
| OSError.

(** The clause [except Exception as e: raise HTTPException(status_code=500,
    ...)] that closes every endpoint.  [HTTPException] is an [Exception],
    so the clause catches the ones the body raises as well. *)
Definition except_exception {A : Type} (body : A + raised) : response A :=
  match body with
  | inl a => Returned a
  | inr _ => HTTP500
  end.

(** The entry at [os.path.join(OUTPUT_DIR, app_name)], if it exists, for
    an [app_name] that is a [plain_name]: the path is then that of the
    entry of this name. *)
Definition app_path (output : option Directory) (app_name : string) : option node :=
  out ← output; out !! app_name.

(** The entry at [os.path.join(OUTPUT_DIR, app_name, filename)]. *)
Definition file_path (output : option Directory) (app_name filename : string)
  : option node :=
  n ← app_path output app_name;
  match n with
  | Dir _ entries => entries !! filename
  | File _ => None
  end.

(** [get_dockerfile(app_name)]: the body of the [try], and the endpoint. *)
Definition try_get_dockerfile (output : option Directory) (app_name : string)
  : string + raised :=
  match file_path output app_name "Dockerfile" with
  | None => inr (HTTPException 404)
  | Some dockerfile =>
      match read_text dockerfile with
      | Some content => inl content
      | None => inr OSError
      end
  end.

Definition get_dockerfile (output : option Directory) (app_name : string)
  : response string :=
  except_exception (try_get_dockerfile output app_name).

(** [delete_app(app_name)] for an [app_name] that is a [plain_name]:
    [shutil.rmtree] removes the directory of that name and raises on a
    plain file. *)
Definition try_delete_app (output : option Directory) (app_name : string)
  : option Directory * (unit + raised) :=
  match app_path output app_name with
  | None => (output, inr (HTTPException 404))
  | Some (File _) => (output, inr OSError)
  | Some (Dir _ _) => (delete app_name <$> output, inl tt)
  end.

Definition delete_app (output : option Directory) (app_name : string)
  : option Directory * response unit :=
  let '(output', body) := try_delete_app output app_name in
  (output', except_exception body).

(** [s.replace(old, new)] for a non-empty [old]: the occurrences of [old]
    are replaced from left to right; [skip] counts the characters of an
    occurrence that are still to be passed over. *)
Fixpoint replace_go (old new : string) (skip : nat) (s : string) : string :=
  match s with
  | EmptyString => EmptyString
  | String c s' =>
      match skip with
      | S k => replace_go old new k s'
      | O =>
          if String.prefix old s
          then new ++ replace_go old new (String.length old - 1) s'
          else String c (replace_go old new O s')
      end
  end.

Definition str_replace (old new s : string) : string := replace_go old new 0 s.

(** The loop of [list_all_apps] over the lines of a Dockerfile; the state
    is [base_image] and [exposed_ports]. *)
Definition scan_line (st : option string * list string) (line : string)
  : option string * list string :=
  let '(base_image, exposed_ports) := st in
  let line := Py.strip line in
  if Py.startswith "FROM " line
  then (Some (str_replace "FROM " "" line), exposed_ports)
  else if Py.startswith "EXPOSE " line
       then (base_image, append exposed_ports (str_replace "EXPOSE " "" line))
       else st.

Definition scan_dockerfile (dockerfile_content : string) : option string * list string :=
  fold_left scan_line (Py.split "010" dockerfile_content) (None, []).

(** What [list_all_apps] adds to the entry of an application from its
    Dockerfile: nothing without one, [base_image] and [exposed_ports]
    when it can be read, [dockerfile_error] otherwise. *)
Inductive dockerfile_info : Type :=
| NoDockerfile
| Scanned (base_image : option string) (exposed_ports : list string)
| DockerfileError.

Record listed_app : Type := {
  listed_name : string;
  listed_has_dockerfile : bool;
  listed_path : string;
  listed_info : dockerfile_info
}.

Definition list_step (output : Directory) (apps : list listed_app) (item : string)
  : list listed_app :=
  match output !! item with
  | Some (Dir _ entries) =>
      if negb (Py.startswith "." item)
      then
        let info :=
          match entries !! "Dockerfile" with
          | None => NoDockerfile
          | Some dockerfile =>
              match read_text dockerfile with
              | Some dockerfile_content =>
                  let '(base_image, exposed_ports) := scan_dockerfile dockerfile_content in
                  Scanned base_image exposed_ports
              | None => DockerfileError
              end
          end in
        append apps {| listed_name := item;
                       listed_has_dockerfile := bool_decide (is_Some (entries !! "Dockerfile"));
                       listed_path := "output/" ++ item;
                       listed_info := info |}
      else apps
  | _ => apps
  end.

(** [list_all_apps()]: the entries and their number. *)
Definition list_all_apps (output : option Directory) : response (list listed_app * nat) :=
  match output with
  | None => Returned ([], 0%nat)
  | Some out =>
      let apps := fold_left (list_step out) (listdir out) [] in
      Returned (apps, length apps)
  end.

(** ** [build.py]: [list_apps]

    Every directory of the output directory, hidden ones included; a
    missing output directory makes [os.listdir] raise. *)
Record built_app : Type := {
  built_name : string;
  built_path : string;
  dockerfile_exists : bool
}.

Definition app_folder (output : Directory) (d : string) : option built_app :=
  match output !! d with
  | Some (Dir _ entries) =>
      Some {| built_name := d;
              built_path := "output/" ++ d;
              dockerfile_exists := bool_decide (is_Some (entries !! "Dockerfile")) |}
  | _ => None
  end.

Definition list_apps (output : option Directory) : response (list built_app * nat) :=
  match output with
  | None => HTTP500
  | Some out =>
      let apps_info := omap (app_folder out) (listdir out) in
      Returned (apps_info, length apps_info)
  end.

(** ** [create_dockerfiles_for_all_apps]

    The application names are components of a path, as [plain_name] has
    them, the clock does not advance during the call, and the texts
    written hold no carriage return, so that reading a file gives the text
    that was written. *)
Inductive create_error : Type :=
| LoadError (e : exn)
| TypeError
| FileExistsError
| IsADirectoryError.

(** [os.makedirs(folder, exist_ok=True)] and the [open(..., "w")] that
    follows: a new directory and a new file take the time [now], while
    rewriting a file leaves the time of its directory. *)
Definition write_dockerfile (now : Z) (output : option Directory)
    (app_name dockerfile_content : string) : Directory + create_error :=
  let out := default ∅ output in
  match out !! app_name with
  | None => inl (<[app_name := Dir now {["Dockerfile" := File dockerfile_content]}]> out)
  | Some (File _) => inr FileExistsError
  | Some (Dir mtime entries) =>
      match entries !! "Dockerfile" with
      | None =>
          inl (<[app_name := Dir now (<["Dockerfile" := File dockerfile_content]> entries)]> out)
      | Some (File _) =>
          inl (<[app_name := Dir mtime (<["Dockerfile" := File dockerfile_content]> entries)]> out)
      | Some (Dir _ _) => inr IsADirectoryError
      end
  end.

(** The loop over [app_configs.items()]; an exception leaves on disk
    what the earlier turns wrote. *)
Fixpoint create_loop (now : Z) (output : option Directory)
    (app_configs : list (string * list DockerfileStage))
  : option Directory * option create_error :=
  match app_configs with
  | [] => (output, None)
  | (app_name, stages) :: rest =>
      match generate_dockerfile stages with
      | None => (output, Some TypeError)
      | Some dockerfile_content =>
          match write_dockerfile now output app_name dockerfile_content with
          | inl out => create_loop now (Some out) rest
          | inr e => (output, Some e)
          end
      end
  end.

Definition create_dockerfiles_for_all_apps (json_loads : string → option pyval)
    (now : Z) (rows : list Row) (output : option Directory)
  : option Directory * option create_error :=
  match load_configs_from_excel json_loads rows with
  | Raise e => (output, Some (LoadError e))
  | Ok app_configs => create_loop now output app_configs
  end.

(** The entry of [list_all_apps] for one application directory. *)
Definition dockerfile_info_of (entries : Directory) : dockerfile_info :=
  match entries !! "Dockerfile" with
  | None => NoDockerfile
  | Some dockerfile =>
      match read_text dockerfile with
      | Some dockerfile_content =>
          Scanned (scan_dockerfile dockerfile_content).1 (scan_dockerfile dockerfile_content).2
      | None => DockerfileError
      end
  end.

Definition listed_of (d : string * Z * Directory) : listed_app :=
  {| listed_name := d.1.1;
     listed_has_dockerfile := bool_decide (is_Some (d.2 !! "Dockerfile"));
     listed_path := "output/" ++ d.1.1;
     listed_info := dockerfile_info_of d.2 |}.

(** The name and the Dockerfile flag, which the listings share. *)
Definition listed_flag (a : listed_app) : string * bool :=
  (listed_name a, listed_has_dockerfile a).

Definition summary_flag (a : app_summary) : string * bool := (sum_name a, has_dockerfile a).

Definition built_flag (a : built_app) : string * bool := (built_name a, dockerfile_exists a).

Definition dir_flag (d : string * Z * Directory) : string * bool :=
  (d.1.1, bool_decide (is_Some (d.2 !! "Dockerfile"))).





(** [json.loads] on the text [5], and on texts that are not JSON. *)
Definition json_five : string → option pyval :=
  fun s => if String.eqb s "5" then Some (PInt 5) else None.

(** A row whose shell cell decodes to a number. *)
Definition number_shell_row : Row :=
  list_to_map [("app_name", "svc2"); ("base_image", "nginx:1.25"); ("shell", "5")].

(** The text generated for an application holds no carriage return. *)
Definition read_as_written (p : string * list DockerfileStage) : Prop :=
  ∀ text, generate_dockerfile p.2 = Some text → Py.contains (String "013" "") text = false.

(** The first stage of an application has a base image that is not
    blank. *)
Definition has_base_image (p : string * list DockerfileStage) : Prop :=
  ∃ first rest, p.2 = first :: rest ∧ all_space (base_image first) = false.

(** The configuration loaded from the interleaved rows, and the output
    directory after generating its Dockerfiles at time 0 where no output
    directory existed. *)
Definition interleaved_cfg : list (string * list DockerfileStage) :=
  Eval vm_compute in
    match load_configs_from_excel json_rejects interleaved_rows with
    | Ok cfg => cfg
    | Raise _ => []
    end.

Definition interleaved_output : option Directory :=
  Eval vm_compute in
    (create_dockerfiles_for_all_apps json_rejects 0 interleaved_rows None).1.

(** Two rows, the second with a shell that is a number; what the loader
    gives for them, and the output directory when generation stops. *)
Definition failing_rows : list Row := [good_row; number_shell_row].

Definition failing_cfg : list (string * list DockerfileStage) :=
  Eval vm_compute in
    match load_configs_from_excel json_five failing_rows with
    | Ok cfg => cfg
    | Raise _ => []
    end.

Definition partial_output : option Directory :=
  Eval vm_compute in (create_dockerfiles_for_all_apps json_five 0 failing_rows None).1.

(** The instruction that the loader builds from one element of a decoded
    list, if the element is an object with the two mandatory keys. *)
Definition add_of (a : pyval) : option AddInstruction.t :=
  src ← PyVal.getitem a "src";
  dest ← PyVal.getitem a "dest";
  chown ← PyVal.get a "chown";
  Some (AddInstruction.Build src dest chown).

Definition copy_of (c : pyval) : option CopyInstruction.t :=
  src ← PyVal.getitem c "src";
  dest ← PyVal.getitem c "dest";
  from_stage ← PyVal.get c "from";
  Some (CopyInstruction.Build src dest from_stage).

(** The elements of a list up to the first one that [f] rejects. *)
Fixpoint take_while_some {A B : Type} (f : A → option B) (l : list A) : list B :=
  match l with
  | [] => []
  | x :: l' =>
      match f x with
      | Some y => y :: take_while_some f l'
      | None => []
      end
  end.

(** A preview entry is marked exactly when it has a reason. *)
Definition marked_with_reason (a : app_info) : Prop :=
  will_be_deleted a = true ↔ reasons a ≠ [].

(** The line of a map-valued directive for one key of a cell. *)
Definition key_line (keyword_ cell key : string) : string :=
  keyword_ ++ " " ++ key ++ "=" ++ default "" (cell_value cell key).

Definition label_line (cell key : string) : string :=
  "LABEL " ++ key ++ "=" ++ PyVal.dquote ++ default "" (cell_value cell key) ++ PyVal.dquote.

(** A cell that holds a JSON list of three objects, the second without
    ["dest"], the value [json.loads] gives for it, and a row with this
    cell. *)
Definition quoted (s : string) : string := PyVal.dquote ++ s ++ PyVal.dquote.

Definition three_adds_cell : string :=
  "[{" ++ quoted "src" ++ ": " ++ quoted "a" ++ ", " ++ quoted "dest" ++ ": " ++ quoted "b"
  ++ "}, {" ++ quoted "src" ++ ": " ++ quoted "c"
  ++ "}, {" ++ quoted "src" ++ ": " ++ quoted "d" ++ ", " ++ quoted "dest" ++ ": " ++ quoted "e"
  ++ "}]".

Definition three_adds : list pyval :=
  [PDict [("src", PStr "a"); ("dest", PStr "b")];
   PDict [("src", PStr "c")];
   PDict [("src", PStr "d"); ("dest", PStr "e")]].

Definition json_three_adds : string → option pyval :=
  fun s => if String.eqb s three_adds_cell then Some (PList three_adds) else None.

Definition three_adds_row : Row :=
  list_to_map [("app_name", "svc1"); ("base_image", "alpine:3.19");
               ("add_files", three_adds_cell); ("copy_pairs", three_adds_cell)].

(** Two rows that list the same ports and volumes, one with commas and
    one with semicolons. *)
Definition comma_row : Row :=
  list_to_map [("app_name", "svc1"); ("base_image", "alpine:3.19");
               ("expose_ports", "80, 443,8080"); ("volume_dirs", "/data,/logs")].

Definition semicolon_row : Row :=
  list_to_map [("app_name", "svc1"); ("base_image", "alpine:3.19");
               ("expose_ports", "80; 443;8080"); ("volume_dirs", "/data;/logs")].

(** * Theorems *)

#[local] Arguments String.append !s1 s2 : simpl nomatch.

(** ** Strings *)

Lemma prefix_empty (s : string) : String.prefix "" s = true.
Proof. by destruct s. Qed.

Lemma prefix_spec (a s : string) : String.prefix a s = true ↔ ∃ post, s = a ++ post.
Proof.
  revert s. induction a as [|c a IH]; intros s.
  - split; [by exists s | by destruct s].
  - destruct s as [|c' s]; cbn [String.prefix String.append].
    + split; [done | by intros [? ?]].
    + destruct (ascii_dec c c') as [->|Hne].
      * rewrite IH. split; intros [post H]; exists post; congruence.
      * split; [done|]. intros [post [= ? ?]]. done.
Qed.

Lemma contains_char (c x : ascii) (s : string) :
  Py.contains (String c "") (String x s)
  = (if Ascii.eqb x c then true else Py.contains (String c "") s).
Proof.
  cbn [Py.contains String.prefix].
  destruct (ascii_dec c x) as [->|Hne].
  - by rewrite prefix_empty, Ascii.eqb_refl.
  - destruct (Ascii.eqb x c) eqn:E; [|done].
    apply Ascii.eqb_eq in E. congruence.
Qed.

Lemma contains_spec (a s : string) :
  Py.contains a s = true ↔ ∃ pre post, s = pre ++ a ++ post.
Proof.
  induction s as [|c s IH].
  - cbn [Py.contains]. rewrite orb_false_r, prefix_spec. split.
    + intros [post H]. by exists "", post.
    + intros (pre & post & H). destruct pre; [by exists post|done].
  - cbn [Py.contains]. rewrite orb_true_iff, prefix_spec, IH. split.
    + intros [[post H]|(pre & post & H)].
      * by exists "", post.
      * exists (String c pre), post. cbn [String.append]. by rewrite H.
    + intros (pre & post & H). destruct pre as [|c' pre].
      * left. by exists post.
      * right. exists pre, post. cbn [String.append] in H. by injection H.
Qed.

Lemma string_app_assoc (a b c : string) : (a ++ b) ++ c = a ++ b ++ c.
Proof. induction a as [|x a IH]; cbn [String.append]; [done | by rewrite IH]. Qed.

Lemma string_app_nil_r (a : string) : a ++ "" = a.
Proof. induction a as [|x a IH]; cbn [String.append]; [done | by rewrite IH]. Qed.

(** * Properties of the compiler *)

Lemma fold_append {A B : Type} (f : A → B) (l : list A) (acc : list B) :
  fold_left (fun acc x => append acc (f x)) l acc = (acc ++ map f l)%list.
Proof.
  revert acc. induction l as [|x l IH]; intros acc; simpl.
  - by rewrite app_nil_r.
  - rewrite IH. unfold append. by rewrite <- app_assoc.
Qed.

Lemma append_if {A : Type} (b : bool) (l : list A) (x : A) :
  (if b then append l x else l) = (l ++ (if b then [x] else []))%list.
Proof. destruct b; simpl; [done | by rewrite app_nil_r]. Qed.

Lemma shell_step (lines : list string) (v : pyval) :
  negb (PyVal.truthy v) || bool_decide (is_Some (PyVal.iter v)) = true →
  (if PyVal.truthy v
   then items ← PyVal.iter v;
        Some (append lines ("SHELL [" ++ quoted_list (map PyVal.str items) ++ "]"))
   else Some lines) = Some (lines ++ shell_line v)%list.
Proof.
  unfold shell_line. destruct (PyVal.truthy v); simpl.
  - intros [items ->]%bool_decide_eq_true. reflexivity.
  - intros _. by rewrite app_nil_r.
Qed.

Lemma render_stage_block (lines : list string) (s : DockerfileStage) :
  renderable s = true →
  render_stage lines s = Some (lines ++ stage_block s ++ [""])%list.
Proof.
  intros Hr. unfold render_stage, stage_block, directive_order.
  cbn [map concat directive_lines].
  unfold optional_line, vector_line.
  rewrite shell_step by exact Hr.
  cbn [mbind option_bind].
  rewrite !fold_append, !append_if. unfold append.
  destruct (Py.truthy (name s)); rewrite <- !app_assoc; reflexivity.
Qed.

Lemma render_stages_blocks (stages : list DockerfileStage) (lines : list string) :
  Forall (fun s => renderable s = true) stages →
  render_stages lines stages
  = Some (lines ++ concat (map (fun s => stage_block s ++ [""]) stages))%list.
Proof.
  intros H. revert lines. induction H as [|s stages Hs _ IH]; intros lines; cbn [render_stages map concat].
  - by rewrite app_nil_r.
  - rewrite render_stage_block by done. cbn [mbind option_bind].
    rewrite IH. by rewrite <- !app_assoc.
Qed.

Lemma render_stages_fails (stages : list DockerfileStage) (lines : list string) :
  Exists (fun s => renderable s = false) stages → render_stages lines stages = None.
Proof.
  intros H. revert lines. induction stages as [|s stages IH]; intros lines.
  - inversion H.
  - cbn [render_stages]. destruct (renderable s) eqn:Hr.
    + rewrite render_stage_block by done. cbn [mbind option_bind].
      apply IH. inversion H; subst; [congruence | done].
    + assert (render_stage lines s = None) as ->; [|done].
      unfold render_stage, renderable in *.
      apply orb_false_iff in Hr as [Ht Hi]. apply negb_false_iff in Ht.
      rewrite Ht. apply bool_decide_eq_false in Hi.
      destruct (PyVal.iter (shell s)); [exfalso; apply Hi; eauto | done].
Qed.


Lemma directive_of_keyword (d : directive) (rest : string) :
  directive_of (keyword d ++ " " ++ rest) = Some d.
Proof. destruct d, rest; reflexivity. Qed.

Lemma directive_of_add (a : AddInstruction.t) :
  directive_of (AddInstruction.to_docker a) = Some ADD.
Proof.
  unfold AddInstruction.to_docker.
  destruct (PyVal.truthy _); [reflexivity | exact (directive_of_keyword ADD _)].
Qed.

Lemma directive_of_copy (c : CopyInstruction.t) :
  directive_of (CopyInstruction.to_docker c) = Some COPY.
Proof.
  unfold CopyInstruction.to_docker.
  destruct (PyVal.truthy _); [reflexivity | exact (directive_of_keyword COPY _)].
Qed.






(** A stage whose [shell] has its declared type, [Optional[List[str]]],
    is rendered. *)
Lemma typed_shell_renderable (s : DockerfileStage) :
  shell s = PNone ∨ (∃ items, shell s = PList items) → renderable s = true.
Proof.
  unfold renderable. intros [->|[items ->]]; [done|].
  cbn [PyVal.iter]. rewrite bool_decide_true by eauto. apply orb_true_r.
Qed.

(** The compiler raises as soon as one stage has a shell that is true and
    cannot be iterated. *)
Lemma generate_dockerfile_raises (stages : list DockerfileStage) :
  Exists (fun s => renderable s = false) stages → generate_dockerfile stages = None.
Proof. intros H. unfold generate_dockerfile. by rewrite render_stages_fails. Qed.



Lemma directive_lines_all (d : directive) (s : DockerfileStage) :
  Forall (fun line => directive_of line = Some d) (directive_lines d s).
Proof.
  destruct d; cbn [directive_lines]; unfold optional_line, vector_line, shell_line;
    try (apply Forall_map, Forall_true; intros;
         first [apply directive_of_add | apply directive_of_copy
               | match goal with |- _ = Some ?d => exact (directive_of_keyword d _) end]);
    try (match goal with |- context [if ?b then _ else _] => destruct b end;
         [|by constructor]; constructor; [|by constructor];
         match goal with |- _ = Some ?d => exact (directive_of_keyword d _) end).
  - constructor; [|constructor].
    destruct (Py.truthy (name s)); exact (directive_of_keyword FROM _).
  - destruct (PyVal.truthy (shell s)); [|constructor].
    destruct (PyVal.iter (shell s)); constructor; [reflexivity | constructor].
Qed.

(** ** Blank lines *)

Lemma join_cons (sep x : string) (l : list string) :
  l ≠ [] → Py.join sep (x :: l) = x ++ sep ++ Py.join sep l.
Proof. destruct l; [done | reflexivity]. Qed.


Lemma rstrip_app (a b : string) :
  Py.rstrip (a ++ b) = if String.eqb (Py.rstrip b) "" then Py.rstrip a else a ++ Py.rstrip b.
Proof.
  induction a as [|c a IH]; cbn [String.append Py.rstrip].
  - destruct (Py.rstrip b); reflexivity.
  - rewrite IH. destruct (Py.rstrip b) eqn:Hb; cbn [String.eqb].
    + reflexivity.
    + destruct a; reflexivity.
Qed.


Lemma rstrip_keeps_head (c : ascii) (s : string) :
  Py.is_space c = false → ∃ r, Py.rstrip (String c s) = String c r.
Proof. intros Hc. cbn [Py.rstrip]. rewrite Hc. destruct (Py.rstrip s); by eexists. Qed.













(** ** The lines of the text *)

Lemma split_no_separator (c : ascii) (s : string) :
  Py.contains (String c "") s = false → Py.split c s = [s].
Proof.
  induction s as [|x s IH]; [done|]. rewrite contains_char. cbn [Py.split].
  destruct (Ascii.eqb x c); [done|]. intros H. by rewrite IH.
Qed.

Lemma split_at_separator (c : ascii) (a b : string) :
  Py.contains (String c "") a = false →
  Py.split c (a ++ String c b) = a :: Py.split c b.
Proof.
  induction a as [|x a IH]; cbn [String.append Py.split].
  - intros _. by rewrite Ascii.eqb_refl.
  - rewrite contains_char. destruct (Ascii.eqb x c); [done|]. intros H. by rewrite IH.
Qed.










(** ** Counting the lines of a directive *)

Lemma count_directive_app (d : directive) (l1 l2 : list string) :
  count_directive d (l1 ++ l2) = (count_directive d l1 + count_directive d l2)%nat.
Proof. unfold count_directive. by rewrite filter_app, length_app. Qed.

Lemma count_directive_lines (d d' : directive) (s : DockerfileStage) :
  count_directive d (directive_lines d' s)
  = if decide (d' = d) then length (directive_lines d' s) else 0%nat.
Proof.
  unfold count_directive. pose proof (directive_lines_all d' s) as H.
  induction H as [|line l Hl _ IH]; [by case_decide|].
  rewrite filter_cons. rewrite Hl.
  destruct (decide (Some d' = Some d)) as [[= ->]|Hne].
  - cbn [length]. rewrite IH. by case_decide.
  - rewrite IH. case_decide; [congruence | done].
Qed.

Lemma count_directive_block (d : directive) (s : DockerfileStage) :
  count_directive d (stage_block s) = length (directive_lines d s).
Proof.
  unfold stage_block, directive_order. cbn [map concat].
  rewrite !count_directive_app, !count_directive_lines.
  destruct d;
    repeat match goal with
           | |- context [decide (?a = ?b)] =>
               destruct (decide (a = b)) as [?|?]; [try discriminate | try done]
           end; lia.
Qed.

(** ** Key-value cells *)

Lemma contains_split_first (c : ascii) (t : string) :
  Py.contains (String c "") t = true ↔ is_Some (Py.split_first c t).
Proof.
  induction t as [|x t IH].
  - cbn. split; [done | by intros [? ?]].
  - rewrite contains_char. cbn [Py.split_first].
    destruct (Ascii.eqb x c); [by split; eauto|].
    rewrite IH. destruct (Py.split_first c t) as [[k v]|]; split; eauto;
      by intros [? ?].
Qed.

Lemma dict_set_keys {V : Type} (d : list (string * V)) (k : string) (v : V) :
  map fst (dict_set d k v)
  = if decide (k ∈ map fst d) then map fst d else (map fst d ++ [k])%list.
Proof.
  induction d as [|[k' v'] d IH]; cbn [dict_set map fst app].
  - by rewrite decide_False by apply not_elem_of_nil.
  - destruct (String.eqb k k') eqn:E.
    + apply String.eqb_eq in E as ->. cbn [map fst].
      by rewrite decide_True by apply list_elem_of_here.
    + apply String.eqb_neq in E. cbn [map fst]. rewrite IH.
      destruct (decide (k ∈ map fst d)) as [Hin|Hnin].
      * by rewrite decide_True by (by apply list_elem_of_further).
      * rewrite decide_False; [done|]. by intros [?|?]%elem_of_cons.
Qed.

Lemma parse_fold_keys (tokens : list string) (acc : list (string * string)) :
  NoDup (map fst acc) →
  NoDup (map fst (fold_left parse_step tokens acc))
  ∧ ∀ k, k ∈ map fst (fold_left parse_step tokens acc)
         ↔ k ∈ map fst acc
           ∨ k ∈ map token_key (filter (fun t => Py.contains "=" t = true) tokens).
Proof.
  revert acc. induction tokens as [|t tokens IH]; intros acc Hnd; cbn [fold_left].
  - split; [done|]. intros k. rewrite filter_nil. cbn [map].
    split; [by left | intros [?|?%elem_of_nil]; done].
  - rewrite filter_cons.
    pose proof (contains_split_first "=" t) as Hc.
    destruct (Py.split_first "=" t) as [[k v]|] eqn:Hs.
    + assert (Hstep : parse_step acc t = dict_set acc (Py.strip k) (Py.strip v))
        by (unfold parse_step; by rewrite Hs).
      assert (Hkey : token_key t = Py.strip k) by (unfold token_key; by rewrite Hs).
      rewrite Hstep.
      rewrite decide_True by (apply Hc; eauto).
      assert (Hnd' : NoDup (map fst (dict_set acc (Py.strip k) (Py.strip v)))).
      { rewrite dict_set_keys. case_decide; [done|].
        apply NoDup_app. split; [done|]. split; [|apply NoDup_singleton].
        intros x Hx ->%list_elem_of_singleton. done. }
      destruct (IH _ Hnd') as [H1 H2]. split; [done|].
      intros x. rewrite H2. rewrite dict_set_keys. cbn [map]. rewrite Hkey.
      case_decide as Hin.
      * rewrite elem_of_cons. split; [intros [?|?]; eauto|].
        intros [?|[->|?]]; eauto.
      * rewrite elem_of_app, list_elem_of_singleton, elem_of_cons. tauto.
    + assert (Hstep : parse_step acc t = acc) by (unfold parse_step; by rewrite Hs).
      rewrite Hstep.
      rewrite decide_False; [by apply IH|].
      intros H. apply Hc in H as [? ?]. done.
Qed.

Lemma rstrip_empty (s : string) : Py.rstrip s = "" → all_space s = true.
Proof.
  induction s as [|c s IH]; [done|]. cbn [Py.rstrip all_space].
  destruct (Py.rstrip s) eqn:E; [|done].
  destruct (Py.is_space c); [|done]. intros _. by rewrite IH.
Qed.

Lemma lstrip_all_space (s : string) : all_space (Py.lstrip s) = true → all_space s = true.
Proof.
  induction s as [|c s IH]; [done|]. cbn [Py.lstrip all_space].
  destruct (Py.is_space c) eqn:E; [done|]. cbn [all_space]. by rewrite E.
Qed.

Lemma strip_empty (s : string) : Py.strip s = "" → all_space s = true.
Proof. intros H. by apply lstrip_all_space, rstrip_empty. Qed.

Lemma all_space_split (c : ascii) (s : string) :
  Py.is_space c = false → all_space s = true → Py.split c s = [s].
Proof.
  intros Hc. induction s as [|x s IH]; [done|].
  cbn [all_space Py.split]. intros [Hx Hs]%andb_true_iff.
  destruct (Ascii.eqb x c) eqn:E.
  - apply Ascii.eqb_eq in E. congruence.
  - by rewrite IH.
Qed.

Lemma all_space_contains (c : ascii) (s : string) :
  Py.is_space c = false → all_space s = true → Py.contains (String c "") s = false.
Proof.
  intros Hc. induction s as [|x s IH]; [done|].
  rewrite contains_char. cbn [all_space]. intros [Hx Hs]%andb_true_iff.
  destruct (Ascii.eqb x c) eqn:E; [|by apply IH].
  apply Ascii.eqb_eq in E. congruence.
Qed.

Lemma blank_cell_no_tokens (cell : string) : Py.strip cell = "" → kv_tokens cell = [].
Proof.
  intros H%strip_empty. unfold kv_tokens.
  rewrite all_space_split by done. rewrite filter_cons, filter_nil.
  by rewrite decide_False by (rewrite all_space_contains by done; done).
Qed.

Lemma parse_key_value_pairs_keys (cell : string) :
  NoDup (map fst (parse_key_value_pairs cell))
  ∧ ∀ k, k ∈ map fst (parse_key_value_pairs cell) ↔ k ∈ kv_keys cell.
Proof.
  unfold parse_key_value_pairs.
  destruct (negb (Py.nonempty cell) || String.eqb (Py.strip cell) "") eqn:E.
  - assert (Hb : Py.strip cell = "").
    { apply orb_true_iff in E as [E|E].
      - unfold Py.nonempty in E. apply negb_true_iff, negb_false_iff in E.
        apply String.eqb_eq in E. by subst.
      - by apply String.eqb_eq in E. }
    unfold kv_keys. rewrite blank_cell_no_tokens by done. split; [constructor | done].
  - destruct (parse_fold_keys (Py.split ";" cell) [] (NoDup_nil_2)) as [H1 H2].
    split; [exact H1|]. intros k. rewrite (H2 k). unfold kv_keys, kv_tokens. cbn [map].
    split; [intros [?%elem_of_nil|?]; done | by right].
Qed.

Lemma parse_key_value_pairs_length (cell : string) :
  length (parse_key_value_pairs cell) = length (remove_dups (kv_keys cell)).
Proof.
  destruct (parse_key_value_pairs_keys cell) as [Hnd Hin].
  rewrite <- (length_map fst).
  apply Permutation_length, NoDup_Permutation; [done | apply NoDup_remove_dups|].
  intros k. rewrite Hin. by rewrite elem_of_remove_dups.
Qed.

Lemma remove_dups_NoDup {A : Type} `{EqDecision A} (l : list A) :
  NoDup l → remove_dups l = l.
Proof.
  induction 1 as [|x l Hx _ IH]; [done|]. cbn [remove_dups].
  destruct (decide_rel elem_of x l); [done | by rewrite IH].
Qed.

(** * Properties of the loader *)

Section LoaderFacts.

Variable json_loads : string → option pyval.

Lemma load_row_unfold (row : Row) :
  load_row json_loads row
  = match row !! "app_name" with
    | None => Raise (KeyError "app_name")
    | Some app_name =>
        match load_ports row with
        | Raise e => Raise e
        | Ok ports =>
            match row !! "base_image" with
            | None => Raise (KeyError "base_image")
            | Some image =>
                Ok (app_name,
                    {| name := row !! "stage_name";
                       base_image := image;
                       workdir := row !! "workdir";
                       add := load_add json_loads row;
                       copy := load_copy json_loads row;
                       run_commands := load_run row;
                       env_vars := parse_key_value_pairs (row_get row "env_vars");
                       args := parse_key_value_pairs (row_get row "args");
                       expose_ports := ports;
                       entrypoint := load_words row "entrypoint";
                       cmd := load_words row "cmd";
                       label_pairs := parse_key_value_pairs (row_get row "label_pairs");
                       maintainer := row !! "maintainer";
                       onbuild_cmd := row !! "onbuild_cmd";
                       shell := load_shell json_loads row;
                       stopsignal := row !! "stopsignal";
                       user := row !! "user";
                       volume_dirs := load_volumes row;
                       healthcheck := row !! "healthcheck" |})
            end
        end
    end.
Proof.
  unfold load_row, row_item.
  destruct (row !! "app_name"); [|done]. cbn [mbind result_bind].
  destruct (load_ports row); [|done]. cbn [mbind result_bind].
  destruct (row !! "base_image"); done.
Qed.

Lemma load_row_ok (row : Row) :
  is_ok (load_row json_loads row)
  = bool_decide (is_Some (row !! "app_name"))
    && is_ok (load_ports row)
    && bool_decide (is_Some (row !! "base_image")).
Proof.
  rewrite load_row_unfold.
  destruct (row !! "app_name"); [|done].
  destruct (load_ports row); [|done].
  destruct (row !! "base_image"); done.
Qed.

Lemma load_row_fields (row : Row) (app_name : string) (stage : DockerfileStage) :
  load_row json_loads row = Ok (app_name, stage) →
  row !! "base_image" = Some (base_image stage)
  ∧ add stage = load_add json_loads row
  ∧ copy stage = load_copy json_loads row
  ∧ shell stage = load_shell json_loads row
  ∧ env_vars stage = parse_key_value_pairs (row_get row "env_vars")
  ∧ args stage = parse_key_value_pairs (row_get row "args")
  ∧ label_pairs stage = parse_key_value_pairs (row_get row "label_pairs").
Proof.
  rewrite load_row_unfold.
  destruct (row !! "app_name") as [app|]; [|done].
  destruct (load_ports row) as [ports|]; [|done].
  destruct (row !! "base_image") as [image|]; [|done].
  intros [= <- <-]. done.
Qed.

Lemma stage_count_add_stage (cfg : list (string * list DockerfileStage))
    (app_name : string) (s : DockerfileStage) :
  stage_count (add_stage cfg app_name s) = S (stage_count cfg).
Proof.
  unfold stage_count, all_stages, add_stage, append.
  induction cfg as [|[k v] cfg IH]; cbn [dict_set dict_get map concat snd].
  - cbn. done.
  - destruct (String.eqb app_name k).
    + cbn. rewrite !length_app. cbn [length]. lia.
    + cbn [map concat snd]. rewrite !length_app, IH. lia.
Qed.


Lemma load_rows_ok (rows : list Row) (cfg : list (string * list DockerfileStage)) :
  Forall (fun r => is_ok (load_row json_loads r) = true) rows →
  ∃ cfg', load_rows json_loads cfg rows = Ok cfg'
          ∧ stage_count cfg' = (stage_count cfg + length rows)%nat.
Proof.
  intros H. revert cfg. induction H as [|r rows Hr _ IH]; intros cfg; cbn [load_rows].
  - exists cfg. split; [done|]. cbn [length]. lia.
  - destruct (load_row json_loads r) as [[app_name stage]|] eqn:E; [|done].
    cbn [mbind result_bind].
    destruct (IH (add_stage cfg app_name stage)) as (cfg' & H1 & H2).
    exists cfg'. split; [done|]. rewrite H2, stage_count_add_stage. cbn [length]. lia.
Qed.

Lemma load_rows_raises (rows : list Row) (cfg : list (string * list DockerfileStage)) :
  Exists (fun r => is_ok (load_row json_loads r) = false) rows →
  ∃ e, load_rows json_loads cfg rows = Raise e.
Proof.
  intros H. revert cfg. induction rows as [|r rows IH]; intros cfg; [inversion H|].
  cbn [load_rows].
  destruct (load_row json_loads r) as [[app_name stage]|e] eqn:E.
  - cbn [mbind result_bind]. apply IH. inversion H; subst; [|done].
    rewrite E in *. done.
  - by exists e.
Qed.


End LoaderFacts.

Lemma split_ws_go_nil (cur s : string) :
  Py.split_ws_go cur s = [] → cur = "" ∧ all_space s = true.
Proof.
  revert cur. induction s as [|c s IH]; intros cur; cbn [Py.split_ws_go all_space].
  - destruct (String.eqb cur "") eqn:E; [|done]. by apply String.eqb_eq in E.
  - destruct (Py.is_space c).
    + destruct (String.eqb cur "") eqn:E; [|done].
      apply String.eqb_eq in E. intros H. by apply IH in H as [_ ->].
    + intros H. apply IH in H as [H _]. by destruct cur.
Qed.

Lemma all_space_strip (s : string) : all_space s = true → Py.strip s = "".
Proof.
  unfold Py.strip. induction s as [|c s IH]; [done|].
  cbn [all_space Py.lstrip]. intros [-> Hs]%andb_true_iff. by apply IH.
Qed.

Lemma filled_split_ws (row : Row) (key : string) :
  filled row key = true → Py.split_ws (row_get row key) ≠ [].
Proof.
  unfold filled. intros H Hnil.
  apply split_ws_go_nil in Hnil as [_ Hs]. apply all_space_strip in Hs.
  rewrite Hs in H. done.
Qed.

(** C2, as amended.  Loading is all or nothing.  A row fails exactly when
    it has no [app_name] column, or a port token that does not convert, or
    no [base_image] column; JSON cells never make it fail.  When every row
    loads, a batch of N rows yields N stages; when some row fails, the
    whole load raises and yields no stage at all. *)
Theorem load_all_or_nothing (json_loads : string → option pyval) (rows : list Row) :
  (∀ row, is_ok (load_row json_loads row)
          = bool_decide (is_Some (row !! "app_name"))
            && is_ok (load_ports row)
            && bool_decide (is_Some (row !! "base_image")))
  ∧ (Forall (fun row => is_ok (load_row json_loads row) = true) rows →
     ∃ cfg, load_configs_from_excel json_loads rows = Ok cfg
            ∧ stage_count cfg = length rows)
  ∧ (Exists (fun row => is_ok (load_row json_loads row) = false) rows →
     ∃ e, load_configs_from_excel json_loads rows = Raise e).
Proof.
  split; [apply load_row_ok|]. split.
  - intros H. destruct (load_rows_ok json_loads rows [] H) as (cfg & H1 & H2).
    by exists cfg.
  - apply load_rows_raises.
Qed.

(** Two good rows load as two stages; a good row and a row with the port
    token [http] load as nothing. *)
Lemma load_all_or_nothing_witness :
  (∃ cfg, load_configs_from_excel json_rejects [good_row; good_row] = Ok cfg
          ∧ stage_count cfg = 2%nat)
  ∧ (∃ e, load_configs_from_excel json_rejects [good_row; bad_port_row] = Raise e).
Proof.
  destruct (load_all_or_nothing json_rejects [good_row; good_row]) as (_ & H & _).
  destruct (load_all_or_nothing json_rejects [good_row; bad_port_row]) as (_ & _ & H').
  split.
  - apply H. repeat constructor.
  - apply H'. apply Exists_cons_tl, Exists_cons_hd. reflexivity.
Defined.

(** Counterexample to C2 as stated: one row with a non-numeric port token
    after one valid row makes the load raise [ValueError], so the batch
    yields no stage instead of one. *)
Lemma one_bad_port_aborts_the_batch :
  is_ok (load_row json_rejects good_row) = true
  ∧ load_ports bad_port_row = Raise ValueError
  ∧ load_configs_from_excel json_rejects [good_row; bad_port_row] = Raise ValueError
  ∧ ¬ (∃ cfg, load_configs_from_excel json_rejects [good_row; bad_port_row] = Ok cfg
              ∧ stage_count cfg = 1%nat).
Proof.
  assert (H : load_configs_from_excel json_rejects [good_row; bad_port_row] = Raise ValueError)
    by (vm_compute; reflexivity).
  repeat split; try (vm_compute; reflexivity).
  intros (cfg & Hcfg & _). rewrite H in Hcfg. discriminate.
Qed.

(** C3, as amended.  Whether a row loads does not depend on what
    [json.loads] does.  When the text of [add_files] or of [copy_pairs]
    does not decode, the stage has no Add, respectively no Copy,
    instruction.  When the text of [shell] does not decode, the stage's
    shell is the list of the whitespace-separated words of the cell, which
    is not empty, so a SHELL directive is rendered. *)
Theorem json_decode_failure_fallback (json_loads : string → option pyval) (row : Row) :
  (∀ other_loads, is_ok (load_row other_loads row) = is_ok (load_row json_loads row))
  ∧ ∀ app_name stage,
      load_row json_loads row = Ok (app_name, stage) →
      (filled row "add_files" = true → json_loads (row_get row "add_files") = None →
       add stage = [] ∧ directive_lines ADD stage = [])
      ∧ (filled row "copy_pairs" = true → json_loads (row_get row "copy_pairs") = None →
         copy stage = [] ∧ directive_lines COPY stage = [])
      ∧ (filled row "shell" = true → json_loads (row_get row "shell") = None →
         shell stage = PList (map PStr (Py.split_ws (row_get row "shell")))
         ∧ PyVal.truthy (shell stage) = true).
Proof.
  split; [intros other; by rewrite !load_row_ok|].
  intros app_name stage Hload.
  destruct (load_row_fields json_loads row app_name stage Hload)
    as (_ & Hadd & Hcopy & Hshell & _).
  cbn [directive_lines]. rewrite Hadd, Hcopy, Hshell.
  unfold load_add, load_copy, load_shell.
  split; [|split]; intros Hfilled Hfail; rewrite Hfilled, Hfail; [done | done |].
  split; [done|]. cbn [PyVal.truthy].
  pose proof (filled_split_ws row "shell" Hfilled) as Hne.
  by destruct (Py.split_ws (row_get row "shell")).
Qed.

(** A row whose three JSON cells are not JSON. *)
Lemma json_decode_failure_fallback_witness :
  ∃ stage,
    load_row json_rejects broken_json_row = Ok ("svc1", stage)
    ∧ add stage = [] ∧ copy stage = []
    ∧ shell stage = PList [PStr "/bin/sh"; PStr "-c"].
Proof.
  destruct (load_row json_rejects broken_json_row) as [[app_name stage]|] eqn:E;
    [|discriminate].
  destruct (json_decode_failure_fallback json_rejects broken_json_row) as [_ H].
  destruct (H app_name stage E) as (Ha & Hc & Hs).
  exists stage. split.
  - f_equal. f_equal. pose proof E as E'. vm_compute in E'. by injection E' as <- _.
  - split; [apply Ha; reflexivity|]. split; [apply Hc; reflexivity|].
    apply Hs; reflexivity.
Defined.

(** Counterexample to C3 as stated: the shell cell [/bin/sh -c] is not
    JSON, and the stage's shell is the two-word list, not null. *)
Lemma shell_decode_failure_is_not_null :
  ∃ stage,
    load_row json_rejects broken_json_row = Ok ("svc1", stage)
    ∧ filled broken_json_row "shell" = true
    ∧ json_rejects (row_get broken_json_row "shell") = None
    ∧ shell stage = PList [PStr "/bin/sh"; PStr "-c"]
    ∧ shell stage ≠ PNone
    ∧ directive_lines SHELL stage = ["SHELL [" ++ PyVal.dquote ++ "/bin/sh" ++ PyVal.dquote
                                      ++ "," ++ PyVal.dquote ++ "-c" ++ PyVal.dquote ++ "]"].
Proof.
  eexists. split; [vm_compute; reflexivity|].
  repeat split; try (vm_compute; reflexivity). discriminate.
Qed.

(** C4, as amended.  For a loaded row and each of the fields [env_vars],
    [args] and [label_pairs], the number of ENV, ARG or LABEL lines in the
    stage's block equals the number of distinct trimmed keys among the
    tokens of the cell that contain an equals sign; it equals the number
    of such tokens when their keys are pairwise distinct. *)
Theorem map_field_directive_count (json_loads : string → option pyval) (row : Row)
    (app_name : string) (stage : DockerfileStage) :
  load_row json_loads row = Ok (app_name, stage) →
  ∀ d key, In (d, key) [(ENV, "env_vars"); (ARG, "args"); (LABEL, "label_pairs")] →
    count_directive d (stage_block stage) = length (remove_dups (kv_keys (row_get row key)))
    ∧ (NoDup (kv_keys (row_get row key)) →
       count_directive d (stage_block stage) = length (kv_tokens (row_get row key))).
Proof.
  intros Hload d key Hin.
  destruct (load_row_fields json_loads row app_name stage Hload)
    as (_ & _ & _ & _ & Henv & Hargs & Hlabels).
  assert (Hcount : count_directive d (stage_block stage)
                   = length (remove_dups (kv_keys (row_get row key)))).
  { rewrite count_directive_block.
    destruct Hin as [[= <- <-]|[[= <- <-]|[[= <- <-]|[]]]];
      cbn [directive_lines]; rewrite length_map;
      rewrite ?Henv, ?Hargs, ?Hlabels; apply parse_key_value_pairs_length. }
  split; [exact Hcount|].
  intros Hnd. rewrite Hcount, remove_dups_NoDup by done.
  unfold kv_keys. by rewrite length_map.
Qed.

(** A cell with two distinct keys, an empty token and a token without an
    equals sign. *)
Lemma map_field_directive_count_witness :
  ∃ stage,
    load_row json_rejects env_row = Ok ("svc1", stage)
    ∧ directive_lines ENV stage = ["ENV DEBUG=1"; "ENV PORT=8000"]
    ∧ count_directive ENV (stage_block stage)
      = length (remove_dups (kv_keys (row_get env_row "env_vars")))
    ∧ count_directive ENV (stage_block stage)
      = length (kv_tokens (row_get env_row "env_vars")).
Proof.
  destruct (load_row json_rejects env_row) as [[app_name stage]|] eqn:E; [|discriminate].
  pose proof (map_field_directive_count json_rejects env_row app_name stage E
                ENV "env_vars" (or_introl eq_refl)) as [H1 H2].
  pose proof E as E'. vm_compute in E'. injection E' as <- <-.
  eexists. split; [reflexivity|]. split; [vm_compute; reflexivity|].
  split; [exact H1|]. apply H2. vm_compute.
  apply NoDup_cons. split; [by intros [=]%list_elem_of_singleton|]. apply NoDup_singleton.
Defined.

(** Counterexample to C4 as stated: three tokens contain an equals sign,
    two of them with the key [A], and two ENV lines are rendered. *)
Lemma duplicate_keys_render_once :
  ∃ stage,
    load_row json_rejects duplicate_key_row = Ok ("svc1", stage)
    ∧ kv_tokens (row_get duplicate_key_row "env_vars") = ["A=1"; " A =2"; "C=3"]
    ∧ directive_lines ENV stage = ["ENV A=2"; "ENV C=3"]
    ∧ count_directive ENV (stage_block stage) = 2%nat
    ∧ count_directive ENV (stage_block stage)
      ≠ length (kv_tokens (row_get duplicate_key_row "env_vars")).
Proof.
  eexists. split; [vm_compute; reflexivity|].
  repeat split; try (vm_compute; reflexivity).
  vm_compute. discriminate.
Qed.




(** * Properties of the clean-up endpoints *)

Lemma app_dir_lookup (out out' : Directory) (item : string) :
  out !! item = out' !! item → app_dir out item = app_dir out' item.
Proof. unfold app_dir. by intros ->. Qed.

Lemma app_dir_name (out : Directory) (item : string) (d : string * Z * Directory) :
  app_dir out item = Some d → d.1.1 = item.
Proof.
  unfold app_dir. destruct (out !! item) as [[|t es]|]; try done.
  destruct (negb _); [|done]. by intros [= <-].
Qed.

Lemma omap_cons_Some {A B : Type} (f : A → option B) (x : A) (l : list A) (y : B) :
  f x = Some y → omap f (x :: l) = y :: omap f l.
Proof. intros H. cbn. by rewrite H. Qed.

Lemma omap_cons_None {A B : Type} (f : A → option B) (x : A) (l : list A) :
  f x = None → omap f (x :: l) = omap f l.
Proof. intros H. cbn. by rewrite H. Qed.

Lemma select_loop {R : Type} (sel : string * Z * Directory → option R)
    (out0 : Directory) (items : list string) (out : Directory) (acc : list R) :
  NoDup items →
  (∀ item, item ∈ items → out !! item = out0 !! item) →
  fold_left (select_step sel) items (out, acc)
  = (remove_all
       (map (fun d => d.1.1) (filter (fun d => is_Some (sel d)) (omap (app_dir out0) items)))
       out,
     acc ++ omap sel (omap (app_dir out0) items))%list.
Proof.
  intros Hnd. revert out acc. induction Hnd as [|item items Hnotin Hnd IH]; intros out acc Hout.
  - cbn. by rewrite app_nil_r.
  - cbn [fold_left]. unfold select_step at 2. cbn [fst snd].
    rewrite (app_dir_lookup out out0 item) by (apply Hout; left).
    destruct (app_dir out0 item) as [d|] eqn:Hd.
    + rewrite (omap_cons_Some _ _ _ _ Hd).
      destruct (sel d) as [r|] eqn:Hr.
      * rewrite IH.
        -- rewrite filter_cons, decide_True by (rewrite Hr; eauto).
           rewrite (omap_cons_Some _ _ _ _ Hr).
           cbn [map remove_all fold_left]. rewrite (app_dir_name _ _ _ Hd).
           unfold append. by rewrite <- app_assoc.
        -- intros k Hk. rewrite lookup_delete_ne by (intros ->; done).
           apply Hout. by right.
      * rewrite IH by (intros k Hk; apply Hout; by right).
        rewrite filter_cons, decide_False by (rewrite Hr; by intros [? ?]).
        by rewrite (omap_cons_None _ _ _ Hr).
    + rewrite (omap_cons_None _ _ _ Hd).
      apply IH. intros k Hk. apply Hout. by right.
Qed.

Lemma listdir_NoDup (out : Directory) : NoDup (listdir out).
Proof. apply NoDup_fst_map_to_list. Qed.

Lemma select_fold {R : Type} (sel : string * Z * Directory → option R) (out : Directory) :
  fold_left (select_step sel) (listdir out) (out, [])
  = (remove_all (selected_names sel out) out, selected sel out).
Proof. rewrite (select_loop sel out) by (apply listdir_NoDup || done). done. Qed.

(** ** The three clean-up loops as selections *)

Lemma cleanup_empty_step_select (st : Directory * list string) (item : string) :
  cleanup_empty_step st item = select_step select_empty st item.
Proof.
  destruct st as [out acc]. unfold cleanup_empty_step, select_step, app_dir, select_empty, empty_dir.
  cbn [fst snd]. destruct (out !! item) as [[|t es]|]; try done.
  destruct (negb (Py.startswith "." item)); [|done]. cbn [fst snd].
  by destruct (length (visible_contents es) =? 0)%nat.
Qed.

Lemma cleanup_invalid_step_select (st : Directory * list (string * reason)) (item : string) :
  cleanup_invalid_step st item = select_step select_invalid st item.
Proof.
  destruct st as [out acc]. unfold cleanup_invalid_step, select_step, app_dir, select_invalid.
  cbn [fst snd]. destruct (out !! item) as [[|t es]|]; try done.
  destruct (negb (Py.startswith "." item)); [|done]. cbn [fst snd].
  by destruct (check_invalid es).
Qed.

Lemma sum_sizes_app (l1 l2 : list Z) : sum_sizes (l1 ++ l2) = sum_sizes l1 + sum_sizes l2.
Proof. unfold sum_sizes. induction l1 as [|x l1 IH]; cbn [app foldr]; lia. Qed.

Lemma cleanup_old_step_select (c : Z) (st : Directory * list (deleted_old * Z))
    (base : Z) (item : string) :
  cleanup_old_step c (old_state st base) item = old_state (select_step (select_old c) st item) base.
Proof.
  destruct st as [out acc].
  unfold cleanup_old_step, old_state, select_step, app_dir, select_old, older_than.
  cbn [fst snd]. destruct (out !! item) as [[|t es]|]; try done.
  destruct (negb (Py.startswith "." item)); [|done]. cbn [fst snd].
  destruct (t <? c); [|done]. cbn [fst snd]. unfold append.
  rewrite !map_app, sum_sizes_app. cbn [map fst snd sum_sizes foldr]. f_equal. lia.
Qed.

Lemma fold_left_ext {A B : Type} (f g : A → B → A) (l : list B) (a : A) :
  (∀ a b, f a b = g a b) → fold_left f l a = fold_left g l a.
Proof. intros H. revert a. induction l as [|b l IH]; intros a; cbn; [done|]. by rewrite H, IH. Qed.

Lemma cleanup_old_fold (c : Z) (items : list string) (st : Directory * list (deleted_old * Z))
    (base : Z) :
  fold_left (cleanup_old_step c) items (old_state st base)
  = old_state (fold_left (select_step (select_old c)) items st) base.
Proof.
  revert st. induction items as [|item items IH]; intros st; cbn [fold_left]; [done|].
  by rewrite cleanup_old_step_select, IH.
Qed.

Lemma omap_if_filter {A B : Type} (p : A → bool) (f : A → B) (l : list A) :
  omap (fun x => if p x then Some (f x) else None) l = map f (filter (fun x => p x = true) l).
Proof.
  induction l as [|x l IH]; [done|]. rewrite filter_cons.
  destruct (p x) eqn:E.
  - rewrite (omap_cons_Some _ _ _ (f x)) by (by rewrite E).
    rewrite decide_True by done. cbn [map]. by rewrite IH.
  - rewrite omap_cons_None by (by rewrite E). by rewrite decide_False.
Qed.

Lemma filter_is_Some_if {A B : Type} (p : A → bool) (f : A → B) (l : list A) :
  filter (fun x => is_Some (if p x then Some (f x) else None)) l
  = filter (fun x => p x = true) l.
Proof.
  apply list_filter_iff. intros x. destruct (p x); split; try done; try (by eauto).
Qed.

Lemma cleanup_empty_directories_closed (out : Directory) :
  cleanup_empty_directories (Some out)
  = (Some (remove_all (names_where empty_dir out) out), Returned (names_where empty_dir out)).
Proof.
  unfold cleanup_empty_directories.
  rewrite (fold_left_ext _ _ _ _ cleanup_empty_step_select), select_fold.
  unfold selected_names, selected, select_empty, names_where.
  by rewrite filter_is_Some_if, omap_if_filter.
Qed.

Lemma select_invalid_Some (d : string * Z * Directory) :
  is_Some (select_invalid d) ↔ invalid_dir d = true.
Proof.
  unfold select_invalid, invalid_dir. rewrite bool_decide_eq_true.
  destruct (check_invalid d.2); cbn; split; try done; try (by eauto); by intros [? ?].
Qed.

Lemma map_fst_select_invalid (l : list (string * Z * Directory)) :
  map fst (omap select_invalid l) = map dir_name (filter (fun d => invalid_dir d = true) l).
Proof.
  induction l as [|d l IH]; [done|]. rewrite filter_cons.
  pose proof (select_invalid_Some d) as Hs.
  destruct (select_invalid d) as [[n r]|] eqn:E.
  - rewrite (omap_cons_Some _ _ _ _ E), decide_True by (apply Hs; eauto).
    cbn [map fst]. rewrite IH. f_equal.
    unfold select_invalid in E. destruct (check_invalid d.2); [|done]. by injection E as <- _.
  - rewrite (omap_cons_None _ _ _ E), decide_False; [done|].
    intros H. apply Hs in H as [? ?]. done.
Qed.

Lemma cleanup_invalid_apps_closed (out : Directory) :
  cleanup_invalid_apps (Some out)
  = (Some (remove_all (names_where invalid_dir out) out),
     Returned (omap select_invalid (app_dirs out))).
Proof.
  unfold cleanup_invalid_apps.
  rewrite (fold_left_ext _ _ _ _ cleanup_invalid_step_select), select_fold.
  unfold selected_names, selected, names_where.
  rewrite (list_filter_iff _ (fun d => invalid_dir d = true)); [done|].
  intros d. apply select_invalid_Some.
Qed.

Lemma cleanup_old_files_closed (now days : Z) (out : Directory) :
  cleanup_old_files now days (Some out)
  = match cutoff now days with
    | Ok c =>
        let old := filter (fun d => older_than c d = true) (app_dirs out) in
        (Some (remove_all (map dir_name old) out),
         Returned {| old_deleted_apps := map old_entry old;
                     old_total_size_freed_mb := size_mb (sum_sizes (map dir_size old)) |})
    | Raise _ => (Some out, HTTP500)
    end.
Proof.
  unfold cleanup_old_files, cutoff.
  destruct (delta ← timedelta_days days; datetime_sub now delta) as [c|e]; [|done].
  change (out, [], 0) with (old_state (out, []) 0).
  rewrite cleanup_old_fold, select_fold.
  unfold old_state, selected_names, selected, select_old. cbn [fst snd].
  rewrite filter_is_Some_if, omap_if_filter, !map_map. cbn [fst snd].
  rewrite Z.add_0_l. reflexivity.
Qed.

(** ** The preview *)

Lemma preview_age_closed (now : Z) (days : option Z) (t : Z) :
  ∃ rs, preview_age now days t false []
        = match preview_cutoff now days with
          | Ok c => Ok (match c with Some c => t <? c | None => false end, rs c)
          | Raise e => Raise e
          end.
Proof.
  exists (fun c => match c, days with
                   | Some c, Some d => if t <? c then [OlderThan d] else []
                   | _, _ => []
                   end).
  unfold preview_age, preview_cutoff, cutoff. destruct days as [d|]; [|done].
  destruct (timedelta_days d) as [delta|]; [|done]. cbn [mbind result_bind].
  destruct (datetime_sub now delta) as [c|]; [|done]. cbn [mbind result_bind].
  by destruct (t <? c).
Qed.

Lemma preview_empty_flag (show_empty : bool) (d : string * Z * Directory)
    (flag : bool) (rs : list reason) :
  (preview_empty show_empty d.2 flag rs).1 = flag || show_empty && empty_dir d.
Proof.
  unfold preview_empty, empty_dir. destruct show_empty; [|by rewrite orb_false_r].
  destruct (length (visible_contents d.2) =? 0)%nat; cbn.
  - by rewrite orb_true_r.
  - by rewrite orb_false_r.
Qed.

Lemma preview_invalid_flag (show_invalid : bool) (d : string * Z * Directory)
    (flag : bool) (rs : list reason) :
  (preview_invalid show_invalid d.2 flag rs).1 = flag || show_invalid && invalid_dir d.
Proof.
  unfold preview_invalid, invalid_dir, check_invalid.
  destruct show_invalid; [|by rewrite orb_false_r]. cbn [andb].
  destruct (d.2 !! "Dockerfile") as [dockerfile|]; [|by rewrite orb_true_r].
  destruct (read_text dockerfile) as [text|]; [|by rewrite orb_true_r].
  destruct (negb (Py.nonempty (Py.strip text))); [by rewrite orb_true_r|].
  destruct (negb (Py.contains "FROM " (Py.upper (Py.strip text)))).
  - by rewrite orb_true_r.
  - cbn. by rewrite orb_false_r.
Qed.

Lemma preview_step_closed (now : Z) (days : option Z) (show_empty show_invalid : bool)
    (out : Directory) (apps : list app_info) (total : Z) (item : string) :
  match app_dir out item with
  | None => preview_step now days show_empty show_invalid out (apps, total) item
            = Ok (apps, total)
  | Some d =>
      match preview_cutoff now days with
      | Ok c =>
          ∃ a total',
            preview_step now days show_empty show_invalid out (apps, total) item
            = Ok (append apps a, total')
            ∧ name_flag a = (d.1.1, criteria c show_empty show_invalid d)
      | Raise e =>
          preview_step now days show_empty show_invalid out (apps, total) item = Raise e
      end
  end.
Proof.
  unfold preview_step, app_dir.
  destruct (out !! item) as [[|t es]|]; try done.
  destruct (negb (Py.startswith "." item)); [|done].
  destruct (preview_age_closed now days t) as [rs ->].
  destruct (preview_cutoff now days) as [c|e]; [|done]. cbn [mbind result_bind].
  pose proof (preview_empty_flag show_empty (item, t, es)
                (match c with Some c0 => t <? c0 | None => false end) (rs c)) as He.
  cbn [snd] in He.
  destruct (preview_empty show_empty es _ (rs c)) as [flag1 rs1]. cbn [fst] in He.
  pose proof (preview_invalid_flag show_invalid (item, t, es) flag1 rs1) as Hi.
  cbn [snd] in Hi.
  destruct (preview_invalid show_invalid es flag1 rs1) as [flag2 rs2]. cbn [fst] in Hi.
  eexists _, _. split; [reflexivity|].
  unfold name_flag, criteria, older_than. cbn [info_name will_be_deleted fst snd].
  by rewrite Hi, He.
Qed.

Lemma preview_loop_closed (now : Z) (days : option Z) (show_empty show_invalid : bool)
    (out : Directory) (items : list string) (apps : list app_info) (total : Z) :
  match preview_cutoff now days with
  | Ok c =>
      ∃ apps' total',
        preview_loop now days show_empty show_invalid out (apps, total) items
        = Ok (apps', total')
        ∧ map name_flag apps'
          = (map name_flag apps
             ++ map (fun d => (dir_name d, criteria c show_empty show_invalid d))
                  (omap (app_dir out) items))%list
  | Raise e =>
      match omap (app_dir out) items with
      | [] => preview_loop now days show_empty show_invalid out (apps, total) items
              = Ok (apps, total)
      | _ :: _ => preview_loop now days show_empty show_invalid out (apps, total) items
                  = Raise e
      end
  end.
Proof.
  revert apps total. induction items as [|item items IH]; intros apps total.
  - destruct (preview_cutoff now days); [|done].
    exists apps, total. cbn. by rewrite app_nil_r.
  - pose proof (preview_step_closed now days show_empty show_invalid out apps total item) as Hs.
    cbn [preview_loop].
    destruct (app_dir out item) as [d|] eqn:Hd.
    + rewrite (omap_cons_Some _ _ _ _ Hd).
      destruct (preview_cutoff now days) as [c|e] eqn:Hc.
      * destruct Hs as (a & total' & -> & Ha). cbn [mbind result_bind].
        specialize (IH (append apps a) total'). rewrite ?Hc in IH.
        destruct IH as (apps' & total'' & -> & Hflags).
        exists apps', total''. split; [done|].
        rewrite Hflags. unfold append. rewrite map_app. cbn [map].
        rewrite Ha. by rewrite <- app_assoc.
      * by rewrite Hs.
    + rewrite (omap_cons_None _ _ _ Hd), Hs. cbn [mbind result_bind]. apply IH.
Qed.

Lemma marked_flags (l : list app_info) (ds : list (string * Z * Directory))
    (p : string * Z * Directory → bool) :
  map name_flag l = map (fun d => (dir_name d, p d)) ds →
  map info_name (filter (fun a => will_be_deleted a = true) l)
  = map dir_name (filter (fun d => p d = true) ds).
Proof.
  revert ds. induction l as [|a l IH]; intros [|d ds]; try done.
  cbn [map]. intros [= Hn Hf Hl]. rewrite !filter_cons, Hf.
  destruct (p d).
  - rewrite !decide_True by done. cbn [map]. by rewrite Hn, (IH ds Hl).
  - rewrite !decide_False by done. by apply IH.
Qed.

Lemma marked_closed (now : Z) (days : option Z) (show_empty show_invalid : bool)
    (out : Directory) :
  marked (preview_cleanup now days show_empty show_invalid (Some out))
  = match preview_cutoff now days with
    | Ok c => names_where (criteria c show_empty show_invalid) out
    | Raise _ => []
    end.
Proof.
  unfold preview_cleanup.
  pose proof (preview_loop_closed now days show_empty show_invalid out (listdir out) [] 0) as H.
  fold (app_dirs out) in H.
  destruct (preview_cutoff now days) as [c|e].
  - destruct H as (apps' & total' & -> & Hflags). cbn [marked preview_apps].
    by apply marked_flags.
  - destruct (app_dirs out); rewrite H; done.
Qed.

Lemma names_where_ext (p q : string * Z * Directory → bool) (out : Directory) :
  (∀ d, p d = q d) → names_where p out = names_where q out.
Proof.
  intros H. unfold names_where. f_equal. apply list_filter_iff. intros d. by rewrite H.
Qed.

Lemma remove_all_lookup (names : list string) (out : Directory) (item : string) :
  remove_all names out !! item = if decide (item ∈ names) then None else out !! item.
Proof.
  revert out. induction names as [|n names IH]; intros out; cbn [remove_all fold_left].
  - by rewrite decide_False by apply not_elem_of_nil.
  - fold (remove_all names (delete n out)). rewrite IH.
    destruct (decide (item ∈ names)) as [Hin|Hnin].
    + by rewrite decide_True by (by right).
    + destruct (decide (item = n)) as [->|Hne].
      * rewrite decide_True by (by left). apply lookup_delete_eq.
      * rewrite decide_False by (by intros [?|?]%elem_of_cons).
        by apply lookup_delete_ne.
Qed.

Lemma elem_of_app_dirs (out : Directory) (d : string * Z * Directory) :
  d ∈ app_dirs out ↔ app_dir out (dir_name d) = Some d.
Proof.
  unfold app_dirs. rewrite list_elem_of_omap. split.
  - intros (item & _ & H). unfold dir_name. by rewrite (app_dir_name _ _ _ H).
  - intros H. exists (dir_name d). split; [|done].
    unfold listdir. apply list_elem_of_fmap.
    unfold app_dir in H. destruct (out !! dir_name d) as [n|] eqn:E; [|done].
    exists (dir_name d, n). split; [done|]. by apply elem_of_map_to_list.
Qed.

Lemma elem_of_names_where (p : string * Z * Directory → bool) (out : Directory)
    (item : string) :
  item ∈ names_where p out ↔ ∃ d, app_dir out item = Some d ∧ p d = true.
Proof.
  unfold names_where. rewrite list_elem_of_fmap. split.
  - intros (d & -> & [Hp Hd]%list_elem_of_filter). exists d. split; [|done].
    by apply elem_of_app_dirs.
  - intros (d & Hd & Hp). exists d. pose proof (app_dir_name _ _ _ Hd) as Hn.
    split; [done|]. apply list_elem_of_filter. split; [done|].
    apply elem_of_app_dirs. unfold dir_name. by rewrite Hn.
Qed.

Lemma remove_where_lookup (p : string * Z * Directory → bool) (out : Directory)
    (item : string) :
  remove_all (names_where p out) out !! item
  = match app_dir out item with
    | Some d => if p d then None else out !! item
    | None => out !! item
    end.
Proof.
  rewrite remove_all_lookup. pose proof (elem_of_names_where p out item) as H.
  destruct (app_dir out item) as [d|].
  - destruct (p d) eqn:Hp.
    + rewrite decide_True; [done|]. apply H. eauto.
    + rewrite decide_False; [done|]. intros (d' & [= <-] & Hp')%H. congruence.
  - rewrite decide_False; [done|]. by intros (d' & ? & _)%H.
Qed.

(** C6.  At a given local time and on a given state of the output
    directory, the application directories that the preview marks
    [will_be_deleted] under one criterion are, in listing order, those the
    corresponding clean-up reports as deleted, and the directory that the
    clean-up leaves on disk is the given one without them: an age
    threshold against [cleanup_old_files] with the same threshold,
    [show_empty] against [cleanup_empty_directories], [show_invalid]
    against [cleanup_invalid_apps]. *)
Theorem preview_marks_what_cleanup_deletes (now : Z) (output : option Directory) :
  (∀ days,
     marked (preview_cleanup now (Some days) false false output)
     = deleted_old_names (cleanup_old_files now days output).2
     ∧ (cleanup_old_files now days output).1
       = remove_all (marked (preview_cleanup now (Some days) false false output)) <$> output)
  ∧ (marked (preview_cleanup now None true false output)
     = deleted_empty_names (cleanup_empty_directories output).2
     ∧ (cleanup_empty_directories output).1
       = remove_all (marked (preview_cleanup now None true false output)) <$> output)
  ∧ (marked (preview_cleanup now None false true output)
     = deleted_invalid_names (cleanup_invalid_apps output).2
     ∧ (cleanup_invalid_apps output).1
       = remove_all (marked (preview_cleanup now None false true output)) <$> output).
Proof.
  destruct output as [out|]; [|by repeat split].
  split; [|split].
  - intros days. rewrite marked_closed, cleanup_old_files_closed.
    unfold preview_cutoff. destruct (cutoff now days) as [c|e]; [|done].
    cbn [mbind result_bind fst snd deleted_old_names old_deleted_apps fmap option_fmap option_map].
    rewrite (names_where_ext _ (older_than c))
      by (intros d; unfold criteria; cbn; by rewrite !orb_false_r).
    split; [|done]. unfold names_where. by rewrite map_map.
  - rewrite marked_closed, cleanup_empty_directories_closed.
    cbn [preview_cutoff fst snd deleted_empty_names fmap option_fmap option_map].
    by rewrite (names_where_ext _ empty_dir)
      by (intros d; unfold criteria; cbn; by rewrite !orb_false_r).
  - rewrite marked_closed, cleanup_invalid_apps_closed.
    cbn [preview_cutoff fst snd deleted_invalid_names fmap option_fmap option_map].
    rewrite (names_where_ext _ invalid_dir) by done.
    split; [|done]. unfold names_where. by rewrite map_fst_select_invalid.
Qed.

(** C8, as amended.  When [now] minus [days] days is a date, clean-up by
    age removes exactly the entries of the output directory that are
    directories, are not hidden and were last modified before it, and
    leaves every other entry as it was; it reports each removed directory
    once, in listing order, with its last-modified time and with its
    recursive size before removal converted to mebibytes and rounded to
    two decimals.  When [now] minus [days] days is not a date, the request
    fails with status 500 and nothing is removed. *)
Theorem cleanup_old_files_by_age (now days : Z) (out : Directory) :
  match cutoff now days with
  | Ok c =>
      c = now - days * microseconds_per_day
      ∧ ∃ out' report,
          cleanup_old_files now days (Some out) = (Some out', Returned report)
          ∧ (∀ item,
               out' !! item
               = match out !! item with
                 | Some (Dir t es) =>
                     if negb (Py.startswith "." item) && (t <? c)
                     then None else Some (Dir t es)
                 | other => other
                 end)
          ∧ map old_name (old_deleted_apps report)
            = names_where (older_than c) out
          ∧ Forall (fun e =>
                      ∃ t es, out !! old_name e = Some (Dir t es)
                              ∧ old_last_modified e = t
                              ∧ old_size_mb e = size_mb (get_directory_size (Dir t es)))
              (old_deleted_apps report)
  | Raise _ => cleanup_old_files now days (Some out) = (Some out, HTTP500)
  end.
Proof.
  rewrite cleanup_old_files_closed.
  destruct (cutoff now days) as [c|e] eqn:Hc; [|done].
  split.
  { unfold cutoff, timedelta_days, datetime_sub in Hc.
    destruct (_ && _); [|done]. cbn [mbind result_bind] in Hc.
    destruct (_ && _); [|done]. by injection Hc as <-. }
  eexists _, _. split; [reflexivity|]. cbn [old_deleted_apps]. split; [|split].
  - intros item. fold (names_where (older_than c) out). rewrite remove_where_lookup.
    unfold app_dir, older_than.
    destruct (out !! item) as [[|t es]|]; try done.
    destruct (negb (Py.startswith "." item)); [|done]. cbn [fst snd andb].
    by destruct (t <? c).
  - unfold names_where. by rewrite map_map.
  - apply Forall_map, Forall_forall. intros d [_ Hd]%list_elem_of_filter.
    apply elem_of_app_dirs in Hd. unfold app_dir in Hd. cbn [old_entry old_name].
    change (d.1.1) with (dir_name d).
    destruct (out !! dir_name d) as [[|t es]|]; try done.
    destruct (negb _); [|done]. injection Hd as <-. by exists t, es.
Qed.

(** ** Invalid Dockerfiles *)

Lemma upper_app (a b : string) : Py.upper (a ++ b) = Py.upper a ++ Py.upper b.
Proof. induction a as [|c a IH]; cbn [String.append Py.upper]; [done | by rewrite IH]. Qed.

Lemma upper_app_inv (s a b : string) :
  Py.upper s = a ++ b → ∃ s1 s2, s = s1 ++ s2 ∧ Py.upper s1 = a ∧ Py.upper s2 = b.
Proof.
  revert s. induction a as [|c a IH]; intros s H.
  - by exists "", s.
  - destruct s as [|x s]; [done|]. cbn [String.append Py.upper] in H.
    injection H as Hc H. destruct (IH s H) as (s1 & s2 & -> & H1 & H2).
    exists (String x s1), s2. cbn [String.append Py.upper]. by rewrite Hc, H1.
Qed.

Lemma contains_upper (sub s : string) :
  Py.contains sub (Py.upper s) = true ↔ occurs_ignoring_case sub s.
Proof.
  rewrite contains_spec. unfold occurs_ignoring_case. split.
  - intros (pre & post & H).
    apply upper_app_inv in H as (s1 & s2 & -> & _ & H).
    apply upper_app_inv in H as (w & s3 & -> & Hw & _). by exists s1, w, s3.
  - intros (pre & w & post & -> & Hw).
    exists (Py.upper pre), (Py.upper post). by rewrite !upper_app, Hw.
Qed.

(** The test that the code runs.  [check_invalid] gives a reason if and
    only if there is no entry named Dockerfile, or that entry cannot be
    read as a file, or its text is empty after stripping, or the stripped
    text has no occurrence of FROM followed by a space in any letter case:
    a test on the text, not on its instructions.  The storage summary and
    the preview repeat the same test, so the three code paths classify
    alike. *)
Lemma invalid_classification (entries : Directory) :
  (is_Some (check_invalid entries)
   ↔ entries !! "Dockerfile" = None
     ∨ (∃ t es, entries !! "Dockerfile" = Some (Dir t es))
     ∨ ∃ text, entries !! "Dockerfile" = Some (File text)
               ∧ (Py.strip text = ""
                  ∨ ¬ occurs_ignoring_case "FROM " (Py.strip text)))
  ∧ summary_invalid entries (bool_decide (is_Some (entries !! "Dockerfile")))
    = bool_decide (is_Some (check_invalid entries))
  ∧ (preview_invalid true entries false []).1
    = bool_decide (is_Some (check_invalid entries)).
Proof.
  split; [|split].
  - unfold check_invalid.
    destruct (entries !! "Dockerfile") as [[text|t es]|]; cbn [read_text].
    + unfold Py.nonempty. rewrite negb_involutive.
      destruct (String.eqb (Py.strip text) "") eqn:E.
      * apply String.eqb_eq in E. split; [|by eauto].
        intros _. right. right. exists text. by split; [|left].
      * apply String.eqb_neq in E.
        pose proof (contains_upper "FROM " (Py.strip text)) as Hc.
        destruct (Py.contains "FROM " (Py.upper (Py.strip text))); cbn [negb].
        -- split; [by intros [? ?]|].
           intros [?|[(? & ? & ?)|(text' & [= <-] & [?|Hno])]]; try done.
           exfalso. apply Hno, Hc. done.
        -- split; [|by eauto]. intros _. right. right. exists text. split; [done|].
           right. intros H. apply Hc in H. done.
    + split; [|by eauto]. intros _. right. left. eauto.
    + split; [|by eauto]. intros _. by left.
  - unfold summary_invalid, check_invalid.
    destruct (entries !! "Dockerfile") as [[text|t es]|]; cbn [read_text].
    + rewrite bool_decide_true by eauto. cbn [negb].
      destruct (negb (Py.nonempty (Py.strip text))); cbn [orb].
      * by rewrite bool_decide_true by eauto.
      * destruct (negb (Py.contains "FROM " (Py.upper (Py.strip text)))).
        -- by rewrite bool_decide_true by eauto.
        -- by rewrite bool_decide_false by (by intros [? ?]).
    + rewrite bool_decide_true by eauto. cbn [negb]. by rewrite bool_decide_true by eauto.
    + rewrite bool_decide_false by (by intros [? ?]). cbn [negb].
      by rewrite bool_decide_true by eauto.
  - exact (preview_invalid_flag true ("", 0, entries) false []).
Qed.

(** C7: the code misses the classification it announces.  The comment of
    [cleanup_invalid_apps] says that a valid Dockerfile is one that has a
    FROM instruction, and the reason it reports is that there is no FROM
    instruction in the Dockerfile; the test it runs looks for the word
    FROM followed by a space anywhere in the text.  A Dockerfile
    whose FROM instruction has a tab after the keyword is classified
    invalid by the clean-up, the storage summary and the preview, and the
    clean-up deletes its application; a Dockerfile whose only instruction
    is a RUN that mentions the word from is classified valid by all three
    and is kept. *)
Theorem substring_match_is_not_from_instruction :
  has_from_instruction ("FROM" ++ String "009"%char "ubuntu:22.04") = true
  ∧ check_invalid tab_separated = Some NoFromInstruction
  ∧ summary_invalid tab_separated true = true
  ∧ (preview_invalid true tab_separated false []).1 = true
  ∧ has_from_instruction "RUN echo copied from here" = false
  ∧ check_invalid run_only = None
  ∧ summary_invalid run_only true = false
  ∧ (preview_invalid true run_only false []).1 = false
  ∧ cleanup_invalid_apps (Some from_examples)
    = (Some {["runner" := Dir 0 run_only]}, Returned [("tabbed", NoFromInstruction)]).
Proof. repeat split; vm_compute; reflexivity. Qed.

(** ** The storage summary *)

Lemma summary_invalid_false (entries : Directory) (has : bool) :
  summary_invalid entries has = false → has = true.
Proof. unfold summary_invalid. by destruct has. Qed.

Lemma summary_step_consistent (out : Directory) (st : summary_state) (item : string) :
  summary_consistent st → summary_consistent (summary_step out st item).
Proof.
  intros (Hi & Hv & Hf). unfold summary_step.
  destruct (out !! item) as [[|t es]|]; try done.
  destruct (negb (Py.startswith "." item)); [|done].
  set (has := bool_decide (is_Some (es !! "Dockerfile"))).
  pose proof (summary_invalid_false es has) as Hhas.
  unfold summary_consistent. cbn [st_apps st_invalid_apps st_dockerfile_count].
  unfold append. rewrite !filter_app, !length_app, !filter_cons, !filter_nil.
  cbn [is_invalid has_dockerfile].
  destruct (summary_invalid es has) eqn:E.
  - rewrite decide_True, decide_False by done. rewrite andb_false_r. cbn [length].
    split; [lia|]. split; [lia|]. apply Forall_app. split; [done|].
    constructor; [|constructor]. cbn. done.
  - rewrite decide_False, decide_True by done. rewrite (Hhas eq_refl). cbn [andb negb length].
    split; [lia|]. split; [lia|]. apply Forall_app. split; [done|].
    constructor; [|constructor]. cbn. by intros _.
Qed.

Lemma summary_fold_consistent (out : Directory) (items : list string) (st : summary_state) :
  summary_consistent st → summary_consistent (fold_left (summary_step out) items st).
Proof.
  revert st. induction items as [|item items IH]; intros st H; [done|].
  cbn [fold_left]. by apply IH, summary_step_consistent.
Qed.

Lemma insert_latest_first_perm (x : app_summary) (l : list app_summary) :
  insert_latest_first x l ≡ₚ x :: l.
Proof.
  induction l as [|y l IH]; [done|]. cbn [insert_latest_first].
  destruct (sum_last_modified x <? sum_last_modified y); [|done].
  rewrite IH. apply Permutation_swap.
Qed.

Lemma sort_latest_first_perm (l : list app_summary) : sort_latest_first l ≡ₚ l.
Proof.
  unfold sort_latest_first. induction l as [|x l IH]; [done|].
  cbn [foldr]. by rewrite insert_latest_first_perm, IH.
Qed.

Lemma filter_split_length {A : Type} (p : A → bool) (l : list A) :
  (length (filter (fun a => p a = false) l) + length (filter (fun a => p a = true) l))%nat
  = length l.
Proof.
  induction l as [|x l IH]; [done|]. rewrite !filter_cons.
  destruct (p x).
  - rewrite decide_False, decide_True by done. cbn [length]. lia.
  - rewrite decide_True, decide_False by done. cbn [length]. lia.
Qed.

(** C10.  In every storage summary, [valid_apps] counts the listed
    applications that are not invalid and [invalid_apps] those that are,
    a valid application has a Dockerfile, and [valid_apps] plus
    [invalid_apps] is [total_apps], the number of listed applications. *)
Theorem storage_summary_partition (output : option Directory) (s : storage_summary) :
  get_storage_summary output = Returned s →
  (valid_apps s + invalid_apps s)%nat = total_apps s
  ∧ total_apps s = length (apps s)
  ∧ valid_apps s = length (filter (fun a => is_invalid a = false) (apps s))
  ∧ invalid_apps s = length (filter (fun a => is_invalid a = true) (apps s))
  ∧ Forall (fun a => is_invalid a = false → has_dockerfile a = true) (apps s).
Proof.
  unfold get_storage_summary. destruct output as [out|].
  - set (st := fold_left _ _ _). intros [= <-].
    cbn [valid_apps invalid_apps total_apps apps].
    assert (Hc : summary_consistent st).
    { apply summary_fold_consistent. repeat split. constructor. }
    destruct Hc as (Hi & Hv & Hf).
    pose proof (sort_latest_first_perm (st_apps st)) as Hp.
    rewrite Hp. rewrite Hi, Hv. split; [apply filter_split_length|].
    split; [done|]. split; [done|]. split; [done|]. done.
  - intros [= <-]. cbn. repeat split. constructor.
Qed.

(** The example directory: three applications, one valid. *)
Lemma storage_summary_partition_witness :
  ∃ s, get_storage_summary (Some example_output) = Returned s
       ∧ total_apps s = 3%nat ∧ valid_apps s = 1%nat ∧ invalid_apps s = 2%nat
       ∧ (valid_apps s + invalid_apps s)%nat = total_apps s.
Proof.
  destruct (get_storage_summary (Some example_output)) as [s|] eqn:E; [|discriminate].
  destruct (storage_summary_partition (Some example_output) s E) as (Hsum & _).
  exists s. split; [done|].
  assert (Hcounts : total_apps s = 3%nat ∧ valid_apps s = 1%nat ∧ invalid_apps s = 2%nat).
  { pose proof E as E'. vm_compute in E'. injection E' as <-. repeat split. }
  destruct Hcounts as (Ht & Hv & Hi). repeat split; [exact Ht | exact Hv | exact Hi | exact Hsum].
Defined.

(** Counterexample to C8 as stated.  With threshold 7 the directory
    modified ten days ago is removed and the others stay, but the report
    gives its size as 0.00 MiB where its byte size is 16; and with the
    threshold -4000000 every application directory precedes the cutoff,
    yet the request fails and removes none. *)
Lemma cleanup_old_reports_megabytes :
  cleanup_old_files now_example 7 (Some example_output)
  = (Some (delete "old-app" example_output),
     Returned {| old_deleted_apps :=
                   [{| old_name := "old-app";
                       old_last_modified := now_example - 10 * microseconds_per_day;
                       old_size_mb := 0 |}];
                 old_total_size_freed_mb := 0 |})
  ∧ get_directory_size old_app = 16
  ∧ cleanup_old_files now_example (-4000000) (Some example_output)
    = (Some example_output, HTTP500)
  ∧ names_where (older_than (now_example - (-4000000) * microseconds_per_day)) example_output
    = ["old-app"; "scratch"; "new-app"].
Proof. repeat split; vm_compute; reflexivity. Qed.

(** The zero-byte Dockerfile of section 8: the preview and the clean-up
    both name it, and the clean-up removes that directory alone. *)
Example zero_byte_dockerfile :
  let output : Directory := list_to_map [("old-app", old_app); ("new-app", new_app)] in
  marked (preview_cleanup now_example None false true (Some output)) = ["new-app"]
  ∧ cleanup_invalid_apps (Some output)
    = (Some (delete "new-app" output), Returned [("new-app", EmptyDockerfile)]).
Proof. split; vm_compute; reflexivity. Qed.

(** * Further properties of the clean-up endpoints *)

Lemma filter_none {A : Type} (p : A → bool) (l : list A) :
  (∀ x, x ∈ l → p x = false) → filter (fun x => p x = true) l = [].
Proof.
  induction l as [|x l IH]; intros H; [done|].
  rewrite filter_cons, decide_False.
  - apply IH. intros y Hy. apply H. by right.
  - rewrite (H x) by (by left). done.
Qed.

Lemma names_where_nil (p : string * Z * Directory → bool) (out : Directory) :
  (∀ item d, app_dir out item = Some d → p d = false) → names_where p out = [].
Proof.
  intros H. unfold names_where. rewrite filter_none; [done|].
  intros d Hd%elem_of_app_dirs. by apply (H _ _ Hd).
Qed.

Lemma app_dir_after_removal (p : string * Z * Directory → bool) (out : Directory)
    (item : string) (d : string * Z * Directory) :
  app_dir (remove_all (names_where p out) out) item = Some d →
  app_dir out item = Some d ∧ p d = false.
Proof.
  intros H. pose proof (remove_where_lookup p out item) as Hl.
  destruct (app_dir out item) as [d'|] eqn:Hd.
  - destruct (p d') eqn:Hp.
    + unfold app_dir in H. by rewrite Hl in H.
    + rewrite (app_dir_lookup _ _ _ Hl), Hd in H. by injection H as <-.
  - rewrite (app_dir_lookup _ _ _ Hl), Hd in H. done.
Qed.

Lemma names_where_after_removal (p : string * Z * Directory → bool) (out : Directory) :
  names_where p (remove_all (names_where p out) out) = [].
Proof.
  apply names_where_nil. intros item d H. by apply app_dir_after_removal in H as [_ ?].
Qed.

Lemma size_mb_0 : size_mb 0 = 0.
Proof. reflexivity. Qed.

(** X1.  A selective clean-up run again on the directory it left, at the
    same local time, deletes nothing and leaves that directory as it is. *)
Theorem cleanup_twice_deletes_nothing (now days : Z) (output : option Directory) :
  (let after := (cleanup_empty_directories output).1 in
   cleanup_empty_directories after = (after, Returned []))
  ∧ (let after := (cleanup_invalid_apps output).1 in
     cleanup_invalid_apps after = (after, Returned []))
  ∧ (let after := (cleanup_old_files now days output).1 in
     (cleanup_old_files now days after).1 = after
     ∧ deleted_old_names (cleanup_old_files now days after).2 = []).
Proof.
  destruct output as [out|].
  - split; [|split]; cbn zeta.
    + rewrite cleanup_empty_directories_closed. cbn [fst].
      rewrite cleanup_empty_directories_closed.
      by rewrite names_where_after_removal.
    + rewrite cleanup_invalid_apps_closed. cbn [fst].
      rewrite cleanup_invalid_apps_closed.
      rewrite names_where_after_removal. cbn [remove_all fold_left].
      f_equal. f_equal.
      pose proof (names_where_after_removal invalid_dir out) as H.
      unfold names_where in H. rewrite <- map_fst_select_invalid in H.
      by destruct (omap select_invalid _).
    + rewrite cleanup_old_files_closed.
      destruct (cutoff now days) as [c|e] eqn:Hc; cbn [fst].
      * rewrite cleanup_old_files_closed, Hc. cbn zeta.
        fold (names_where (older_than c) out).
        pose proof (names_where_after_removal (older_than c) out) as H.
        unfold names_where at 1 in H. apply map_eq_nil in H. rewrite H.
        by cbn.
      * rewrite cleanup_old_files_closed, Hc. done.
  - done.
Qed.

(** X2.  A selective clean-up removes application directories only: every
    other entry of the output directory, a plain file or a hidden
    directory, is still there afterwards, and the entries it keeps are
    unchanged. *)
Theorem cleanup_removes_only_applications (now days : Z) (out : Directory)
    (after : option Directory) :
  after ∈ [(cleanup_old_files now days (Some out)).1;
           (cleanup_empty_directories (Some out)).1;
           (cleanup_invalid_apps (Some out)).1] →
  ∃ out', after = Some out'
    ∧ ∀ item,
        out' !! item = out !! item
        ∨ (out' !! item = None
           ∧ ∃ t es, out !! item = Some (Dir t es) ∧ Py.startswith "." item = false).
Proof.
  assert (Hrm : ∀ p item,
            remove_all (names_where p out) out !! item = out !! item
            ∨ (remove_all (names_where p out) out !! item = None
               ∧ ∃ t es, out !! item = Some (Dir t es) ∧ Py.startswith "." item = false)).
  { intros p item. rewrite remove_where_lookup. unfold app_dir.
    destruct (out !! item) as [[|t es]|]; try (by left).
    destruct (Py.startswith "." item) eqn:Hh; cbn [negb]; [by left|].
    destruct (p _); [|by left]. right. split; [done|]. by exists t, es. }
  rewrite !elem_of_cons, elem_of_nil. intros [->|[->|[->|[]]]].
  - rewrite cleanup_old_files_closed. destruct (cutoff now days) as [c|e]; cbn [fst].
    + eexists. split; [done|]. apply (Hrm (older_than c)).
    + exists out. split; [done|]. by left.
  - rewrite cleanup_empty_directories_closed. eexists. split; [done|]. apply Hrm.
  - rewrite cleanup_invalid_apps_closed. eexists. split; [done|]. apply Hrm.
Qed.

(** The example directory: the stray file and the hidden directory
    survive the clean-up of invalid applications. *)
Lemma cleanup_removes_only_applications_witness :
  ∃ out', (cleanup_invalid_apps (Some example_output)).1 = Some out'
    ∧ out' !! "notes.txt" = Some (File "x")
    ∧ out' !! ".cache" = Some (Dir 0 ∅).
Proof.
  destruct (cleanup_removes_only_applications now_example 7 example_output
              (cleanup_invalid_apps (Some example_output)).1) as (out' & Hout & H).
  { rewrite !elem_of_cons. right. right. by left. }
  exists out'. split; [exact Hout|]. split.
  - destruct (H "notes.txt") as [-> | (_ & t & es & E & _)]; [reflexivity|].
    vm_compute in E. discriminate.
  - destruct (H ".cache") as [-> | (_ & t & es & _ & E)]; [reflexivity|].
    vm_compute in E. discriminate.
Defined.

(** ** Empty directories are invalid *)

Lemma listdir_lookup (d : Directory) (k : string) : k ∈ listdir d ↔ is_Some (d !! k).
Proof.
  unfold listdir. rewrite list_elem_of_fmap. split.
  - intros ([k' n] & -> & H%elem_of_map_to_list). by exists n.
  - intros [n H]. exists (k, n). split; [done|]. by apply elem_of_map_to_list.
Qed.

Lemma empty_dir_invalid (d : string * Z * Directory) :
  empty_dir d = true → invalid_dir d = true.
Proof.
  unfold empty_dir, invalid_dir, check_invalid, visible_contents.
  intros H%Nat.eqb_eq%nil_length_inv. apply bool_decide_eq_true.
  destruct (d.2 !! "Dockerfile") as [n|] eqn:E; [|by eauto].
  assert (Hin : "Dockerfile" ∈ filter (fun f => Py.startswith "." f = false) (listdir d.2)).
  { apply list_elem_of_filter. split; [done|]. apply listdir_lookup. by exists n. }
  rewrite H in Hin. by apply elem_of_nil in Hin.
Qed.

Lemma remove_where_twice (p q : string * Z * Directory → bool) (out : Directory) :
  (∀ d, p d = true → q d = true) →
  remove_all (names_where q (remove_all (names_where p out) out))
    (remove_all (names_where p out) out)
  = remove_all (names_where q out) out.
Proof.
  intros Hpq. apply map_eq. intros item.
  rewrite remove_where_lookup.
  pose proof (remove_where_lookup p out item) as Hp.
  rewrite (remove_where_lookup q out item).
  destruct (app_dir out item) as [d|] eqn:Hd.
  - destruct (p d) eqn:Ep.
    + rewrite (Hpq d Ep). unfold app_dir. by rewrite Hp.
    + rewrite (app_dir_lookup _ _ _ Hp), Hd. by rewrite Hp.
  - rewrite (app_dir_lookup _ _ _ Hp), Hd. done.
Qed.

(** X3.  An application directory without visible entries has no
    Dockerfile, so it is invalid as well as empty: the clean-up of invalid
    applications deletes every directory that the clean-up of empty
    directories deletes, and running it after that one leaves the same
    directory on disk as running it alone. *)
Theorem cleanup_invalid_subsumes_empty (output : option Directory) :
  deleted_empty_names (cleanup_empty_directories output).2
    ⊆ deleted_invalid_names (cleanup_invalid_apps output).2
  ∧ (cleanup_invalid_apps (cleanup_empty_directories output).1).1
    = (cleanup_invalid_apps output).1.
Proof.
  destruct output as [out|]; [|done].
  rewrite cleanup_empty_directories_closed. cbn [fst snd].
  rewrite !cleanup_invalid_apps_closed. cbn [fst snd deleted_empty_names deleted_invalid_names].
  split.
  - rewrite map_fst_select_invalid. fold (names_where invalid_dir out).
    intros item (d & Hd & He)%elem_of_names_where.
    apply elem_of_names_where. exists d. split; [done|]. by apply empty_dir_invalid.
  - f_equal. apply remove_where_twice. apply empty_dir_invalid.
Qed.

(** ** The storage summary, entry by entry *)

Lemma summary_invalid_dir (d : string * Z * Directory) :
  summary_invalid d.2 (bool_decide (is_Some (d.2 !! "Dockerfile"))) = invalid_dir d.
Proof.
  unfold summary_invalid, invalid_dir, check_invalid.
  destruct (d.2 !! "Dockerfile") as [[text|t es]|]; cbn [read_text].
  - rewrite bool_decide_true by eauto. cbn [negb].
    destruct (negb (Py.nonempty (Py.strip text))); cbn [orb].
    + by rewrite bool_decide_true by eauto.
    + destruct (negb (Py.contains "FROM " (Py.upper (Py.strip text)))).
      * by rewrite bool_decide_true by eauto.
      * by rewrite bool_decide_false by (by intros [? ?]).
  - rewrite bool_decide_true by eauto. cbn [negb]. by rewrite bool_decide_true by eauto.
  - rewrite bool_decide_false by (by intros [? ?]). cbn [negb].
    by rewrite bool_decide_true by eauto.
Qed.

Lemma filter_length_cons {A : Type} (p : A → bool) (x : A) (l : list A) :
  length (filter (fun a => p a = true) (x :: l))
  = ((if p x then 1 else 0) + length (filter (fun a => p a = true) l))%nat.
Proof.
  rewrite filter_cons. destruct (p x).
  - by rewrite decide_True.
  - by rewrite decide_False.
Qed.

Lemma summary_fold_closed (out : Directory) (items : list string) (st : summary_state) :
  let ds := omap (app_dir out) items in
  let st' := fold_left (summary_step out) items st in
  st_apps st' = (st_apps st ++ map summary_of ds)%list
  ∧ st_total_size st' = st_total_size st + sum_sizes (map dir_size ds)
  ∧ st_empty_dirs st'
    = (st_empty_dirs st + length (filter (fun d => empty_dir d = true) ds))%nat
  ∧ st_invalid_apps st'
    = (st_invalid_apps st + length (filter (fun d => invalid_dir d = true) ds))%nat.
Proof.
  revert st. induction items as [|item items IH]; intros st; cbn zeta.
  - cbn. rewrite app_nil_r. repeat split; lia.
  - cbn [fold_left]. specialize (IH (summary_step out st item)). cbn zeta in IH.
    destruct IH as (Ha & Ht & He & Hi). rewrite Ha, Ht, He, Hi. clear Ha Ht He Hi.
    destruct (app_dir out item) as [d|] eqn:Hd.
    + rewrite (omap_cons_Some _ _ _ _ Hd). unfold app_dir in Hd. unfold summary_step.
      destruct (out !! item) as [[|t es]|]; try done.
      destruct (negb (Py.startswith "." item)); [|done]. injection Hd as <-.
      cbn [st_apps st_total_size st_empty_dirs st_invalid_apps map].
      rewrite !filter_length_cons.
      pose proof (summary_invalid_dir (item, t, es)) as Hinv. cbn [snd] in Hinv.
      rewrite Hinv. unfold append. rewrite <- app_assoc. cbn [app].
      change (sum_sizes (?x :: ?l)) with (x + sum_sizes l).
      split; [|split; [|split]].
      * do 2 f_equal. unfold summary_of. cbn [fst snd]. by rewrite Hinv.
      * change (dir_size (item, t, es)) with (get_directory_size (Dir t es)). lia.
      * change (empty_dir (item, t, es)) with (length (visible_contents es) =? 0)%nat.
        destruct (length (visible_contents es) =? 0)%nat; lia.
      * destruct (invalid_dir (item, t, es)); lia.
    + rewrite (omap_cons_None _ _ _ Hd). unfold app_dir in Hd. unfold summary_step.
      destruct (out !! item) as [[|t es]|]; try done.
      destruct (negb (Py.startswith "." item)); done.
Qed.

Lemma get_storage_summary_closed (out : Directory) :
  ∃ s, get_storage_summary (Some out) = Returned s
    ∧ apps s = sort_latest_first (map summary_of (app_dirs out))
    ∧ total_apps s = length (app_dirs out)
    ∧ total_size_mb s = size_mb (sum_sizes (map dir_size (app_dirs out)))
    ∧ empty_directories s = length (names_where empty_dir out)
    ∧ invalid_apps s = length (names_where invalid_dir out).
Proof.
  unfold get_storage_summary. eexists. split; [reflexivity|].
  cbn [apps total_apps total_size_mb empty_directories invalid_apps].
  match goal with |- context [fold_left _ _ ?st0] =>
    destruct (summary_fold_closed out (listdir out) st0) as (Ha & Ht & He & Hi) end.
  fold (app_dirs out) in Ha, Ht, He, Hi. cbn zeta in Ha, Ht, He, Hi.
  rewrite Ha, Ht, He, Hi. cbn [st_apps st_total_size st_empty_dirs st_invalid_apps app].
  unfold names_where. rewrite !length_map. repeat split; lia.
Qed.

Lemma filter_length_le {A : Type} (p q : A → bool) (l : list A) :
  (∀ x, p x = true → q x = true) →
  (length (filter (fun x => p x = true) l) <= length (filter (fun x => q x = true) l))%nat.
Proof.
  intros H. induction l as [|x l IH]; [done|]. rewrite !filter_length_cons.
  pose proof (H x) as Hx. destruct (p x), (q x); try lia; by specialize (Hx eq_refl).
Qed.

(** X4.  The counters of the storage summary announce what the clean-ups
    do: [empty_directories] is the number of directories that the clean-up
    of empty directories deletes, [invalid_apps] the number that the
    clean-up of invalid applications deletes, and the first never exceeds
    the second.  [total_size_mb] is the rounded sum of the recursive sizes
    of the application directories, not the sum of their rounded sizes. *)
Theorem storage_summary_counts_deletions (out : Directory) :
  ∃ s, get_storage_summary (Some out) = Returned s
    ∧ empty_directories s
      = length (deleted_empty_names (cleanup_empty_directories (Some out)).2)
    ∧ invalid_apps s
      = length (deleted_invalid_names (cleanup_invalid_apps (Some out)).2)
    ∧ (empty_directories s <= invalid_apps s)%nat
    ∧ total_apps s = length (app_dirs out)
    ∧ total_size_mb s = size_mb (sum_sizes (map dir_size (app_dirs out))).
Proof.
  destruct (get_storage_summary_closed out) as (s & Hs & _ & Hn & Ht & He & Hi).
  exists s. split; [done|].
  rewrite cleanup_empty_directories_closed, cleanup_invalid_apps_closed.
  cbn [snd deleted_empty_names deleted_invalid_names].
  rewrite map_fst_select_invalid. fold (names_where invalid_dir out).
  rewrite He, Hi. repeat split; try done.
  unfold names_where. rewrite !length_map. apply filter_length_le, empty_dir_invalid.
Qed.

(** ** The order of the summary *)

Lemma insert_latest_first_sorted (x : app_summary) (l : list app_summary) :
  StronglySorted latest_first l → StronglySorted latest_first (insert_latest_first x l).
Proof.
  induction 1 as [|y l Hs IH Hy]; cbn [insert_latest_first].
  - repeat constructor.
  - destruct (sum_last_modified x <? sum_last_modified y) eqn:E.
    + apply Z.ltb_lt in E. constructor; [done|].
      rewrite insert_latest_first_perm. constructor; [|done]. unfold latest_first. lia.
    + apply Z.ltb_ge in E. constructor; [by constructor|].
      constructor; [done|]. eapply Forall_impl; [exact Hy|].
      unfold latest_first. intros z Hz. lia.
Qed.

Lemma sort_latest_first_sorted (l : list app_summary) :
  StronglySorted latest_first (sort_latest_first l).
Proof.
  unfold sort_latest_first. induction l as [|x l IH]; cbn [foldr]; [constructor|].
  by apply insert_latest_first_sorted.
Qed.

(** X5.  The [apps] of a storage summary are in order of last
    modification, latest first, and list every application directory of
    the output directory exactly once, with its name, date, rounded size
    and flags. *)
Theorem storage_summary_latest_first (out : Directory) :
  ∃ s, get_storage_summary (Some out) = Returned s
    ∧ StronglySorted latest_first (apps s)
    ∧ apps s ≡ₚ map summary_of (app_dirs out)
    ∧ NoDup (map sum_name (apps s)).
Proof.
  destruct (get_storage_summary_closed out) as (s & Hs & Ha & _).
  exists s. split; [done|]. rewrite Ha. split; [apply sort_latest_first_sorted|].
  split; [apply sort_latest_first_perm|].
  rewrite sort_latest_first_perm, map_map.
  change (fun x => sum_name (summary_of x)) with dir_name.
  unfold app_dirs.
  assert (H : ∀ items, NoDup items → NoDup (map dir_name (omap (app_dir out) items))).
  { induction 1 as [|item items Hnotin Hnd IH]; [constructor|].
    destruct (app_dir out item) as [d|] eqn:Hd.
    - rewrite (omap_cons_Some _ _ _ _ Hd). cbn [map]. constructor; [|done].
      unfold dir_name at 1. rewrite (app_dir_name _ _ _ Hd).
      intros (d' & Hn & (item' & Hin & Hd')%list_elem_of_omap)%list_elem_of_fmap.
      apply app_dir_name in Hd'. unfold dir_name in Hn. by rewrite Hn, Hd' in Hnotin.
    - by rewrite (omap_cons_None _ _ _ Hd). }
  apply H, listdir_NoDup.
Qed.

(** ** The totals of the preview *)

Lemma preview_step_total (now : Z) (days : option Z) (show_empty show_invalid : bool)
    (out : Directory) (apps : list app_info) (total : Z) (item : string)
    (d : string * Z * Directory) (c : option Z) :
  app_dir out item = Some d →
  preview_cutoff now days = Ok c →
  ∃ a,
    preview_step now days show_empty show_invalid out (apps, total) item
    = Ok (append apps a,
          if criteria c show_empty show_invalid d then total + dir_size d else total)
    ∧ will_be_deleted a = criteria c show_empty show_invalid d
    ∧ info_entry a = dir_entry d.
Proof.
  unfold preview_step, app_dir. intros Hd Hc.
  destruct (out !! item) as [[|t es]|]; try done.
  destruct (negb (Py.startswith "." item)); [|done]. injection Hd as <-.
  destruct (preview_age_closed now days t) as [rs ->]. rewrite Hc.
  cbn [mbind result_bind].
  pose proof (preview_empty_flag show_empty (item, t, es)
                (match c with Some c0 => t <? c0 | None => false end) (rs c)) as He.
  cbn [snd] in He.
  destruct (preview_empty show_empty es _ (rs c)) as [flag1 rs1]. cbn [fst] in He.
  pose proof (preview_invalid_flag show_invalid (item, t, es) flag1 rs1) as Hi.
  cbn [snd] in Hi.
  destruct (preview_invalid show_invalid es flag1 rs1) as [flag2 rs2]. cbn [fst] in Hi.
  assert (Hf : flag2 = criteria c show_empty show_invalid (item, t, es)).
  { unfold criteria, older_than. cbn [fst snd]. by rewrite Hi, He. }
  subst flag2. rewrite Hf. eexists. split; [|split].
  - reflexivity.
  - reflexivity.
  - reflexivity.
Qed.

Lemma preview_loop_total (now : Z) (days : option Z) (show_empty show_invalid : bool)
    (out : Directory) (c : option Z) (items : list string) (apps : list app_info)
    (total : Z) :
  preview_cutoff now days = Ok c →
  let ds := omap (app_dir out) items in
  ∃ new,
    preview_loop now days show_empty show_invalid out (apps, total) items
    = Ok ((apps ++ new)%list,
          total + sum_sizes
                    (map dir_size
                       (filter (fun d => criteria c show_empty show_invalid d = true) ds)))
    ∧ map will_be_deleted new = map (criteria c show_empty show_invalid) ds
    ∧ map info_entry new = map dir_entry ds.
Proof.
  intros Hc. revert apps total. induction items as [|item items IH]; intros apps total.
  - exists []. cbn. rewrite app_nil_r, Z.add_0_r. done.
  - cbn [preview_loop]. cbn zeta.
    destruct (app_dir out item) as [d|] eqn:Hd.
    + rewrite (omap_cons_Some _ _ _ _ Hd).
      destruct (preview_step_total now days show_empty show_invalid out apps total
                  item d c Hd Hc) as (a & -> & Hf & He).
      cbn [mbind result_bind].
      destruct (IH (append apps a)
                  (if criteria c show_empty show_invalid d then total + dir_size d
                   else total)) as (new & -> & Hfs & Hes).
      exists (a :: new). unfold append. rewrite <- app_assoc. cbn [app map].
      rewrite Hf, He, Hfs, Hes. split; [|done]. do 2 f_equal.
      rewrite filter_cons. destruct (criteria c show_empty show_invalid d).
      * rewrite decide_True by done. cbn [map].
        change (sum_sizes (?x :: ?l)) with (x + sum_sizes l). lia.
      * by rewrite decide_False by done.
    + rewrite (omap_cons_None _ _ _ Hd).
      pose proof (preview_step_closed now days show_empty show_invalid out apps total item)
        as Hs.
      rewrite Hd in Hs. rewrite Hs. cbn [mbind result_bind]. apply IH.
Qed.

Lemma filter_map_flags {A B : Type} (f : A → bool) (g : B → bool) (l : list A) (l' : list B) :
  map f l = map g l' →
  length (filter (fun a => f a = true) l) = length (filter (fun b => g b = true) l').
Proof.
  revert l'. induction l as [|a l IH]; intros [|b l']; try done.
  cbn [map]. intros [= Hh Ht]. rewrite !filter_length_cons, Hh. by rewrite (IH l' Ht).
Qed.

Lemma filter_map_entries {A B C : Type} (f : A → bool) (g : B → bool)
    (h : A → C) (k : B → C) (l : list A) (l' : list B) :
  map f l = map g l' → map h l = map k l' →
  map h (filter (fun a => f a = true) l) = map k (filter (fun b => g b = true) l').
Proof.
  revert l'. induction l as [|a l IH]; intros [|b l']; try done.
  cbn [map]. intros [= Hh Ht] [= Eh Et]. rewrite !filter_cons, Hh.
  destruct (g b).
  - rewrite !decide_True by done. cbn [map]. by rewrite Eh, (IH l' Ht Et).
  - rewrite !decide_False by done. by apply IH.
Qed.

(** X6.  Whenever the clean-up by age returns a report, the preview with
    the same threshold at the same time returns too, lists every
    application directory, and marks for deletion exactly the reported
    directories with the same names, dates and rounded sizes; its
    [apps_to_delete] is their number and its [total_size_to_free_mb] is
    the [total_size_freed_mb] of the clean-up. *)
Theorem preview_announces_freed_size (now days : Z) (output : option Directory)
    (report : old_report) :
  (cleanup_old_files now days output).2 = Returned report →
  ∃ rep,
    preview_cleanup now (Some days) false false output = Returned rep
    ∧ preview_total_apps rep = length (default [] (app_dirs <$> output))
    ∧ apps_to_delete rep = length (old_deleted_apps report)
    ∧ total_size_to_free_mb rep = old_total_size_freed_mb report
    ∧ map info_entry (filter (fun a => will_be_deleted a = true) (preview_apps rep))
      = map old_entry_fields (old_deleted_apps report).
Proof.
  destruct output as [out|].
  - rewrite cleanup_old_files_closed. unfold preview_cleanup.
    destruct (cutoff now days) as [c|e] eqn:Hc; [|done]. cbn [snd]. intros [= <-].
    assert (Hpc : preview_cutoff now (Some days) = Ok (Some c)).
    { unfold preview_cutoff. by rewrite Hc. }
    destruct (preview_loop_total now (Some days) false false out (Some c) (listdir out)
                [] 0 Hpc) as (new & -> & Hf & He).
    fold (app_dirs out) in Hf, He |- *. cbn [app].
    eexists. split; [reflexivity|].
    cbn [preview_total_apps apps_to_delete total_size_to_free_mb preview_apps
         old_deleted_apps old_total_size_freed_mb fmap option_fmap option_map default].
    assert (Hcrit : ∀ d, criteria (Some c) false false d = older_than c d).
    { intros d. unfold criteria. cbn. by rewrite !orb_false_r. }
    rewrite (list_filter_iff (fun d => criteria (Some c) false false d = true)
               (fun d => older_than c d = true) (app_dirs out))
      by (intros d; by rewrite Hcrit).
    assert (Hf' : map will_be_deleted new = map (older_than c) (app_dirs out)).
    { rewrite Hf. apply map_ext. intros d. apply Hcrit. }
    split; [|split; [|split]].
    + rewrite <- (length_map info_entry new), He. by rewrite length_map.
    + rewrite length_map. by apply filter_map_flags.
    + by rewrite Z.add_0_l.
    + rewrite map_map. by apply filter_map_entries.
  - cbn. intros [= <-]. eexists. split; [reflexivity|]. done.
Qed.

(** The example directory, seven days: one directory, sixteen bytes. *)
Lemma preview_announces_freed_size_witness :
  ∃ rep,
    preview_cleanup now_example (Some 7) false false (Some example_output) = Returned rep
    ∧ preview_total_apps rep = 3%nat
    ∧ apps_to_delete rep = 1%nat
    ∧ total_size_to_free_mb rep = 0.
Proof.
  destruct (preview_announces_freed_size now_example 7 (Some example_output)
              {| old_deleted_apps :=
                   [{| old_name := "old-app";
                       old_last_modified := now_example - 10 * microseconds_per_day;
                       old_size_mb := 0 |}];
                 old_total_size_freed_mb := 0 |})
    as (rep & Hrep & Hn & Hd & Hs & _).
  { vm_compute. reflexivity. }
  exists rep. split; [exact Hrep|]. split; [|split].
  - rewrite Hn. vm_compute. reflexivity.
  - rewrite Hd. reflexivity.
  - rewrite Hs. reflexivity.
Defined.

(** * Further properties of the loader *)

(** ** Trimmed tokens *)

Lemma rstrip_idempotent (s : string) : Py.rstrip (Py.rstrip s) = Py.rstrip s.
Proof.
  induction s as [|c s IH]; [done|]. cbn [Py.rstrip].
  destruct (Py.rstrip s) as [|x r] eqn:E.
  - destruct (Py.is_space c) eqn:Hc; [done|]. cbn [Py.rstrip]. by rewrite Hc.
  - cbn [Py.rstrip]. cbn [Py.rstrip] in IH. by rewrite IH.
Qed.

Lemma lstrip_head (s : string) :
  Py.lstrip s = "" ∨ ∃ c r, Py.lstrip s = String c r ∧ Py.is_space c = false.
Proof.
  induction s as [|c s IH]; [by left|]. cbn [Py.lstrip].
  destruct (Py.is_space c) eqn:Hc; [done|]. right. by exists c, s.
Qed.

Lemma strip_idempotent (s : string) : Py.strip (Py.strip s) = Py.strip s.
Proof.
  unfold Py.strip. destruct (lstrip_head s) as [-> | (c & r & -> & Hc)]; [done|].
  destruct (rstrip_keeps_head c r Hc) as [r' Hr]. rewrite Hr.
  cbn [Py.lstrip]. rewrite Hc. rewrite <- Hr. apply rstrip_idempotent.
Qed.

Lemma nonempty_true (s : string) : Py.nonempty s = true ↔ s ≠ "".
Proof.
  unfold Py.nonempty. rewrite negb_true_iff. split.
  - intros H%String.eqb_neq. done.
  - intros H. by apply String.eqb_neq.
Qed.

Lemma stripped_tokens_trimmed (tokens : list string) :
  Forall trimmed (stripped_tokens tokens).
Proof.
  unfold stripped_tokens. apply Forall_map, Forall_forall.
  intros t [Ht _]%list_elem_of_filter. split.
  - by apply nonempty_true.
  - apply strip_idempotent.
Qed.

Lemma no_space_app (a b : string) : no_space (a ++ b) = no_space a && no_space b.
Proof.
  induction a as [|c a IH]; cbn [String.append no_space]; [done|].
  by rewrite IH, andb_assoc.
Qed.

Lemma split_ws_go_words (cur s : string) :
  no_space cur = true →
  Forall (fun w => w ≠ "" ∧ no_space w = true) (Py.split_ws_go cur s).
Proof.
  revert cur. induction s as [|c s IH]; intros cur Hcur; cbn [Py.split_ws_go].
  - destruct (String.eqb cur "") eqn:E; [constructor|].
    apply String.eqb_neq in E. by repeat constructor.
  - destruct (Py.is_space c) eqn:Hc.
    + destruct (String.eqb cur "") eqn:E; [by apply IH|].
      apply String.eqb_neq in E. constructor; [done|]. by apply IH.
    + apply IH. rewrite no_space_app, Hcur. cbn [no_space]. by rewrite Hc.
Qed.

Lemma dict_set_Forall {V : Type} (P : string * V → Prop) (d : list (string * V))
    (k : string) (v : V) :
  Forall P d → P (k, v) → Forall P (dict_set d k v).
Proof.
  intros Hd Hkv. induction Hd as [|[k' v'] d Hx Hd IH]; cbn [dict_set].
  - by repeat constructor.
  - destruct (String.eqb k k') eqn:E.
    + apply String.eqb_eq in E. subst k'. by constructor.
    + by constructor.
Qed.

Lemma parse_key_value_pairs_stripped (cell : string) :
  Forall (fun kv => Py.strip kv.1 = kv.1 ∧ Py.strip kv.2 = kv.2)
    (parse_key_value_pairs cell).
Proof.
  unfold parse_key_value_pairs. destruct (_ || _); [constructor|].
  generalize (Py.split ";" cell). intros tokens.
  assert (H : Forall (fun kv : string * string => Py.strip kv.1 = kv.1 ∧ Py.strip kv.2 = kv.2) [])
    by constructor.
  revert H. generalize (@nil (string * string)).
  induction tokens as [|t tokens IH]; intros acc Hacc; cbn [fold_left]; [done|].
  apply IH. unfold parse_step. destruct (Py.split_first "=" t) as [[k v]|]; [|done].
  apply dict_set_Forall; [done|]. cbn [fst snd]. by rewrite !strip_idempotent.
Qed.

Lemma load_row_rest (json_loads : string → option pyval) (row : Row) (app_name : string)
    (stage : DockerfileStage) :
  load_row json_loads row = Ok (app_name, stage) →
  row !! "app_name" = Some app_name
  ∧ load_ports row = Ok (expose_ports stage)
  ∧ run_commands stage = load_run row
  ∧ volume_dirs stage = load_volumes row
  ∧ entrypoint stage = load_words row "entrypoint"
  ∧ cmd stage = load_words row "cmd"
  ∧ name stage = row !! "stage_name"
  ∧ workdir stage = row !! "workdir".
Proof.
  rewrite load_row_unfold.
  destruct (row !! "app_name") as [a|]; [|done].
  destruct (load_ports row) as [ports|]; [|done].
  destruct (row !! "base_image") as [image|]; [|done].
  intros [= <- <-]. by repeat split.
Qed.

Lemma load_words_words (row : Row) (key : string) (ws : list string) :
  load_words row key = Some ws →
  ws ≠ [] ∧ Forall (fun w => w ≠ "" ∧ no_space w = true) ws.
Proof.
  unfold load_words. destruct (filled row key) eqn:E; [|done]. intros [= <-]. split.
  - by apply filled_split_ws.
  - by apply split_ws_go_words.
Qed.

(** X7.  What the loader never produces.  In a loaded stage every RUN
    command and every volume is a non-empty text without white space at
    either end; the keys and values of the ENV, ARG and LABEL entries are
    trimmed; and an ENTRYPOINT or CMD vector, when there is one, has at
    least one word, each word non-empty and free of white space. *)
Theorem loaded_fields_are_trimmed (json_loads : string → option pyval) (row : Row)
    (app_name : string) (stage : DockerfileStage) :
  load_row json_loads row = Ok (app_name, stage) →
  Forall trimmed (run_commands stage)
  ∧ Forall trimmed (volume_dirs stage)
  ∧ Forall (fun kv => Py.strip kv.1 = kv.1 ∧ Py.strip kv.2 = kv.2)
      (env_vars stage ++ args stage ++ label_pairs stage)
  ∧ ∀ ws, entrypoint stage = Some ws ∨ cmd stage = Some ws →
      ws ≠ [] ∧ Forall (fun w => w ≠ "" ∧ no_space w = true) ws.
Proof.
  intros H. pose proof (load_row_fields json_loads row app_name stage H)
    as (_ & _ & _ & _ & -> & -> & ->).
  apply load_row_rest in H as (_ & _ & -> & -> & -> & -> & _).
  split; [|split; [|split]].
  - unfold load_run. destruct (filled _ _); [apply stripped_tokens_trimmed | constructor].
  - unfold load_volumes. destruct (filled _ _); [apply stripped_tokens_trimmed | constructor].
  - rewrite !Forall_app. repeat split; apply parse_key_value_pairs_stripped.
  - intros ws [Hw|Hw]; by apply load_words_words in Hw.
Qed.

(** A row with blank tokens and padded words. *)
Lemma loaded_fields_are_trimmed_witness :
  ∃ stage,
    load_row json_rejects padded_row = Ok ("svc1", stage)
    ∧ run_commands stage = ["apk update"; "apk add curl"]
    ∧ volume_dirs stage = ["/data"; "/logs"]
    ∧ entrypoint stage = Some ["/bin/sh"; "-c"]
    ∧ Forall trimmed (run_commands stage).
Proof.
  destruct (load_row json_rejects padded_row) as [[a stage]|] eqn:E; [|discriminate].
  pose proof (loaded_fields_are_trimmed json_rejects padded_row a stage E) as (Hrun & _).
  assert (Hs : a = "svc1"
               ∧ run_commands stage = ["apk update"; "apk add curl"]
               ∧ volume_dirs stage = ["/data"; "/logs"]
               ∧ entrypoint stage = Some ["/bin/sh"; "-c"]).
  { vm_compute in E. injection E as <- <-. repeat split. }
  destruct Hs as (-> & H1 & H2 & H3).
  exists stage. split; [reflexivity|]. split; [exact H1|]. split; [exact H2|].
  split; [exact H3 | exact Hrun].
Defined.

(** ** Looking up a key of a cell *)

Lemma dict_get_set {V : Type} (d : list (string * V)) (k k' : string) (v : V) :
  dict_get (dict_set d k v) k' = if String.eqb k k' then Some v else dict_get d k'.
Proof.
  induction d as [|[k0 v0] d IH]; cbn [dict_set dict_get].
  - rewrite (String.eqb_sym k' k). done.
  - destruct (String.eqb k k0) eqn:E; cbn [dict_get].
    + apply String.eqb_eq in E. subst k0. rewrite (String.eqb_sym k' k).
      by destruct (String.eqb k k').
    + rewrite IH. destruct (String.eqb k' k0) eqn:E'; [|done].
      apply String.eqb_eq in E'. subst k0. by rewrite E.
Qed.

Lemma find_app_l {A : Type} (p : A → bool) (l1 l2 : list A) :
  List.find p (l1 ++ l2)
  = match List.find p l1 with Some x => Some x | None => List.find p l2 end.
Proof.
  induction l1 as [|x l1 IH]; [done|]. cbn [app List.find]. by destruct (p x).
Qed.

Lemma parse_fold_get (tokens : list string) (acc : list (string * string)) (key : string) :
  dict_get (fold_left parse_step tokens acc) key
  = match List.find (fun t => String.eqb (token_key t) key)
            (rev (filter (fun t => Py.contains "=" t = true) tokens)) with
    | Some t => Some (token_value t)
    | None => dict_get acc key
    end.
Proof.
  revert acc. induction tokens as [|t tokens IH]; intros acc; [done|].
  cbn [fold_left]. rewrite IH, filter_cons. unfold parse_step.
  pose proof (contains_split_first "=" t) as Hc.
  destruct (Py.split_first "=" t) as [[k v]|] eqn:E.
  - rewrite decide_True by (apply Hc; eauto). cbn [rev]. rewrite find_app_l.
    destruct (List.find _ (rev _)); [done|]. cbn [List.find].
    unfold token_key, token_value. rewrite E. rewrite dict_get_set.
    destruct (String.eqb (Py.strip k) key); [by rewrite E|done].
  - rewrite decide_False; [done|]. intros H. apply Hc in H as [? ?]. done.
Qed.

Lemma first_occurrences_ext (seen seen' l : list string) :
  (∀ x, x ∈ seen ↔ x ∈ seen') → first_occurrences seen l = first_occurrences seen' l.
Proof.
  revert seen seen'. induction l as [|x l IH]; intros seen seen' H; [done|].
  cbn [first_occurrences]. destruct (decide (x ∈ seen)) as [Hin|Hnin].
  - rewrite decide_True by (by apply H). by apply IH.
  - rewrite decide_False by (by rewrite <- H). f_equal. apply IH.
    intros y. rewrite !elem_of_cons, H. done.
Qed.

Lemma parse_fold_order (tokens : list string) (acc : list (string * string)) :
  map fst (fold_left parse_step tokens acc)
  = (map fst acc
     ++ first_occurrences (map fst acc)
          (map token_key (filter (fun t => Py.contains "=" t = true) tokens)))%list.
Proof.
  revert acc. induction tokens as [|t tokens IH]; intros acc.
  - cbn. by rewrite app_nil_r.
  - cbn [fold_left]. rewrite IH, filter_cons. unfold parse_step.
    pose proof (contains_split_first "=" t) as Hc.
    destruct (Py.split_first "=" t) as [[k v]|] eqn:E.
    + rewrite decide_True by (apply Hc; eauto). cbn [map first_occurrences].
      assert (Hk : token_key t = Py.strip k) by (unfold token_key; by rewrite E).
      rewrite Hk, dict_set_keys.
      destruct (decide (Py.strip k ∈ map fst acc)) as [Hin|Hnin]; [done|].
      rewrite <- app_assoc. cbn [app]. do 2 f_equal. apply first_occurrences_ext.
      intros x. rewrite elem_of_app, !elem_of_cons, elem_of_nil. tauto.
    + rewrite decide_False; [done|]. intros H. apply Hc in H as [? ?]. done.
Qed.

(** X8.  Reading a map-valued cell back.  The keys of the parsed cell
    are the trimmed keys of its tokens in the order of their first
    occurrence, and looking a key up gives the trimmed value of the last
    token that carries it; a key that no token carries is absent. *)
Theorem parse_key_value_pairs_lookup (cell : string) :
  map fst (parse_key_value_pairs cell) = first_occurrences [] (kv_keys cell)
  ∧ ∀ key, dict_get (parse_key_value_pairs cell) key = cell_value cell key.
Proof.
  unfold parse_key_value_pairs, cell_value, kv_keys.
  destruct (negb (Py.nonempty cell) || String.eqb (Py.strip cell) "") eqn:E.
  - assert (Hb : kv_tokens cell = []).
    { apply blank_cell_no_tokens. apply orb_true_iff in E as [E|E].
      - apply negb_true_iff in E. unfold Py.nonempty in E.
        apply negb_false_iff, String.eqb_eq in E. by subst cell.
      - by apply String.eqb_eq. }
    rewrite Hb. done.
  - split.
    + by rewrite parse_fold_order.
    + intros key. rewrite parse_fold_get. fold (kv_tokens cell).
      by destruct (List.find _ _).
Qed.

(** ** Grouping the rows by application *)

Lemma first_occurrences_spec (seen l : list string) :
  NoDup (first_occurrences seen l)
  ∧ ∀ x, x ∈ first_occurrences seen l ↔ x ∈ l ∧ x ∉ seen.
Proof.
  revert seen. induction l as [|y l IH]; intros seen; cbn [first_occurrences].
  - split; [constructor|]. intros x. rewrite elem_of_nil. tauto.
  - destruct (decide (y ∈ seen)) as [Hin|Hnin].
    + destruct (IH seen) as [Hnd Hel]. split; [done|]. intros x.
      rewrite Hel, elem_of_cons. split; [tauto|]. intros [[->|?] ?]; tauto.
    + destruct (IH (y :: seen)) as [Hnd Hel]. split.
      * constructor; [|done]. rewrite Hel, elem_of_cons. tauto.
      * intros x. rewrite !elem_of_cons, Hel, elem_of_cons.
        destruct (decide (x = y)) as [->|Hne]; tauto.
Qed.

Lemma dict_get_is_Some {V : Type} (d : list (string * V)) (k : string) :
  is_Some (dict_get d k) ↔ k ∈ map fst d.
Proof.
  induction d as [|[k0 v0] d IH]; cbn [dict_get map fst].
  - rewrite elem_of_nil. split; [by intros [? ?]|done].
  - rewrite elem_of_cons. destruct (String.eqb k k0) eqn:E.
    + apply String.eqb_eq in E. split; [by left|by eauto].
    + apply String.eqb_neq in E. rewrite IH. tauto.
Qed.

Lemma stages_of_cons (app_name a : string) (s : DockerfileStage)
    (loaded : list (string * DockerfileStage)) :
  stages_of app_name ((a, s) :: loaded)
  = if String.eqb a app_name then s :: stages_of app_name loaded
    else stages_of app_name loaded.
Proof.
  unfold stages_of. rewrite filter_cons. cbn [fst].
  destruct (String.eqb a app_name) eqn:E.
  - apply String.eqb_eq in E. by rewrite decide_True.
  - apply String.eqb_neq in E. by rewrite decide_False.
Qed.

Lemma load_rows_groups (json_loads : string → option pyval) (rows : list Row)
    (cfg cfg' : list (string * list DockerfileStage)) :
  load_rows json_loads cfg rows = Ok cfg' →
  ∃ loaded,
    Forall2 (fun row p => load_row json_loads row = Ok p) rows loaded
    ∧ map fst cfg'
      = (map fst cfg ++ first_occurrences (map fst cfg) (map fst loaded))%list
    ∧ ∀ app_name,
        default [] (dict_get cfg' app_name)
        = (default [] (dict_get cfg app_name) ++ stages_of app_name loaded)%list.
Proof.
  revert cfg. induction rows as [|row rows IH]; intros cfg; cbn [load_rows].
  - intros [= <-]. exists []. split; [constructor|]. split.
    + cbn. by rewrite app_nil_r.
    + intros a. cbn. by rewrite app_nil_r.
  - destruct (load_row json_loads row) as [[a s]|] eqn:E; [|done].
    cbn [mbind result_bind]. intros H.
    destruct (IH _ H) as (loaded & Hl & Hk & Hg).
    exists ((a, s) :: loaded). split; [by constructor|]. split.
    + rewrite Hk. unfold add_stage. rewrite dict_set_keys. cbn [map fst first_occurrences].
      destruct (decide (a ∈ map fst cfg)) as [Hin|Hnin]; [done|].
      rewrite <- app_assoc. cbn [app]. do 2 f_equal. apply first_occurrences_ext.
      intros x. rewrite elem_of_app, !elem_of_cons, elem_of_nil. tauto.
    + intros b. rewrite Hg, stages_of_cons. unfold add_stage. rewrite dict_get_set.
      destruct (String.eqb a b) eqn:Eab.
      * apply String.eqb_eq in Eab. subst b.
        change (default [] (Some ?x)) with x. unfold append.
        by rewrite <- app_assoc.
      * done.
Qed.

(** X9.  The loader groups the rows by application name.  When it
    returns, every row has been loaded; the applications of the result are
    the names of the rows in the order of their first occurrence, each
    once; and the stages of an application are those of its rows, in row
    order, however the rows of different applications are interleaved. *)
Theorem load_groups_rows_by_application (json_loads : string → option pyval)
    (rows : list Row) (cfg : list (string * list DockerfileStage)) :
  load_configs_from_excel json_loads rows = Ok cfg →
  ∃ loaded,
    Forall2 (fun row p => load_row json_loads row = Ok p) rows loaded
    ∧ map fst cfg = first_occurrences [] (map fst loaded)
    ∧ NoDup (map fst cfg)
    ∧ ∀ app_name,
        dict_get cfg app_name
        = if decide (app_name ∈ map fst loaded)
          then Some (stages_of app_name loaded) else None.
Proof.
  unfold load_configs_from_excel. intros H.
  destruct (load_rows_groups json_loads rows [] cfg H) as (loaded & Hl & Hk & Hg).
  cbn [map app] in Hk. exists loaded. split; [done|]. split; [done|].
  destruct (first_occurrences_spec [] (map fst loaded)) as [Hnd Hel].
  split; [by rewrite Hk|]. intros a. specialize (Hg a). cbn [dict_get default app] in Hg.
  pose proof (dict_get_is_Some cfg a) as Hs. rewrite Hk, Hel in Hs.
  destruct (decide (a ∈ map fst loaded)) as [Hin|Hnin].
  - destruct (dict_get cfg a) as [stages|].
    + cbn in Hg. by rewrite Hg.
    + exfalso. assert (Hx : is_Some (@None (list DockerfileStage))).
      { apply Hs. split; [done|]. apply not_elem_of_nil. }
      by destruct Hx.
  - destruct (dict_get cfg a) as [stages|]; [|done].
    exfalso. apply Hnin. apply Hs. eauto.
Qed.


Lemma load_groups_rows_by_application_witness :
  ∃ cfg s1 s2 s3,
    load_configs_from_excel json_rejects interleaved_rows = Ok cfg
    ∧ map fst cfg = ["web"; "api"]
    ∧ dict_get cfg "web" = Some [s1; s3]
    ∧ dict_get cfg "api" = Some [s2]
    ∧ base_image s1 = "node:20" ∧ base_image s3 = "nginx:1.25".
Proof.
  destruct (load_configs_from_excel json_rejects interleaved_rows) as [cfg|] eqn:E;
    [|discriminate].
  destruct (load_groups_rows_by_application json_rejects interleaved_rows cfg E)
    as (loaded & Hl & Hk & _ & Hg).
  assert (Hloaded : ∃ s1 s2 s3,
             loaded = [("web", s1); ("api", s2); ("web", s3)]
             ∧ base_image s1 = "node:20" ∧ base_image s3 = "nginx:1.25").
  { unfold interleaved_rows in Hl.
    apply Forall2_cons_inv_l in Hl as (p1 & l1 & H1 & Hl & ->).
    apply Forall2_cons_inv_l in Hl as (p2 & l2 & H2 & Hl & ->).
    apply Forall2_cons_inv_l in Hl as (p3 & l3 & H3 & Hl & ->).
    apply Forall2_nil_inv_l in Hl as ->.
    vm_compute in H1. vm_compute in H2. vm_compute in H3.
    injection H1 as <-. injection H2 as <-. injection H3 as <-.
    eexists _, _, _. split; [reflexivity|]. split; reflexivity. }
  destruct Hloaded as (s1 & s2 & s3 & -> & Hb1 & Hb3).
  exists cfg, s1, s2, s3. split; [reflexivity|]. split; [exact Hk|].
  split; [exact (Hg "web")|]. split; [exact (Hg "api")|]. by split.
Defined.

(** * Ports as decimal text *)

Lemma digit_not_space (c : ascii) (d : Z) : IntFloat.digit c = Some d → Py.is_space c = false.
Proof.
  unfold IntFloat.digit, Py.is_space.
  destruct (48 <=? nat_of_ascii c)%nat eqn:E; [|done]. intros _.
  apply Nat.leb_le in E.
  destruct (nat_of_ascii c <=? 13)%nat eqn:E1; [apply Nat.leb_le in E1; lia|].
  destruct (nat_of_ascii c <=? 32)%nat eqn:E2; [apply Nat.leb_le in E2; lia|].
  by rewrite !andb_false_r.
Qed.

Lemma digit_string_no_space (ds : string) : digit_string ds = true → no_space ds = true.
Proof.
  induction ds as [|c ds IH]; [done|]. cbn [digit_string no_space].
  destruct (IntFloat.digit c) as [d|] eqn:E; [|done]. intros H.
  by rewrite (digit_not_space c d E), IH.
Qed.

Lemma rstrip_no_space (s : string) : no_space s = true → Py.rstrip s = s.
Proof.
  induction s as [|c s IH]; [done|]. cbn [no_space Py.rstrip].
  intros [Hc Hs]%andb_true_iff. apply negb_true_iff in Hc.
  rewrite (IH Hs), Hc. by destruct s.
Qed.

Lemma strip_no_space (s : string) : no_space s = true → Py.strip s = s.
Proof.
  intros H. unfold Py.strip.
  assert (Hl : Py.lstrip s = s).
  { destruct s as [|c s]; [done|]. cbn [no_space] in H.
    apply andb_true_iff in H as [Hc _]. apply negb_true_iff in Hc.
    cbn [Py.lstrip]. by rewrite Hc. }
  rewrite Hl. by apply rstrip_no_space.
Qed.

Lemma string_length_app (a b : string) :
  String.length (a ++ b) = (String.length a + String.length b)%nat.
Proof. induction a as [|c a IH]; cbn [String.append String.length]; [done | by rewrite IH]. Qed.

Lemma digit_string_app (a b : string) :
  digit_string (a ++ b) = digit_string a && digit_string b.
Proof.
  induction a as [|c a IH]; cbn [String.append digit_string]; [done|].
  by destruct (IntFloat.digit c).
Qed.

Lemma digits_value_app (acc : Z) (a b : string) :
  digit_string a = true → digits_value acc (a ++ b) = digits_value (digits_value acc a) b.
Proof.
  revert acc. induction a as [|c a IH]; intros acc; cbn [String.append digit_string digits_value];
    [done|].
  destruct (IntFloat.digit c); [|done]. apply IH.
Qed.

Lemma digits_go_all (ds : string) (acc count : Z) :
  digit_string ds = true →
  IntFloat.digits_go acc count ds
  = (digits_value acc ds, count + Z.of_nat (String.length ds), "").
Proof.
  revert acc count. induction ds as [|c ds IH]; intros acc count;
    cbn [digit_string IntFloat.digits_go digits_value String.length].
  - intros _. by rewrite Z.add_0_r.
  - destruct (IntFloat.digit c) as [d|]; [|done]. intros H. rewrite (IH _ _ H).
    do 2 f_equal. lia.
Qed.

Lemma pretty_N_char_digit (x : N) :
  (x < 10)%N → IntFloat.digit (pretty_N_char x) = Some (Z.of_N x).
Proof.
  intros H.
  assert (Hx : (x = 0 ∨ x = 1 ∨ x = 2 ∨ x = 3 ∨ x = 4 ∨ x = 5 ∨ x = 6 ∨ x = 7
               ∨ x = 8 ∨ x = 9)%N) by lia.
  destruct Hx as [->|[->|[->|[->|[->|[->|[->|[->|[->| ->]]]]]]]]]; reflexivity.
Qed.

Lemma pretty_N_go_digits (x : N) (s : string) :
  ∃ ds, pretty_N_go x s = ds ++ s
        ∧ digit_string ds = true
        ∧ (∀ acc, digits_value acc ds = acc * 10 ^ Z.of_nat (String.length ds) + Z.of_N x)
        ∧ ((0 < x)%N → ds ≠ "").
Proof.
  revert s. induction (N.lt_wf_0 x) as [x _ IH]; intros s.
  assert (Hx : (x = 0 ∨ 0 < x)%N) by lia. destruct Hx as [->|Hpos].
  - exists "". rewrite pretty_N_go_0. split; [done|]. split; [done|]. split; [|lia].
    intros acc. cbn. lia.
  - rewrite pretty_N_go_step by done.
    destruct (IH (x `div` 10)%N (N.div_lt x 10 Hpos eq_refl)
                (String (pretty_N_char (x `mod` 10)) s)) as (ds & -> & Hd & Hv & _).
    assert (Hc : IntFloat.digit (pretty_N_char (x `mod` 10)) = Some (Z.of_N (x `mod` 10))).
    { apply pretty_N_char_digit. by apply N.mod_lt. }
    exists (ds ++ String (pretty_N_char (x `mod` 10)) "").
    split; [by rewrite string_app_assoc|]. split; [|split].
    + rewrite digit_string_app, Hd. cbn [digit_string]. by rewrite Hc.
    + intros acc. rewrite digits_value_app by done. cbn [digits_value]. rewrite Hc, Hv.
      rewrite string_length_app. cbn [String.length]. rewrite Nat.add_1_r, Nat2Z.inj_succ.
      rewrite Z.pow_succ_r by lia. rewrite N2Z.inj_div, N2Z.inj_mod.
      change (Z.of_N 10) with 10.
      pose proof (Z.div_mod (Z.of_N x) 10 ltac:(lia)). lia.
    + intros _. by destruct ds.
Qed.

Lemma round_half_even_1 (n : Z) : IntFloat.round_half_even n 1 = n.
Proof. unfold IntFloat.round_half_even. by rewrite Z.div_1_r, Z.mod_1_r. Qed.

Lemma trunc_binary64_exact (x : Z) :
  0 < x < 2 ^ 53 → IntFloat.trunc_binary64 x 1 = Ok x.
Proof.
  intros Hx. unfold IntFloat.trunc_binary64.
  destruct (2 * x <? 1) eqn:E; [apply Z.ltb_lt in E; lia|]. clear E.
  change (Z.log2 1) with 0. rewrite Z.sub_0_r.
  pose proof (Z.log2_spec x ltac:(lia)) as [Hlo Hhi].
  pose proof (Z.log2_nonneg x) as Hnn.
  assert (Hl : Z.log2 x < 53) by (apply Z.log2_lt_pow2; lia).
  rewrite (Z.max_l (Z.log2 x) 0), (Z.max_r (- Z.log2 x) 0) by lia.
  rewrite Z.mul_1_l, Z.pow_0_r, Z.mul_1_r.
  destruct (2 ^ Z.log2 x <=? x) eqn:E; [|apply Z.leb_gt in E; lia]. clear E.
  cbn zeta.
  rewrite (Z.max_l (- (Z.log2 x - 52)) 0), (Z.max_r (Z.log2 x - 52) 0) by lia.
  change (1 * 2 ^ 0) with 1. change (2 ^ 0) with 1.
  rewrite round_half_even_1, !Z.mul_1_r.
  set (k := - (Z.log2 x - 52)).
  assert (Hk : 0 < 2 ^ k) by (apply Z.pow_pos_nonneg; lia).
  assert (Hb : x * 2 ^ k < 2 ^ 53).
  { replace (2 ^ 53) with (2 ^ Z.succ (Z.log2 x) * 2 ^ k).
    - apply Z.mul_lt_mono_pos_r; lia.
    - rewrite <- Z.pow_add_r by lia. f_equal. lia. }
  assert (Hbig : 2 ^ 53 < 2 ^ 1024) by (apply Z.pow_lt_mono_r; lia).
  destruct (2 ^ 1024 <=? x * 2 ^ k) eqn:E; [apply Z.leb_le in E; lia|].
  f_equal. apply Z.div_mul. lia.
Qed.

Lemma digit_char_facts (c : ascii) (d : Z) :
  IntFloat.digit c = Some d →
  (∀ s, IntFloat.sign (String c s) = (false, String c s))
  ∧ IntFloat.lower_char c = c
  ∧ Ascii.eqb c "i" = false ∧ Ascii.eqb c "n" = false ∧ Ascii.eqb c "." = false
  ∧ Ascii.eqb c ";" = false ∧ Ascii.eqb c "," = false ∧ Ascii.eqb c "E" = false.
Proof.
  destruct c as [[] [] [] [] [] [] [] []]; vm_compute; intros H; try discriminate;
    repeat split.
Qed.

Lemma decimal_digits (c : ascii) (ds : string) (d : Z) :
  IntFloat.digit c = Some d → digit_string ds = true →
  IntFloat.decimal (String c ds) = Some (digits_value 0 (String c ds), 0).
Proof.
  intros Hc Hds.
  assert (Hdot : IntFloat.decimal (String c ds)
                 = ('(i, _, rest) ← IntFloat.digitpart (String c ds);
                    match rest with
                    | String "." rest' =>
                        match IntFloat.digitpart rest' with
                        | Some (f, nf, rest'') =>
                            e ← IntFloat.exponent rest''; Some (i * 10 ^ nf + f, e - nf)
                        | None => e ← IntFloat.exponent rest'; Some (i, e)
                        end
                    | _ => e ← IntFloat.exponent rest; Some (i, e)
                    end)).
  { destruct c as [[] [] [] [] [] [] [] []]; try reflexivity. vm_compute in Hc. discriminate. }
  rewrite Hdot. cbn [IntFloat.digitpart digits_value]. rewrite Hc.
  rewrite (digits_go_all ds d 1 Hds). cbn. reflexivity.
Qed.

Lemma int_float_digits (ds : string) :
  digit_string ds = true → ds ≠ "" → 0 <= digits_value 0 ds < 2 ^ 53 →
  IntFloat.int_float ds = Ok (digits_value 0 ds)
  ∧ IntFloat.int_float ("-" ++ ds) = Ok (- digits_value 0 ds).
Proof.
  intros Hds Hne Hx. destruct ds as [|c ds]; [done|]. clear Hne.
  pose proof Hds as Hds'. cbn [digit_string] in Hds'.
  destruct (IntFloat.digit c) as [d|] eqn:Hc; [|done].
  destruct (digit_char_facts c d Hc) as (Hsign & Hlow & Hi & Hn & _).
  pose proof (decimal_digits c ds d Hc Hds') as Hdec.
  set (x := digits_value 0 (String c ds)) in *.
  assert (Htail : ∀ neg : bool,
            (let word := IntFloat.lower (String c ds) in
             if String.eqb word "inf" || String.eqb word "infinity" then Raise OverflowError
             else if String.eqb word "nan" then Raise ValueError
             else match IntFloat.decimal (String c ds) with
                  | None => Raise ValueError
                  | Some (m, e) =>
                      if m =? 0 then Ok 0
                      else v ← IntFloat.trunc_binary64 (m * 10 ^ Z.max e 0) (10 ^ Z.max (- e) 0);
                           Ok (if neg then - v else v)
                  end)
            = Ok (if neg then - x else x)).
  { intros neg. cbn zeta. cbn [IntFloat.lower]. rewrite Hlow.
    change (String.eqb (String c ?w) "inf") with (Ascii.eqb c "i" && String.eqb w "nf").
    change (String.eqb (String c ?w) "infinity")
      with (Ascii.eqb c "i" && String.eqb w "nfinity").
    change (String.eqb (String c ?w) "nan") with (Ascii.eqb c "n" && String.eqb w "an").
    rewrite Hi, Hn. cbn [andb orb]. rewrite Hdec.
    destruct (x =? 0) eqn:E.
    - apply Z.eqb_eq in E. rewrite E. by destruct neg.
    - apply Z.eqb_neq in E. change (Z.max 0 0) with 0. change (Z.max (- 0) 0) with 0.
      change (10 ^ 0) with 1. rewrite Z.mul_1_r, trunc_binary64_exact by lia. done. }
  split.
  - unfold IntFloat.int_float. rewrite strip_no_space by (by apply digit_string_no_space).
    rewrite Hsign. exact (Htail false).
  - unfold IntFloat.int_float. rewrite strip_no_space.
    + change (IntFloat.sign ("-" ++ String c ds)) with (true, String c ds). exact (Htail true).
    + change ("-" ++ String c ds) with (String "-" (String c ds)).
      change (no_space (String "-" ?s)) with (no_space s).
      by apply digit_string_no_space.
Qed.

Lemma str_int_digits (n : Z) :
  ∃ ds, digit_string ds = true ∧ ds ≠ "" ∧ digits_value 0 ds = Z.abs n
        ∧ Py.str_int n = if n <? 0 then "-" ++ ds else ds.
Proof.
  unfold Py.str_int. destruct n as [|p|p].
  - exists "0". by repeat split.
  - change (pretty (Z.pos p)) with (pretty_N_go (N.pos p) "").
    destruct (pretty_N_go_digits (N.pos p) "") as (ds & -> & Hd & Hv & Hne).
    exists ds. split; [done|]. split; [by apply Hne|]. split.
    + rewrite Hv. cbn. lia.
    + by rewrite string_app_nil_r.
  - change (pretty (Z.neg p)) with ("-" ++ pretty_N_go (N.pos p) "").
    destruct (pretty_N_go_digits (N.pos p) "") as (ds & -> & Hd & Hv & Hne).
    exists ds. split; [done|]. split; [by apply Hne|]. split.
    + rewrite Hv. cbn. lia.
    + by rewrite string_app_nil_r.
Qed.

Lemma int_float_str_int (n : Z) : exact_port n → IntFloat.int_float (Py.str_int n) = Ok n.
Proof.
  unfold exact_port. intros Hn.
  destruct (str_int_digits n) as (ds & Hd & Hne & Hv & ->).
  destruct (int_float_digits ds Hd Hne ltac:(lia)) as [Hpos Hneg].
  destruct (n <? 0) eqn:E.
  - apply Z.ltb_lt in E. rewrite Hneg, Hv. f_equal. lia.
  - apply Z.ltb_ge in E. rewrite Hpos, Hv. f_equal. lia.
Qed.

Lemma digit_string_contains (c : ascii) (ds : string) :
  IntFloat.digit c = None → digit_string ds = true → Py.contains (String c "") ds = false.
Proof.
  intros Hc. induction ds as [|x ds IH]; [done|]. cbn [digit_string].
  destruct (IntFloat.digit x) as [d|] eqn:Hx; [|done]. intros H.
  rewrite contains_char. destruct (Ascii.eqb x c) eqn:E; [|by apply IH].
  apply Ascii.eqb_eq in E. congruence.
Qed.

Lemma str_int_plain (n : Z) :
  Py.str_int n ≠ "" ∧ no_space (Py.str_int n) = true
  ∧ Py.contains ";" (Py.str_int n) = false ∧ Py.contains "," (Py.str_int n) = false.
Proof.
  destruct (str_int_digits n) as (ds & Hd & Hne & _ & ->).
  pose proof (digit_string_no_space ds Hd) as Hs.
  pose proof (digit_string_contains ";" ds eq_refl Hd) as H1.
  pose proof (digit_string_contains "," ds eq_refl Hd) as H2.
  destruct (n <? 0); [|done].
  change ("-" ++ ds) with (String "-" ds). rewrite !contains_char.
  split; [done|]. by repeat split.
Qed.

Lemma split_join_char (c : ascii) (ls : list string) :
  ls ≠ [] →
  Forall (fun t => Py.contains (String c "") t = false) ls →
  Py.split c (Py.join (String c "") ls) = ls.
Proof.
  intros Hne H. induction H as [|l ls Hl Hls IH]; [done|].
  destruct ls as [|l' ls].
  - cbn [Py.join String.concat]. by apply split_no_separator.
  - rewrite join_cons by done. cbn [String.append].
    rewrite split_at_separator by done. by rewrite IH.
Qed.

Lemma contains_char_app (c : ascii) (a b : string) :
  Py.contains (String c "") (a ++ b)
  = Py.contains (String c "") a || Py.contains (String c "") b.
Proof.
  induction a as [|x a IH]; cbn [String.append].
  - by destruct b.
  - rewrite !contains_char, IH. by destruct (Ascii.eqb x c).
Qed.

Lemma replace_absent (a b : ascii) (s : string) :
  Py.contains (String a "") s = false → Py.replace a b s = s.
Proof.
  induction s as [|x s IH]; [done|]. rewrite contains_char. cbn [Py.replace].
  destruct (Ascii.eqb x a); [done|]. intros H. by rewrite IH.
Qed.

Lemma ports_cell_no_comma (ports : list Z) : Py.contains "," (ports_cell ports) = false.
Proof.
  unfold ports_cell. induction ports as [|p ports IH]; [done|].
  destruct ports as [|q ports].
  - cbn [map Py.join String.concat]. apply str_int_plain.
  - cbn [map]. rewrite join_cons by done. rewrite !contains_char_app.
    cbn [map] in IH. rewrite IH. by destruct (str_int_plain p) as (_ & _ & _ & ->).
Qed.

Lemma ports_of_tokens_str_int (ports : list Z) :
  Forall exact_port ports → ports_of_tokens (map Py.str_int ports) = Ok ports.
Proof.
  induction 1 as [|p ports Hp Hps IH]; [done|]. cbn [map ports_of_tokens].
  destruct (str_int_plain p) as (Hne & Hs & _).
  rewrite (strip_no_space _ Hs). rewrite (proj2 (nonempty_true _) Hne).
  rewrite (int_float_str_int p Hp), IH. done.
Qed.

(** X10.  The decimal text of a port reads back as the port.  For every
    integer that binary64 holds exactly, [int(float(str(n)))] is [n]; so
    a row whose [expose_ports] cell lists such ports in decimal, separated
    by semicolons, loads exactly these ports, in order. *)
Theorem port_text_reads_back (ports : list Z) (row : Row) :
  Forall exact_port ports →
  row !! "expose_ports" = Some (ports_cell ports) →
  Forall (fun p => IntFloat.int_float (Py.str_int p) = Ok p) ports
  ∧ load_ports row = Ok ports.
Proof.
  intros Hp Hrow. split.
  { eapply Forall_impl; [exact Hp|]. apply int_float_str_int. }
  unfold load_ports, filled, row_get. rewrite Hrow.
  change (default "" (Some ?x)) with x.
  destruct ports as [|p ports]; [done|].
  assert (Hcell : Py.strip (ports_cell (p :: ports)) ≠ "").
  { intros H%strip_empty. destruct (str_int_plain p) as (Hne & Hs & _).
    unfold ports_cell in H. cbn [map] in H.
    destruct (Py.str_int p) as [|c s] eqn:E; [done|].
    assert (Hc : Py.is_space c = false).
    { cbn [no_space] in Hs. apply andb_true_iff in Hs as [Hc _]. by apply negb_true_iff. }
    destruct (map Py.str_int ports) as [|t ts].
    - cbn [Py.join String.concat all_space] in H. by rewrite Hc in H.
    - rewrite join_cons in H by done. cbn [String.append all_space] in H. by rewrite Hc in H. }
  apply String.eqb_neq in Hcell. rewrite Hcell. cbn [negb].
  rewrite replace_absent by apply ports_cell_no_comma.
  unfold ports_cell. rewrite split_join_char.
  - by apply ports_of_tokens_str_int.
  - done.
  - apply Forall_map, Forall_forall. intros q _. apply str_int_plain.
Qed.

(** The ports 80 and 8443. *)
Lemma port_text_reads_back_witness :
  ports_cell [80; 8443] = "80;8443" ∧ load_ports two_ports_row = Ok [80; 8443].
Proof.
  split; [reflexivity|].
  refine (proj2 (port_text_reads_back [80; 8443] two_ports_row _ _)).
  - repeat constructor; unfold exact_port; lia.
  - reflexivity.
Defined.

(** * The repository name *)

Lemma lower_replace_char (c : ascii) :
  IntFloat.lower_char (IntFloat.lower_char c) = IntFloat.lower_char c
  ∧ IntFloat.lower_char (if Ascii.eqb c "_" then "-"%char else c)
    = (if Ascii.eqb (IntFloat.lower_char c) "_" then "-"%char else IntFloat.lower_char c)
  ∧ Ascii.eqb (if Ascii.eqb c "_" then "-"%char else c) "_" = false.
Proof. destruct c as [[] [] [] [] [] [] [] []]; vm_compute; by repeat split. Qed.

Lemma lower_idempotent (s : string) : IntFloat.lower (IntFloat.lower s) = IntFloat.lower s.
Proof.
  induction s as [|c s IH]; [done|]. cbn [IntFloat.lower].
  by rewrite IH, (proj1 (lower_replace_char c)).
Qed.

Lemma lower_replace (s : string) :
  IntFloat.lower (Py.replace "_" "-" s) = Py.replace "_" "-" (IntFloat.lower s).
Proof.
  induction s as [|c s IH]; [done|]. cbn [IntFloat.lower Py.replace].
  by rewrite IH, (proj1 (proj2 (lower_replace_char c))).
Qed.

Lemma replace_no_underscore (s : string) : Py.contains "_" (Py.replace "_" "-" s) = false.
Proof.
  induction s as [|c s IH]; [done|]. cbn [Py.replace]. rewrite contains_char.
  by rewrite (proj2 (proj2 (lower_replace_char c))).
Qed.

Lemma prefix_length (p s : string) :
  String.prefix p s = true → (String.length p <= String.length s)%nat.
Proof.
  intros [post ->]%prefix_spec. rewrite string_length_app. lia.
Qed.

(** X11.  The repository name that the build and push endpoints derive
    from an application name always starts with [k8s-] or [app-], has at
    least four characters, and contains no upper-case ASCII letter and no
    underscore; deriving the name of a name changes nothing, so an
    application directory named after its repository keeps that name. *)
Theorem repo_name_is_normal (app_name : string) :
  let r := repo_name app_name in
  (Py.startswith "k8s-" r || Py.startswith "app-" r = true)
  ∧ (4 <= String.length r)%nat
  ∧ IntFloat.lower r = r
  ∧ Py.contains "_" r = false
  ∧ repo_name r = r.
Proof.
  cbn zeta.
  assert (Hshape : ∀ r, Py.startswith "k8s-" r || Py.startswith "app-" r = true →
                        IntFloat.lower r = r → Py.contains "_" r = false →
                        (Py.startswith "k8s-" r || Py.startswith "app-" r = true)
                        ∧ (4 <= String.length r)%nat
                        ∧ IntFloat.lower r = r
                        ∧ Py.contains "_" r = false
                        ∧ repo_name r = r).
  { intros r Hp Hl Hu.
    assert (Hlen : (4 <= String.length r)%nat).
    { apply orb_true_iff in Hp as [Hp|Hp]; apply prefix_length in Hp; exact Hp. }
    repeat split; try done.
    unfold repo_name. rewrite Hl, (replace_absent _ _ _ Hu), Hp.
    destruct (String.length r <? 2)%nat eqn:E; [apply Nat.ltb_lt in E; lia|]. done. }
  unfold repo_name.
  set (n := Py.replace "_" "-" (IntFloat.lower app_name)).
  assert (Hl : IntFloat.lower n = n).
  { unfold n. by rewrite lower_replace, lower_idempotent. }
  assert (Hu : Py.contains "_" n = false) by apply replace_no_underscore.
  destruct (String.length n <? 2)%nat.
  - apply Hshape; [apply orb_true_iff; left; apply prefix_spec; by exists ("app-" ++ n)| |].
    + change (IntFloat.lower ("k8s-app-" ++ n)) with ("k8s-app-" ++ IntFloat.lower n).
      by rewrite Hl.
    + by rewrite contains_char_app, Hu.
  - destruct (Py.startswith "k8s-" n || Py.startswith "app-" n) eqn:Hp; cbn [negb].
    + by apply Hshape.
    + apply Hshape; [apply orb_true_iff; left; apply prefix_spec; by exists n| |].
      * change (IntFloat.lower ("k8s-" ++ n)) with ("k8s-" ++ IntFloat.lower n).
        by rewrite Hl.
      * by rewrite contains_char_app, Hu.
Qed.

(** * From the compiler to the output directory *)

(** ** A generated Dockerfile is a valid one *)

Lemma all_space_app (a b : string) : all_space (a ++ b) = all_space a && all_space b.
Proof.
  induction a as [|c a IH]; cbn [String.append all_space]; [done|].
  by rewrite IH, andb_assoc.
Qed.

Lemma stage_block_head (s : DockerfileStage) :
  ∃ suffix tail, stage_block s = ("FROM " ++ base_image s ++ suffix) :: tail.
Proof.
  unfold stage_block, directive_order. cbn [map concat directive_lines app].
  destruct (Py.truthy (name s)).
  - eexists (" AS " ++ default "" (name s)), _. reflexivity.
  - eexists "", _. by rewrite string_app_nil_r.
Qed.

Lemma generate_dockerfile_from (first : DockerfileStage) (rest : list DockerfileStage) :
  Forall (fun s => renderable s = true) (first :: rest) →
  ∃ more,
    generate_dockerfile (first :: rest)
    = Some (Py.strip ("FROM " ++ base_image first ++ more)).
Proof.
  intros Hr. unfold generate_dockerfile. rewrite (render_stages_blocks _ [] Hr).
  cbn [mbind option_bind app map concat].
  destruct (stage_block_head first) as (suffix & tail & ->).
  rewrite <- !app_comm_cons. rewrite join_cons by (by destruct tail).
  eexists. rewrite !string_app_assoc. reflexivity.
Qed.

Lemma generated_text_valid (first : DockerfileStage) (rest : list DockerfileStage) :
  Forall (fun s => renderable s = true) (first :: rest) →
  all_space (base_image first) = false →
  ∃ text,
    generate_dockerfile (first :: rest) = Some text
    ∧ String.prefix "FROM " text = true
    ∧ ∀ entries, entries !! "Dockerfile" = Some (File text) → check_invalid entries = None.
Proof.
  intros Hr Hbase. destruct (generate_dockerfile_from first rest Hr) as (more & ->).
  eexists. split; [reflexivity|].
  assert (Hstrip : Py.strip ("FROM " ++ base_image first ++ more)
                   = "FROM " ++ Py.rstrip (base_image first ++ more)).
  { unfold Py.strip. change (Py.lstrip ("FROM " ++ ?s)) with ("FROM " ++ s).
    rewrite rstrip_app.
    destruct (String.eqb (Py.rstrip (base_image first ++ more)) "") eqn:E; [|done].
    apply String.eqb_eq, rstrip_empty in E. rewrite all_space_app, Hbase in E. done. }
  rewrite Hstrip. split; [apply prefix_spec; by eexists|].
  intros entries He.
  unfold check_invalid. rewrite He. cbn [read_text].
  rewrite <- Hstrip, strip_idempotent, Hstrip.
  change (Py.nonempty ("FROM " ++ ?s)) with true. cbn [negb].
  rewrite upper_app. change (Py.upper "FROM ") with "FROM ".
  assert (Hc : Py.contains "FROM " ("FROM " ++ Py.upper (Py.rstrip (base_image first ++ more)))
               = true).
  { apply contains_spec. by exists "", (Py.upper (Py.rstrip (base_image first ++ more))). }
  by rewrite Hc.
Qed.

(** X12.  The compiler's output passes the validity test of the
    clean-up.  When the stages can be rendered and the base image of the
    first one has a character that is not white space, the generated text
    starts with [FROM ] and, stored as the Dockerfile of an application
    directory, is classified valid by the clean-up of invalid
    applications, by the preview and by the storage summary. *)
Theorem generated_dockerfile_is_valid (first : DockerfileStage)
    (rest : list DockerfileStage) :
  Forall (fun s => renderable s = true) (first :: rest) →
  all_space (base_image first) = false →
  ∃ text,
    generate_dockerfile (first :: rest) = Some text
    ∧ String.prefix "FROM " text = true
    ∧ ∀ entries, entries !! "Dockerfile" = Some (File text) →
        check_invalid entries = None
        ∧ (preview_invalid true entries false []).1 = false
        ∧ summary_invalid entries true = false.
Proof.
  intros Hr Hbase.
  destruct (generated_text_valid first rest Hr Hbase) as (text & Htext & Hp & Hvalid).
  exists text. split; [done|]. split; [done|].
  intros entries He. pose proof (Hvalid entries He) as Hcheck.
  split; [done|]. split.
  - pose proof (preview_invalid_flag true ("", 0, entries) false []) as H.
    cbn [snd] in H. rewrite H. unfold invalid_dir. cbn [snd orb andb].
    rewrite Hcheck. apply bool_decide_eq_false. by intros [? ?].
  - pose proof (summary_invalid_dir ("", 0, entries)) as H. cbn [snd] in H.
    rewrite He in H. rewrite bool_decide_true in H by eauto. rewrite H.
    unfold invalid_dir. cbn [snd]. rewrite Hcheck.
    apply bool_decide_eq_false. by intros [? ?].
Qed.

(** The two-stage example. *)
Lemma generated_dockerfile_is_valid_witness :
  ∃ text,
    generate_dockerfile [builder_stage; runtime_stage] = Some text
    ∧ check_invalid {["Dockerfile" := File text]} = None.
Proof.
  destruct (generated_dockerfile_is_valid builder_stage [runtime_stage])
    as (text & Htext & _ & Hvalid).
  - repeat constructor.
  - reflexivity.
  - exists text. split; [exact Htext|].
    apply (Hvalid {["Dockerfile" := File text]}). apply lookup_singleton_eq.
Defined.

(** ** The listings *)

Lemma list_step_closed (out : Directory) (apps : list listed_app) (item : string) :
  list_step out apps item
  = match app_dir out item with
    | Some d => append apps (listed_of d)
    | None => apps
    end.
Proof.
  unfold list_step, app_dir. destruct (out !! item) as [[|t es]|]; try done.
  destruct (negb (Py.startswith "." item)); [|done].
  unfold listed_of, dockerfile_info_of. cbn [fst snd]. do 2 f_equal.
  destruct (es !! "Dockerfile") as [n|]; [|done].
  destruct (read_text n) as [content|]; [|done]. by destruct (scan_dockerfile content).
Qed.

Lemma list_fold_closed (out : Directory) (items : list string) (apps : list listed_app) :
  fold_left (list_step out) items apps
  = (apps ++ map listed_of (omap (app_dir out) items))%list.
Proof.
  revert apps. induction items as [|item items IH]; intros apps.
  - cbn. by rewrite app_nil_r.
  - cbn [fold_left]. rewrite IH, list_step_closed.
    destruct (app_dir out item) as [d|] eqn:Hd.
    + rewrite (omap_cons_Some _ _ _ _ Hd). unfold append. by rewrite <- app_assoc.
    + by rewrite (omap_cons_None _ _ _ Hd).
Qed.

Lemma list_all_apps_closed (out : Directory) :
  list_all_apps (Some out)
  = Returned (map listed_of (app_dirs out), length (app_dirs out)).
Proof.
  unfold list_all_apps. rewrite list_fold_closed. cbn [app].
  fold (app_dirs out). by rewrite length_map.
Qed.

Lemma list_apps_visible (out : Directory) (items : list string) :
  map built_flag
    (filter (fun a => Py.startswith "." (built_name a) = false)
       (omap (app_folder out) items))
  = map dir_flag (omap (app_dir out) items).
Proof.
  induction items as [|item items IH]; [done|].
  unfold app_folder at 1, app_dir at 1.
  destruct (out !! item) as [[|t es]|] eqn:E.
  - rewrite !omap_cons_None; [done| |]; unfold app_dir, app_folder; by rewrite E.
  - destruct (Py.startswith "." item) eqn:Hh.
    + rewrite (omap_cons_Some (app_folder out) _ _ _ ltac:(unfold app_folder; by rewrite E)).
      rewrite (omap_cons_None (app_dir out)) by (unfold app_dir; by rewrite E, Hh).
      rewrite filter_cons, decide_False by (cbn [built_name]; by rewrite Hh). done.
    + rewrite (omap_cons_Some (app_folder out) _ _ _ ltac:(unfold app_folder; by rewrite E)).
      rewrite (omap_cons_Some (app_dir out) _ _ (item, t, es))
        by (unfold app_dir; by rewrite E, Hh).
      rewrite filter_cons, decide_True by done. cbn [map]. by rewrite IH.
  - rewrite !omap_cons_None; [done| |]; unfold app_dir, app_folder; by rewrite E.
Qed.

(** X13.  The listings agree on what the applications are.  On an
    existing output directory [list_all_apps], the storage summary and
    [list_apps] of the build router all return; the first two name the
    same directories with the same Dockerfile flags, the summary in
    another order, and [list_apps] names these and the hidden directories
    besides.  A preview that returns lists the names of [list_all_apps]
    in the same order. *)
Theorem listings_agree (out : Directory) :
  ∃ listed summary built,
    list_all_apps (Some out) = Returned (listed, length listed)
    ∧ get_storage_summary (Some out) = Returned summary
    ∧ list_apps (Some out) = Returned (built, length built)
    ∧ total_apps summary = length listed
    ∧ map summary_flag (apps summary) ≡ₚ map listed_flag listed
    ∧ map built_flag (filter (fun a => Py.startswith "." (built_name a) = false) built)
      = map listed_flag listed
    ∧ ∀ now days show_empty show_invalid rep,
        preview_cleanup now days show_empty show_invalid (Some out) = Returned rep →
        map info_name (preview_apps rep) = map listed_name listed.
Proof.
  destruct (get_storage_summary_closed out) as (s & Hs & Ha & Hn & _).
  exists (map listed_of (app_dirs out)), s, (omap (app_folder out) (listdir out)).
  rewrite list_all_apps_closed, length_map. split; [done|]. split; [done|].
  split; [done|]. split; [done|]. split; [|split].
  - rewrite Ha, sort_latest_first_perm, !map_map. done.
  - rewrite list_apps_visible, map_map. done.
  - intros now days show_empty show_invalid rep. unfold preview_cleanup.
    rewrite map_map. change (fun x => listed_name (listed_of x)) with dir_name.
    destruct (preview_cutoff now days) as [c|e] eqn:Hc.
    + destruct (preview_loop_total now days show_empty show_invalid out c (listdir out)
                  [] 0 Hc) as (new & -> & _ & He).
      fold (app_dirs out) in He. cbn [app]. intros [= <-]. cbn [preview_apps].
      apply (f_equal (map (fun e : string * Z * Z => e.1.1))) in He.
      rewrite !map_map in He. exact He.
    + pose proof (preview_loop_closed now days show_empty show_invalid out (listdir out) [] 0)
        as H.
      rewrite Hc in H. fold (app_dirs out) in H.
      destruct (app_dirs out); rewrite H; [|done]. by intros [= <-].
Qed.

(** ** Reading a generated Dockerfile back *)
































(** * Endpoints on one application *)

Lemma app_dir_delete (out : Directory) (app_name item : string) :
  app_dir (delete app_name out) item
  = if String.eqb item app_name then None else app_dir out item.
Proof.
  unfold app_dir. destruct (String.eqb item app_name) eqn:E.
  - apply String.eqb_eq in E. subst. by rewrite lookup_delete_eq.
  - apply String.eqb_neq in E. by rewrite lookup_delete_ne.
Qed.

(** X16.  [delete_app] removes one directory and nothing else, for a name
    that is a path component other than [.] and [..].  When the name is
    that of a directory of the output directory, hidden or not, the
    endpoint returns; afterwards that entry is gone, every other entry is
    unchanged, [list_all_apps] shows the entries it showed before except
    the one of that name, the Dockerfile of the application can no longer
    be read and a second deletion fails with status 500.  When the name
    is that of a plain file, or of no entry, the endpoint answers 500 and
    removes nothing. *)
Theorem delete_app_removes_one_directory (out : Directory) (app_name : string) :
  plain_name app_name = true →
  match out !! app_name with
  | Some (Dir _ _) =>
      delete_app (Some out) app_name = (Some (delete app_name out), Returned tt)
      ∧ delete app_name out !! app_name = None
      ∧ (∀ other, other ≠ app_name → delete app_name out !! other = out !! other)
      ∧ (∃ before after n n',
           list_all_apps (Some out) = Returned (before, n)
           ∧ list_all_apps (Some (delete app_name out)) = Returned (after, n')
           ∧ ∀ a, a ∈ after ↔ a ∈ before ∧ listed_name a ≠ app_name)
      ∧ get_dockerfile (Some (delete app_name out)) app_name = HTTP500
      ∧ delete_app (Some (delete app_name out)) app_name
        = (Some (delete app_name out), HTTP500)
  | _ => delete_app (Some out) app_name = (Some out, HTTP500)
  end.
Proof.
  intros _. destruct (out !! app_name) as [[content|t es]|] eqn:E.
  - unfold delete_app, try_delete_app, app_path. cbn [mbind option_bind]. by rewrite E.
  - split; [|split; [|split; [|split; [|split]]]].
    + unfold delete_app, try_delete_app, app_path. cbn [mbind option_bind]. by rewrite E.
    + apply lookup_delete_eq.
    + intros other Hne. by apply lookup_delete_ne.
    + rewrite !list_all_apps_closed. eexists _, _, _, _. split; [reflexivity|].
      split; [reflexivity|]. intros a. rewrite !list_elem_of_fmap. split.
      * intros (d & -> & Hd%elem_of_app_dirs). rewrite app_dir_delete in Hd.
        destruct (String.eqb (dir_name d) app_name) eqn:En; [done|].
        apply String.eqb_neq in En. split; [|exact En].
        exists d. split; [done|]. by apply elem_of_app_dirs.
      * intros [(d & -> & Hd%elem_of_app_dirs) Hne]. exists d. split; [done|].
        apply elem_of_app_dirs. rewrite app_dir_delete.
        apply String.eqb_neq in Hne. cbn [listed_of listed_name] in Hne.
        unfold dir_name. by rewrite Hne.
    + unfold get_dockerfile, try_get_dockerfile, file_path, app_path.
      cbn [mbind option_bind]. by rewrite lookup_delete_eq.
    + unfold delete_app, try_delete_app, app_path. cbn [mbind option_bind].
      by rewrite lookup_delete_eq.
  - unfold delete_app, try_delete_app, app_path. cbn [mbind option_bind]. by rewrite E.
Qed.

(** In the example directory the application [old-app] is deleted and
    the stray file [notes.txt] is not. *)
Lemma delete_app_removes_one_directory_witness :
  delete_app (Some example_output) "old-app"
  = (Some (delete "old-app" example_output), Returned tt)
  ∧ delete_app (Some example_output) "notes.txt" = (Some example_output, HTTP500).
Proof.
  pose proof (delete_app_removes_one_directory example_output "old-app" eq_refl) as Hdir.
  pose proof (delete_app_removes_one_directory example_output "notes.txt" eq_refl) as Hfile.
  assert (Eapp : example_output !! "old-app" = Some old_app) by (vm_compute; reflexivity).
  assert (Enotes : example_output !! "notes.txt" = Some (File "x"))
    by (vm_compute; reflexivity).
  rewrite Eapp in Hdir. rewrite Enotes in Hfile. split; [exact (proj1 Hdir) | exact Hfile].
Defined.

(** * Writing the Dockerfiles *)

Lemma write_dockerfile_ok (now : Z) (output : option Directory) (app_name text : string)
    (out : Directory) :
  write_dockerfile now output app_name text = inl out →
  file_path (Some out) app_name "Dockerfile" = Some (File text)
  ∧ (∀ other, other ≠ app_name → app_path (Some out) other = app_path output other)
  ∧ (∀ app filename, filename ≠ "Dockerfile" →
       file_path (Some out) app filename = file_path output app filename).
Proof.
  unfold write_dockerfile, file_path, app_path.
  assert (Hdef : ∀ k, (out' ← output; out' !! k) = default ∅ output !! k).
  { intros k. destruct output as [o|]; cbn; [done|]. by rewrite lookup_empty. }
  cbn [mbind option_bind]. setoid_rewrite Hdef.
  set (o := default ∅ output). clearbody o. clear Hdef.
  assert (Hfiles : ∀ (old : option node) (t' : Z) (es' : Directory),
            o !! app_name = old →
            (∀ filename, filename ≠ "Dockerfile" →
               es' !! filename
               = match old with Some (Dir _ e) => e !! filename | _ => None end) →
            ∀ app filename, filename ≠ "Dockerfile" →
              (n ← <[app_name := Dir t' es']> o !! app;
               match n with Dir _ e => e !! filename | File _ => None end)
              = (n ← o !! app; match n with Dir _ e => e !! filename | File _ => None end)).
  { intros old t' es' Ho He app filename Hf.
    destruct (decide (app = app_name)) as [->|Hne].
    - rewrite lookup_insert_eq, Ho. cbn [mbind option_bind]. rewrite (He _ Hf).
      by destruct old as [[|]|].
    - by rewrite lookup_insert_ne. }
  destruct (o !! app_name) as [[content|t es]|] eqn:E; [done| |].
  - destruct (es !! "Dockerfile") as [[c|t' es']|] eqn:Ed; [| done |].
    + intros [= <-]. split; [|split].
      * rewrite lookup_insert_eq. cbn [mbind option_bind]. apply lookup_insert_eq.
      * intros other Hne. by rewrite lookup_insert_ne.
      * apply (Hfiles (Some (Dir t es))); [done|].
        intros f Hf. by rewrite lookup_insert_ne.
    + intros [= <-]. split; [|split].
      * rewrite lookup_insert_eq. cbn [mbind option_bind]. apply lookup_insert_eq.
      * intros other Hne. by rewrite lookup_insert_ne.
      * apply (Hfiles (Some (Dir t es))); [done|].
        intros f Hf. by rewrite lookup_insert_ne.
  - intros [= <-]. split; [|split].
    + rewrite lookup_insert_eq. cbn [mbind option_bind]. apply lookup_singleton_eq.
    + intros other Hne. by rewrite lookup_insert_ne.
    + apply (Hfiles None); [done|]. intros f Hf. by apply lookup_singleton_ne.
Qed.

Lemma file_path_app_path (o1 o2 : option Directory) (app filename : string) :
  app_path o1 app = app_path o2 app → file_path o1 app filename = file_path o2 app filename.
Proof. unfold file_path. by intros ->. Qed.

Lemma create_loop_ok (now : Z) (cfg : list (string * list DockerfileStage))
    (output out' : option Directory) :
  NoDup (map fst cfg) →
  create_loop now output cfg = (out', None) →
  (∀ app stages, (app, stages) ∈ cfg →
     ∃ text, generate_dockerfile stages = Some text
             ∧ file_path out' app "Dockerfile" = Some (File text))
  ∧ (∀ other, other ∉ map fst cfg → app_path out' other = app_path output other)
  ∧ (∀ app filename, filename ≠ "Dockerfile" →
       file_path out' app filename = file_path output app filename).
Proof.
  revert output. induction cfg as [|[a stages] cfg IH]; intros output Hnd; cbn [create_loop].
  - intros [= <-]. split; [|done]. intros app st H. by apply elem_of_nil in H.
  - cbn [map fst] in Hnd. apply NoDup_cons in Hnd as [Hnotin Hnd].
    destruct (generate_dockerfile stages) as [text|] eqn:Hg; [|done].
    destruct (write_dockerfile now output a text) as [out|e] eqn:Hw; [|done].
    intros Hloop. destruct (IH (Some out) Hnd Hloop) as (Hall & Hother & Hfiles).
    destruct (write_dockerfile_ok now output a text out Hw) as (Hmine & Hwo & Hwf).
    split; [|split].
    + intros app st [[= -> ->]|Hin]%elem_of_cons.
      * exists text. split; [done|].
        rewrite (file_path_app_path out' (Some out)) by (by apply Hother). done.
      * by apply Hall.
    + intros other Hno. cbn [map fst] in Hno. apply not_elem_of_cons in Hno as [Hne Hno].
      rewrite (Hother other Hno). by apply Hwo.
    + intros app f Hf. rewrite (Hfiles app f Hf). by apply Hwf.
Qed.

Lemma dict_get_elem {V : Type} (d : list (string * V)) (k : string) (v : V) :
  dict_get d k = Some v → (k, v) ∈ d.
Proof.
  induction d as [|[k0 v0] d IH]; [done|]. cbn [dict_get].
  destruct (String.eqb k k0) eqn:E.
  - apply String.eqb_eq in E. intros [= ->]. subst. by left.
  - intros H. right. by apply IH.
Qed.

Lemma load_keys_NoDup (json_loads : string → option pyval) (rows : list Row)
    (cfg : list (string * list DockerfileStage)) :
  load_configs_from_excel json_loads rows = Ok cfg → NoDup (map fst cfg).
Proof.
  unfold load_configs_from_excel. intros H.
  destruct (load_rows_groups json_loads rows [] cfg H) as (loaded & _ & Hk & _).
  rewrite Hk. cbn [map app]. apply first_occurrences_spec.
Qed.

(** X17.  What generation writes can be read back.  When
    [create_dockerfiles_for_all_apps] returns without an exception, for
    application names that are path components, reading the Dockerfile of
    each loaded application with [get_dockerfile] gives the text that the
    compiler generates for its stages; the entries of the output
    directory that no loaded application names are unchanged, and so is
    every file other than the Dockerfile in the directories written.  The
    names are path components and the texts hold no carriage return. *)
Theorem generated_dockerfiles_can_be_read (json_loads : string → option pyval)
    (now : Z) (rows : list Row) (cfg : list (string * list DockerfileStage))
    (output out' : option Directory) :
  load_configs_from_excel json_loads rows = Ok cfg →
  Forall (fun p => plain_name p.1 = true) cfg →
  Forall read_as_written cfg →
  create_dockerfiles_for_all_apps json_loads now rows output = (out', None) →
  (∀ app stages, dict_get cfg app = Some stages →
     ∃ text, generate_dockerfile stages = Some text
             ∧ get_dockerfile out' app = Returned text)
  ∧ (∀ other, other ∉ map fst cfg → app_path out' other = app_path output other)
  ∧ (∀ app filename, filename ≠ "Dockerfile" →
       file_path out' app filename = file_path output app filename).
Proof.
  intros Hload _ _. unfold create_dockerfiles_for_all_apps. rewrite Hload. intros Hloop.
  destruct (create_loop_ok now cfg output out' (load_keys_NoDup _ _ _ Hload) Hloop)
    as (Hall & Hother & Hfiles).
  split; [|by split]. intros app stages Hget%dict_get_elem.
  destruct (Hall app stages Hget) as (text & Hg & Hf). exists text. split; [done|].
  unfold get_dockerfile, try_get_dockerfile. by rewrite Hf.
Qed.

(** Two applications written into an output directory that does not
    exist yet. *)
Lemma generated_dockerfiles_can_be_read_witness :
  create_dockerfiles_for_all_apps json_rejects 0 interleaved_rows None
  = (interleaved_output, None)
  ∧ get_dockerfile interleaved_output "api" = Returned "FROM python:3.11"
  ∧ app_path interleaved_output "other" = None.
Proof.
  assert (Hload : load_configs_from_excel json_rejects interleaved_rows = Ok interleaved_cfg)
    by (vm_compute; reflexivity).
  assert (Hcreate : create_dockerfiles_for_all_apps json_rejects 0 interleaved_rows None
                    = (interleaved_output, None)) by (vm_compute; reflexivity).
  assert (Hplain : Forall (fun p => plain_name p.1 = true) interleaved_cfg)
    by (unfold interleaved_cfg; repeat constructor).
  assert (Hread : Forall read_as_written interleaved_cfg).
  { unfold interleaved_cfg. repeat constructor; intros text H; vm_compute in H;
      injection H as <-; reflexivity. }
  destruct (generated_dockerfiles_can_be_read json_rejects 0 interleaved_rows interleaved_cfg
              None interleaved_output Hload Hplain Hread Hcreate) as (Hall & Hother & _).
  split; [exact Hcreate|]. split.
  - eassert (Hget : dict_get interleaved_cfg "api" = Some _) by (vm_compute; reflexivity).
    destruct (Hall "api" _ Hget) as (text & Ht & Hr). rewrite Hr. f_equal.
    vm_compute in Ht. congruence.
  - rewrite Hother; [vm_compute; reflexivity|]. unfold interleaved_cfg. cbn [map fst].
    rewrite !elem_of_cons, elem_of_nil. by intros [|[|]].
Defined.

Lemma create_loop_app (now : Z) (l1 l2 : list (string * list DockerfileStage))
    (output : option Directory) :
  create_loop now output (l1 ++ l2)
  = match create_loop now output l1 with
    | (mid, None) => create_loop now mid l2
    | failed => failed
    end.
Proof.
  revert output. induction l1 as [|[a stages] l1 IH]; intros output; [done|].
  cbn [app create_loop]. destruct (generate_dockerfile stages) as [text|]; [|done].
  destruct (write_dockerfile now output a text) as [out|e]; [|done]. apply IH.
Qed.

(** X18.  Generation is all-or-nothing for a load failure only.  When
    the loader raises, nothing is written.  When the loader returns and
    the stages of one application cannot be rendered, the call raises at
    that application: the Dockerfiles of the applications before it have
    been written, exactly as a call for these alone would write them, and
    those of the applications after it have not. *)
Theorem generation_stops_at_first_failure (json_loads : string → option pyval)
    (now : Z) (rows : list Row) (output : option Directory) :
  match load_configs_from_excel json_loads rows with
  | Raise e =>
      create_dockerfiles_for_all_apps json_loads now rows output = (output, Some (LoadError e))
  | Ok cfg =>
      ∀ before app_name stages after mid,
        cfg = (before ++ (app_name, stages) :: after)%list →
        create_loop now output before = (mid, None) →
        generate_dockerfile stages = None →
        create_dockerfiles_for_all_apps json_loads now rows output = (mid, Some TypeError)
  end.
Proof.
  unfold create_dockerfiles_for_all_apps.
  destruct (load_configs_from_excel json_loads rows) as [cfg|e]; [|done].
  intros before a stages after mid -> Hbefore Hgen.
  rewrite create_loop_app, Hbefore. cbn [create_loop]. by rewrite Hgen.
Qed.

(** One application is written, the next has a shell that is a number. *)
Lemma generation_stops_at_first_failure_witness :
  create_dockerfiles_for_all_apps json_five 0 failing_rows None
  = (partial_output, Some TypeError)
  ∧ is_Some (app_path partial_output "svc1")
  ∧ app_path partial_output "svc2" = None.
Proof.
  pose proof (generation_stops_at_first_failure json_five 0 failing_rows None) as H.
  assert (Hload : load_configs_from_excel json_five failing_rows = Ok failing_cfg)
    by (vm_compute; reflexivity).
  rewrite Hload in H. split; [|split].
  - eapply (H [_] "svc2" _ [] partial_output).
    + unfold failing_cfg. reflexivity.
    + vm_compute. reflexivity.
    + vm_compute. reflexivity.
  - eexists. vm_compute. reflexivity.
  - vm_compute. reflexivity.
Defined.

(** X19.  The selective clean-ups keep what generation has just written.
    After a call of [create_dockerfiles_for_all_apps] that returns, for
    names that are path components and texts without carriage return,
    when the first stage of every loaded application has a base image
    that is not blank, no loaded application is deleted by the clean-up of
    invalid applications or by the clean-up of empty directories. *)
Theorem cleanup_keeps_generated_applications (json_loads : string → option pyval)
    (now : Z) (rows : list Row) (cfg : list (string * list DockerfileStage))
    (output : option Directory) (out' : Directory) :
  load_configs_from_excel json_loads rows = Ok cfg →
  Forall (fun p => plain_name p.1 = true) cfg →
  Forall read_as_written cfg →
  Forall has_base_image cfg →
  create_dockerfiles_for_all_apps json_loads now rows output = (Some out', None) →
  ∀ app_name, app_name ∈ map fst cfg →
    (app_name ∉ deleted_invalid_names (cleanup_invalid_apps (Some out')).2)
    ∧ (app_name ∉ deleted_empty_names (cleanup_empty_directories (Some out')).2)
    ∧ is_Some (out' !! app_name).
Proof.
  intros Hload _ _ Hbase. unfold create_dockerfiles_for_all_apps. rewrite Hload.
  intros Hloop.
  destruct (create_loop_ok now cfg output (Some out') (load_keys_NoDup _ _ _ Hload) Hloop)
    as (Hall & _ & _).
  intros a ([a' stages] & -> & Hin)%list_elem_of_fmap. cbn [fst].
  destruct (Hall a' stages Hin) as (text & Hgen & Hfile).
  rewrite Forall_forall in Hbase. destruct (Hbase _ Hin) as (first & rest & Hst & Hb).
  cbn [snd] in Hst. subst stages.
  assert (Hr : Forall (fun s => renderable s = true) (first :: rest)).
  { apply Forall_forall. intros s Hs.
    destruct (renderable s) eqn:E; [done|]. exfalso.
    assert (Hno : generate_dockerfile (first :: rest) = None).
    { apply generate_dockerfile_raises, Exists_exists. exists s. split; [|done].
      first [exact Hs | by apply list_elem_of_In]. }
    congruence. }
  destruct (generated_text_valid first rest Hr Hb) as (text' & Hgen' & _ & Hvalid).
  assert (text' = text) as -> by congruence.
  unfold file_path, app_path in Hfile. cbn [mbind option_bind] in Hfile.
  destruct (out' !! a') as [[c|t es]|] eqn:Hout; try done. cbn [mbind option_bind] in Hfile.
  assert (Hinv : ∀ d, app_dir out' a' = Some d → invalid_dir d = false).
  { intros d Hd. unfold app_dir in Hd. rewrite Hout in Hd.
    destruct (negb (Py.startswith "." a')); [|done]. injection Hd as <-.
    unfold invalid_dir. cbn [snd]. rewrite (Hvalid es Hfile).
    apply bool_decide_eq_false. by intros [? ?]. }
  rewrite cleanup_invalid_apps_closed, cleanup_empty_directories_closed.
  cbn [snd deleted_invalid_names deleted_empty_names]. rewrite map_fst_select_invalid.
  fold (names_where invalid_dir out'). split; [|split; [|by eauto]].
  - intros (d & Hd & Hi)%elem_of_names_where. rewrite (Hinv d Hd) in Hi. done.
  - intros (d & Hd & He)%elem_of_names_where. apply empty_dir_invalid in He.
    rewrite (Hinv d Hd) in He. done.
Qed.

(** The two applications of the interleaved rows survive both clean-ups. *)
Lemma cleanup_keeps_generated_applications_witness :
  ∃ out',
    interleaved_output = Some out'
    ∧ ("web" ∉ deleted_invalid_names (cleanup_invalid_apps (Some out')).2)
    ∧ ("api" ∉ deleted_invalid_names (cleanup_invalid_apps (Some out')).2).
Proof.
  assert (Hload : load_configs_from_excel json_rejects interleaved_rows = Ok interleaved_cfg)
    by (vm_compute; reflexivity).
  assert (Hout : ∃ out', interleaved_output = Some out') by (eexists; reflexivity).
  destruct Hout as [out' Hout]. exists out'. split; [exact Hout|].
  assert (Hcreate : create_dockerfiles_for_all_apps json_rejects 0 interleaved_rows None
                    = (Some out', None)) by (rewrite <- Hout; vm_compute; reflexivity).
  assert (Hplain : Forall (fun p => plain_name p.1 = true) interleaved_cfg)
    by (unfold interleaved_cfg; repeat constructor).
  assert (Hread : Forall read_as_written interleaved_cfg).
  { unfold interleaved_cfg. repeat constructor; intros text H; vm_compute in H;
      injection H as <-; reflexivity. }
  assert (Hbase : Forall has_base_image interleaved_cfg)
    by (unfold interleaved_cfg; repeat constructor; eexists _, _; split; reflexivity).
  pose proof (cleanup_keeps_generated_applications json_rejects 0 interleaved_rows
                interleaved_cfg None out' Hload Hplain Hread Hbase Hcreate) as H.
  split.
  - apply (H "web"). unfold interleaved_cfg. cbn [map fst]. by left.
  - apply (H "api"). unfold interleaved_cfg. cbn [map fst]. right. by left.
Defined.

(** * Lists of instructions decoded from JSON *)

Lemma add_loop_closed (acc : list AddInstruction.t) (items : list pyval) :
  add_loop acc items = (acc ++ take_while_some add_of items)%list.
Proof.
  revert acc. induction items as [|a items IH]; intros acc; cbn [add_loop take_while_some].
  - by rewrite app_nil_r.
  - fold (add_of a). destruct (add_of a) as [inst|]; [|by rewrite app_nil_r].
    rewrite IH. unfold append. by rewrite <- app_assoc.
Qed.

Lemma copy_loop_closed (acc : list CopyInstruction.t) (items : list pyval) :
  copy_loop acc items = (acc ++ take_while_some copy_of items)%list.
Proof.
  revert acc. induction items as [|c items IH]; intros acc; cbn [copy_loop take_while_some].
  - by rewrite app_nil_r.
  - fold (copy_of c). destruct (copy_of c) as [inst|]; [|by rewrite app_nil_r].
    rewrite IH. unfold append. by rewrite <- app_assoc.
Qed.

Lemma take_while_some_split {A B : Type} (f : A → option B) (good rest : list A) :
  Forall (fun a => is_Some (f a)) good →
  rest = [] ∨ (∃ bad rest', rest = bad :: rest' ∧ f bad = None) →
  take_while_some f (good ++ rest) = omap f good.
Proof.
  intros Hgood Hrest. induction Hgood as [|a good [y Hy] _ IH].
  - cbn [app]. destruct Hrest as [->|(bad & rest' & -> & Hbad)]; [done|].
    cbn [take_while_some]. by rewrite Hbad.
  - cbn [app take_while_some]. rewrite Hy, (omap_cons_Some _ _ _ _ Hy). by rewrite IH.
Qed.

(** X21.  A JSON list with a malformed element is loaded up to that
    element.  When the [add_files] or [copy_pairs] cell decodes to a list,
    the instructions of the stage are those of the elements before the
    first one that is not an object with [src] and [dest]; that element
    and all after it are dropped, and the stage is loaded all the same. *)
Theorem json_list_stops_at_first_malformed (json_loads : string → option pyval)
    (row : Row) (key : string) (good rest : list pyval) :
  filled row key = true →
  json_loads (row_get row key) = Some (PList (good ++ rest)) →
  (key = "add_files" →
   Forall (fun a => is_Some (add_of a)) good →
   rest = [] ∨ (∃ bad rest', rest = bad :: rest' ∧ add_of bad = None) →
   load_add json_loads row = omap add_of good)
  ∧ (key = "copy_pairs" →
     Forall (fun c => is_Some (copy_of c)) good →
     rest = [] ∨ (∃ bad rest', rest = bad :: rest' ∧ copy_of bad = None) →
     load_copy json_loads row = omap copy_of good).
Proof.
  intros Hfilled Hjson. split; intros -> Hgood Hrest.
  - unfold load_add. rewrite Hfilled, Hjson. cbn [PyVal.iter].
    rewrite add_loop_closed. cbn [app]. by apply take_while_some_split.
  - unfold load_copy. rewrite Hfilled, Hjson. cbn [PyVal.iter].
    rewrite copy_loop_closed. cbn [app]. by apply take_while_some_split.
Qed.

(** Three objects, the second without [dest]: one instruction. *)
Lemma json_list_stops_at_first_malformed_witness :
  load_add json_three_adds three_adds_row
  = [AddInstruction.Build (PStr "a") (PStr "b") PNone]
  ∧ load_copy json_three_adds three_adds_row
    = [CopyInstruction.Build (PStr "a") (PStr "b") PNone]
  ∧ is_ok (load_row json_three_adds three_adds_row) = true.
Proof.
  set (good := [PDict [("src", PStr "a"); ("dest", PStr "b")]]).
  set (rest := [PDict [("src", PStr "c")]; PDict [("src", PStr "d"); ("dest", PStr "e")]]).
  assert (Hrest : ∀ {B : Type} (f : pyval → option B),
            f (PDict [("src", PStr "c")]) = None →
            rest = [] ∨ (∃ bad rest', rest = bad :: rest' ∧ f bad = None)).
  { intros B f Hf. right. by eexists _, _. }
  split; [|split].
  - assert (Hf : filled three_adds_row "add_files" = true) by (vm_compute; reflexivity).
    assert (Hj : json_three_adds (row_get three_adds_row "add_files")
                 = Some (PList (good ++ rest))) by (vm_compute; reflexivity).
    destruct (json_list_stops_at_first_malformed json_three_adds three_adds_row
                "add_files" good rest Hf Hj) as [Hadd _].
    refine (Hadd eq_refl _ (Hrest _ add_of eq_refl)). repeat constructor. by eexists.
  - assert (Hf : filled three_adds_row "copy_pairs" = true) by (vm_compute; reflexivity).
    assert (Hj : json_three_adds (row_get three_adds_row "copy_pairs")
                 = Some (PList (good ++ rest))) by (vm_compute; reflexivity).
    destruct (json_list_stops_at_first_malformed json_three_adds three_adds_row
                "copy_pairs" good rest Hf Hj) as [_ Hcopy].
    refine (Hcopy eq_refl _ (Hrest _ copy_of eq_refl)). repeat constructor. by eexists.
  - vm_compute. reflexivity.
Defined.

(** * More on the preview and on the clean-up by age *)

Lemma preview_age_reason (now : Z) (days : option Z) (t : Z) (flag : bool) (rs : list reason)
    (flag' : bool) (rs' : list reason) :
  (flag = true ↔ rs ≠ []) →
  preview_age now days t flag rs = Ok (flag', rs') → (flag' = true ↔ rs' ≠ []).
Proof.
  intros Hinv. unfold preview_age. destruct days as [d|]; [|by intros [= <- <-]].
  destruct (timedelta_days d) as [delta|]; [|done]. cbn [mbind result_bind].
  destruct (datetime_sub now delta) as [c|]; [|done]. cbn [mbind result_bind].
  destruct (t <? c); intros [= <- <-]; [|done].
  split; [|done]. intros _. unfold append. by destruct rs.
Qed.

Lemma preview_empty_reason (show_empty : bool) (es : Directory) (flag : bool)
    (rs : list reason) :
  (flag = true ↔ rs ≠ []) →
  ((preview_empty show_empty es flag rs).1 = true
   ↔ (preview_empty show_empty es flag rs).2 ≠ []).
Proof.
  intros Hinv. unfold preview_empty. destruct show_empty; [|done].
  destruct (length (visible_contents es) =? 0)%nat; [|done]. cbn [fst snd].
  split; [|done]. intros _. unfold append. by destruct rs.
Qed.

Lemma preview_invalid_reason (show_invalid : bool) (es : Directory) (flag : bool)
    (rs : list reason) :
  (flag = true ↔ rs ≠ []) →
  ((preview_invalid show_invalid es flag rs).1 = true
   ↔ (preview_invalid show_invalid es flag rs).2 ≠ []).
Proof.
  intros Hinv. unfold preview_invalid. destruct show_invalid; [|done].
  assert (Happ : ∀ r, (true = true ↔ append rs r ≠ [])).
  { intros r. split; [|done]. intros _. unfold append. by destruct rs. }
  destruct (es !! "Dockerfile") as [dockerfile|]; [|apply Happ].
  destruct (read_text dockerfile) as [text|]; [|apply Happ].
  destruct (negb (Py.nonempty (Py.strip text))); [apply Happ|].
  destruct (negb (Py.contains "FROM " (Py.upper (Py.strip text)))); [apply Happ|done].
Qed.

Lemma preview_step_reason (now : Z) (days : option Z) (show_empty show_invalid : bool)
    (out : Directory) (apps apps' : list app_info) (total total' : Z) (item : string) :
  Forall marked_with_reason apps →
  preview_step now days show_empty show_invalid out (apps, total) item = Ok (apps', total') →
  Forall marked_with_reason apps'.
Proof.
  intros Hinv. unfold preview_step.
  destruct (out !! item) as [[|t es]|]; try (by intros [= <- <-]).
  destruct (negb (Py.startswith "." item)); [|by intros [= <- <-]].
  destruct (preview_age now days t false []) as [[flag0 rs0]|] eqn:Hage; [|done].
  cbn [mbind result_bind].
  pose proof (preview_age_reason now days t false [] flag0 rs0 ltac:(done) Hage) as H0.
  pose proof (preview_empty_reason show_empty es flag0 rs0 H0) as H1.
  destruct (preview_empty show_empty es flag0 rs0) as [flag1 rs1]. cbn [fst snd] in H1.
  pose proof (preview_invalid_reason show_invalid es flag1 rs1 H1) as H2.
  destruct (preview_invalid show_invalid es flag1 rs1) as [flag2 rs2]. cbn [fst snd] in H2.
  intros [= <- <-]. unfold append. apply Forall_app. split; [done|].
  constructor; [|constructor]. exact H2.
Qed.

Lemma preview_loop_reason (now : Z) (days : option Z) (show_empty show_invalid : bool)
    (out : Directory) (items : list string) (apps apps' : list app_info) (total total' : Z) :
  Forall marked_with_reason apps →
  preview_loop now days show_empty show_invalid out (apps, total) items = Ok (apps', total') →
  Forall marked_with_reason apps'.
Proof.
  revert apps total. induction items as [|item items IH]; intros apps total Hinv;
    cbn [preview_loop].
  - by intros [= <- <-].
  - destruct (preview_step now days show_empty show_invalid out (apps, total) item)
      as [[apps1 total1]|] eqn:Hstep; [|done].
    cbn [mbind result_bind]. apply IH.
    by apply (preview_step_reason now days show_empty show_invalid out apps apps1
                total total1 item).
Qed.

(** X20.  The marks of a preview.  In every preview an entry is marked
    [will_be_deleted] exactly when it carries a reason, and
    [apps_to_delete] does not exceed [total_apps].  When the age threshold
    is absent or gives a date, a directory is marked by the preview with
    several criteria exactly when it is marked by the preview with one of
    the requested criteria alone. *)
Theorem preview_marks_are_a_union (now : Z) (days : option Z)
    (show_empty show_invalid : bool) (output : option Directory) :
  (∀ rep, preview_cleanup now days show_empty show_invalid output = Returned rep →
     Forall marked_with_reason (preview_apps rep)
     ∧ (apps_to_delete rep <= preview_total_apps rep)%nat)
  ∧ (is_ok (preview_cutoff now days) = true →
     ∀ item,
       item ∈ marked (preview_cleanup now days show_empty show_invalid output)
       ↔ item ∈ marked (preview_cleanup now days false false output)
         ∨ (show_empty = true
            ∧ item ∈ marked (preview_cleanup now None true false output))
         ∨ (show_invalid = true
            ∧ item ∈ marked (preview_cleanup now None false true output))).
Proof.
  split.
  - intros rep. unfold preview_cleanup. destruct output as [out|].
    + destruct (preview_loop now days show_empty show_invalid out ([], 0) (listdir out))
        as [[apps total]|] eqn:Hloop; [|done].
      intros [= <-]. cbn [preview_apps apps_to_delete preview_total_apps]. split.
      * by apply (preview_loop_reason now days show_empty show_invalid out (listdir out)
                    [] apps 0 total).
      * apply length_filter.
    + intros [= <-]. cbn. split; [constructor|lia].
  - intros Hok item. destruct output as [out|].
    + rewrite !marked_closed. cbn [preview_cutoff].
      destruct (preview_cutoff now days) as [c|e]; [|done].
      rewrite !elem_of_names_where. unfold criteria. split.
      * intros (d & Hd & Hc). apply orb_true_iff in Hc as [Hc|Hc].
        -- apply orb_true_iff in Hc as [Hc|Hc].
           ++ left. exists d. split; [done|]. by rewrite Hc.
           ++ apply andb_true_iff in Hc as [-> Hc]. right. left. split; [done|].
              exists d. split; [done|]. cbn. by rewrite Hc.
        -- apply andb_true_iff in Hc as [-> Hc]. right. right. split; [done|].
           exists d. split; [done|]. cbn. by rewrite Hc.
      * intros [(d & Hd & Hc)|[(Hs & d & Hd & Hc)|(Hs & d & Hd & Hc)]];
          exists d; (split; [done|]); revert Hc; try revert Hs; cbn;
          destruct (match c with Some c0 => older_than c0 d | None => false end),
            (empty_dir d), (invalid_dir d), show_empty, show_invalid; cbn; done.
    + cbn. rewrite elem_of_nil. split; [done|]. by intros [|[[_ ?]|[_ ?]]].
Qed.

(** The example directory, all criteria at once. *)
Lemma preview_marks_are_a_union_witness :
  "scratch" ∈ marked (preview_cleanup now_example (Some 7) true true (Some example_output)).
Proof.
  apply (proj2 (preview_marks_are_a_union now_example (Some 7) true true
                  (Some example_output))).
  - reflexivity.
  - right. left. split; [reflexivity|].
    assert (Hm : marked (preview_cleanup now_example None true false (Some example_output))
                 = ["scratch"]) by (vm_compute; reflexivity).
    rewrite Hm. by left.
Defined.

(** X22.  A larger age threshold never deletes more.  At the same local
    time and on the same output directory, when the clean-up by age
    returns for two thresholds, every directory it deletes with the larger
    threshold it also deletes with the smaller one. *)
Theorem cleanup_old_is_monotone (now days days' : Z) (output : option Directory)
    (report report' : old_report) :
  days <= days' →
  (cleanup_old_files now days output).2 = Returned report →
  (cleanup_old_files now days' output).2 = Returned report' →
  map old_name (old_deleted_apps report') ⊆ map old_name (old_deleted_apps report).
Proof.
  intros Hle. destruct output as [out|]; [|by intros [= <-] [= <-]].
  rewrite !cleanup_old_files_closed.
  destruct (cutoff now days) as [c|] eqn:Hc; [|done].
  destruct (cutoff now days') as [c'|] eqn:Hc'; [|done].
  cbn [snd]. intros [= <-] [= <-]. cbn [old_deleted_apps]. rewrite !map_map.
  assert (Hcc : c' <= c).
  { unfold cutoff, timedelta_days, datetime_sub in Hc, Hc'.
    destruct (_ && _) in Hc; [|done]. destruct (_ && _) in Hc'; [|done].
    cbn [mbind result_bind] in Hc, Hc'.
    destruct (_ && _) in Hc; [|done]. destruct (_ && _) in Hc'; [|done].
    injection Hc as <-. injection Hc' as <-. unfold microseconds_per_day. lia. }
  intros item (d & -> & [Hold Hd]%list_elem_of_filter)%list_elem_of_fmap.
  apply list_elem_of_fmap. exists d. split; [done|]. apply list_elem_of_filter.
  split; [|done]. unfold older_than in *. apply Z.ltb_lt in Hold. apply Z.ltb_lt. lia.
Qed.

(** The example directory, thresholds of two and seven days. *)
Lemma cleanup_old_is_monotone_witness :
  ∃ report report',
    (cleanup_old_files now_example 2 (Some example_output)).2 = Returned report
    ∧ (cleanup_old_files now_example 7 (Some example_output)).2 = Returned report'
    ∧ map old_name (old_deleted_apps report') ⊆ map old_name (old_deleted_apps report).
Proof.
  eassert (H2 : (cleanup_old_files now_example 2 (Some example_output)).2 = Returned _)
    by (vm_compute; reflexivity).
  eassert (H7 : (cleanup_old_files now_example 7 (Some example_output)).2 = Returned _)
    by (vm_compute; reflexivity).
  eexists _, _. split; [exact H2|]. split; [exact H7|].
  apply (cleanup_old_is_monotone now_example 2 7 (Some example_output) _ _ ltac:(lia) H2 H7).
Defined.

(** * The lines of a map-valued cell *)


(** * The lines of a map-valued cell *)

Lemma dict_entries (d : list (string * string)) :
  NoDup (map fst d) →
  d = map (fun k => (k, default "" (dict_get d k))) (map fst d).
Proof.
  induction d as [|[k v] d IH]; [done|]. cbn [map fst]. intros [Hk Hnd]%NoDup_cons.
  cbn [dict_get]. rewrite String.eqb_refl. cbn [default]. f_equal.
  rewrite (IH Hnd) at 1. apply map_ext_in. intros k' Hin%list_elem_of_In.
  destruct (String.eqb k' k) eqn:E; [|done].
  apply String.eqb_eq in E. by subst.
Qed.

Lemma parsed_cell_entries (cell : string) :
  parse_key_value_pairs cell
  = map (fun k => (k, default "" (cell_value cell k))) (first_occurrences [] (kv_keys cell)).
Proof.
  pose proof (parse_key_value_pairs_keys cell) as [Hnd _].
  rewrite (dict_entries _ Hnd) at 1.
  assert (Hk : map fst (parse_key_value_pairs cell) = first_occurrences [] (kv_keys cell)).
  { unfold parse_key_value_pairs, kv_keys.
    destruct (negb (Py.nonempty cell) || String.eqb (Py.strip cell) "") eqn:E.
    - assert (Hb : kv_tokens cell = []).
      { apply blank_cell_no_tokens. apply orb_true_iff in E as [E|E].
        - apply negb_true_iff in E. unfold Py.nonempty in E.
          apply negb_false_iff, String.eqb_eq in E. by subst cell.
        - by apply String.eqb_eq. }
      by rewrite Hb.
    - by rewrite parse_fold_order. }
  rewrite Hk. apply map_ext. intros k. f_equal. f_equal.
  unfold parse_key_value_pairs, cell_value.
  destruct (negb (Py.nonempty cell) || String.eqb (Py.strip cell) "") eqn:E.
  - assert (Hb : kv_tokens cell = []).
    { apply blank_cell_no_tokens. apply orb_true_iff in E as [E|E].
      - apply negb_true_iff in E. unfold Py.nonempty in E.
        apply negb_false_iff, String.eqb_eq in E. by subst cell.
      - by apply String.eqb_eq. }
    by rewrite Hb.
  - rewrite parse_fold_get. fold (kv_tokens cell). by destruct (List.find _ _).
Qed.

(** X23.  The ENV, ARG and LABEL lines of a loaded stage.  The stage
    renders one line for each key of the cell, in the order in which the
    keys first occur, and the line of a key carries the value of the last
    token with that key: [ENV key=value], [ARG key=value], and
    [LABEL key=] followed by the value between double quotes. *)
Theorem map_field_lines (json_loads : string → option pyval) (row : Row)
    (app_name : string) (stage : DockerfileStage) :
  load_row json_loads row = Ok (app_name, stage) →
  directive_lines ENV stage
  = map (key_line "ENV" (row_get row "env_vars"))
      (first_occurrences [] (kv_keys (row_get row "env_vars")))
  ∧ directive_lines ARG stage
    = map (key_line "ARG" (row_get row "args"))
        (first_occurrences [] (kv_keys (row_get row "args")))
  ∧ directive_lines LABEL stage
    = map (label_line (row_get row "label_pairs"))
        (first_occurrences [] (kv_keys (row_get row "label_pairs"))).
Proof.
  intros H. pose proof (load_row_fields json_loads row app_name stage H)
    as (_ & _ & _ & _ & He & Ha & Hl).
  cbn [directive_lines]. rewrite He, Ha, Hl, !parsed_cell_entries, !map_map.
  by repeat split.
Qed.

(** The row with a repeated key: the first position, the last value. *)
Lemma map_field_lines_witness :
  ∃ stage,
    load_row json_rejects duplicate_key_row = Ok ("svc1", stage)
    ∧ directive_lines ENV stage = ["ENV A=2"; "ENV C=3"].
Proof.
  eassert (Hload : load_row json_rejects duplicate_key_row = Ok ("svc1", _))
    by (vm_compute; reflexivity).
  eexists. split; [exact Hload|].
  rewrite (proj1 (map_field_lines json_rejects duplicate_key_row "svc1" _ Hload)).
  vm_compute. reflexivity.
Defined.

(** * Commas and semicolons *)

Lemma all_space_replace (s : string) :
  all_space (Py.replace "," ";" s) = all_space s.
Proof.
  induction s as [|c s IH]; [done|]. cbn [Py.replace all_space]. rewrite IH.
  destruct (Ascii.eqb c ",") eqn:E; [|done]. apply Ascii.eqb_eq in E. by subst.
Qed.

Lemma strip_blank_iff (s : string) : String.eqb (Py.strip s) "" = all_space s.
Proof.
  destruct (all_space s) eqn:E.
  - apply String.eqb_eq. by apply all_space_strip.
  - apply String.eqb_neq. intros H%strip_empty. congruence.
Qed.

(** X24.  Commas and semicolons are interchangeable in the port and
    volume cells.  Two rows whose [expose_ports] cells, or [volume_dirs]
    cells, differ only in which of the two separators they use load the
    same ports, or fail alike, and the same volumes. *)
Theorem separators_are_interchangeable (row row' : Row) :
  (Py.replace "," ";" (row_get row "expose_ports")
   = Py.replace "," ";" (row_get row' "expose_ports") →
   load_ports row = load_ports row')
  ∧ (Py.replace "," ";" (row_get row "volume_dirs")
     = Py.replace "," ";" (row_get row' "volume_dirs") →
     load_volumes row = load_volumes row').
Proof.
  assert (Hfilled : ∀ key, Py.replace "," ";" (row_get row key)
                           = Py.replace "," ";" (row_get row' key) →
                           filled row key = filled row' key).
  { intros key H. unfold filled. rewrite !strip_blank_iff.
    by rewrite <- (all_space_replace (row_get row key)), H, all_space_replace. }
  split; intros H.
  - unfold load_ports. by rewrite (Hfilled _ H), H.
  - unfold load_volumes. by rewrite (Hfilled _ H), H.
Qed.

(** The same three ports and two volumes with either separator. *)
Lemma separators_are_interchangeable_witness :
  load_ports comma_row = load_ports semicolon_row
  ∧ load_ports comma_row = Ok [80; 443; 8080]
  ∧ load_volumes comma_row = load_volumes semicolon_row.
Proof.
  destruct (separators_are_interchangeable comma_row semicolon_row) as [Hp Hv].
  split; [|split].
  - apply Hp. vm_compute. reflexivity.
  - vm_compute. reflexivity.
  - apply Hv. vm_compute. reflexivity.
Defined.
